(** * FillYaTank: phase classification, edge-triggered alerts and
      capability tokens

    A shallow embedding of [main.py], [signup.py] and [api/handlers.py].

    Python [str] values are modelled as [string] (sequences of 8-bit
    characters): a text is identified with its UTF-8 encoding, so
    [str.encode()] is the identity.  Module [Py] has the built-ins on the
    ASCII range, where the tip phrases, the city names and the tokens
    live; module [Unicode] has [str.lower] and [str.strip] on any text,
    as the sources apply them to the e-mail and the city they are given.
    Dictionaries loaded from the JSON files are finite maps with string
    keys.  Console output ([print]) is not modelled. *)

From Stdlib Require Import ZArith NArith Ascii String List Bool Lia.
From stdpp Require Import gmap strings list.

Local Open Scope bool_scope.

(** ** Python built-ins used by the sources *)

Module Py.

Definition isupper (c : ascii) : bool :=
  let n := N_of_ascii c in (65 <=? n)%N && (n <=? 90)%N.

Definition islower (c : ascii) : bool :=
  let n := N_of_ascii c in (97 <=? n)%N && (n <=? 122)%N.

Definition lower_char (c : ascii) : ascii :=
  if isupper c then ascii_of_N (N_of_ascii c + 32) else c.

Definition upper_char (c : ascii) : ascii :=
  if islower c then ascii_of_N (N_of_ascii c - 32) else c.

(** [s.lower()], for ASCII text *)
Fixpoint lower (s : string) : string :=
  match s with
  | EmptyString => EmptyString
  | String c s' => String (lower_char c) (lower s')
  end.

(** [s.upper()] *)
Fixpoint upper (s : string) : string :=
  match s with
  | EmptyString => EmptyString
  | String c s' => String (upper_char c) (upper s')
  end.

(** [c.isspace()] on the ASCII range: TAB, LF, VT, FF, CR, the four
    separators FS, GS, RS, US, and the space. *)
Definition isspace (c : ascii) : bool :=
  let n := N_of_ascii c in
  ((9 <=? n)%N && (n <=? 13)%N) || ((28 <=? n)%N && (n <=? 32)%N).

(** [s.lstrip()], for ASCII text *)
Fixpoint lstrip (s : string) : string :=
  match s with
  | EmptyString => EmptyString
  | String c s' => if isspace c then lstrip s' else s
  end.

(** [s.rstrip()], for ASCII text *)
Fixpoint rstrip (s : string) : string :=
  match s with
  | EmptyString => EmptyString
  | String c s' =>
      match rstrip s' with
      | EmptyString => if isspace c then EmptyString else String c EmptyString
      | r => String c r
      end
  end.

(** [s.strip()], for ASCII text *)
Definition strip (s : string) : string := rstrip (lstrip s).

(** [s.rstrip(ch)] for a one-character argument *)
Fixpoint rstrip_char (ch : ascii) (s : string) : string :=
  match s with
  | EmptyString => EmptyString
  | String c s' =>
      match rstrip_char ch s' with
      | EmptyString => if Ascii.eqb c ch then EmptyString else String c EmptyString
      | r => String c r
      end
  end.

(** [s.startswith(p)] *)
Fixpoint startswith (p s : string) : bool :=
  match p, s with
  | EmptyString, _ => true
  | String _ _, EmptyString => false
  | String a p', String b s' => Ascii.eqb a b && startswith p' s'
  end.

(** [p in s] for strings: [p] occurs in [s] as a contiguous substring. *)
Fixpoint contains (p s : string) : bool :=
  startswith p s
  || match s with
     | EmptyString => false
     | String _ s' => contains p s'
     end.

(** [x in l] for a list of strings *)
Definition in_list (x : string) (l : list string) : bool :=
  existsb (String.eqb x) l.

(** [any(f(x) for x in l)] *)
Definition any {A} (f : A -> bool) (l : list A) : bool := existsb f l.

(** [l.remove(x)]: drops the first occurrence.  (Python raises when [x]
    is absent; both callers test membership first.) *)
Fixpoint remove (x : string) (l : list string) : list string :=
  match l with
  | [] => []
  | y :: l' => if String.eqb y x then l' else y :: remove x l'
  end.

(** [c.isascii()] *)
Definition isascii_char (c : ascii) : bool := (N_of_ascii c <? 128)%N.

(** [s.isascii()] *)
Fixpoint isascii (s : string) : bool :=
  match s with
  | EmptyString => true
  | String c s' => isascii_char c && isascii s'
  end.

(** [s[n:]] *)
Fixpoint skip (n : nat) (s : string) : string :=
  match n, s with
  | O, _ => s
  | S _, EmptyString => EmptyString
  | S n', String _ s' => skip n' s'
  end.

(** [s.capitalize()] *)
Definition capitalize (s : string) : string :=
  match s with
  | EmptyString => EmptyString
  | String c s' => String (upper_char c) (lower s')
  end.

End Py.

(** ** [str.lower] and [str.strip] on any text

    The e-mail and the city that [signup.py] and [api/handlers.py]
    normalise with [.lower().strip()] come from outside and may hold any
    character.  The two methods follow the Unicode character database:
    here the one of Unicode 14.0, the version of CPython 3.11, written
    out as [hashlib] and [base64] are below.  A text being its UTF-8
    encoding, its characters are the byte sequences that [points] cuts it
    into. *)

Module Unicode.

(** A continuation byte of UTF-8: [10xxxxxx]. *)
Definition continuation (c : ascii) : bool :=
  let n := N_of_ascii c in (128 <=? n)%N && (n <? 192)%N.

Fixpoint all_continuation (s : string) : bool :=
  match s with
  | EmptyString => true
  | String c s' => continuation c && all_continuation s'
  end.

(** The characters of a text, each as its UTF-8 sequence: a character
    starts at every byte that is not a continuation byte. *)
Fixpoint points (s : string) : list string :=
  match s with
  | EmptyString => []
  | String c s' =>
      let ps := points s' in
      match s' with
      | String d _ =>
          if continuation d
          then match ps with
               | p :: ps' => String c p :: ps'
               | [] => [String c ""]
               end
          else String c "" :: ps
      | EmptyString => [String c ""]
      end
  end.

(** The text made of a list of characters. *)
Fixpoint text (ps : list string) : string :=
  match ps with
  | [] => ""
  | p :: ps' => p +:+ text ps'
  end.

(** No code point: what [codepoint] gives for bytes that encode none. *)
Definition no_point : N := 1114112.

(** The code point a UTF-8 sequence encodes; sequences longer than they
    need be, surrogates and values past U+10FFFF encode none. *)
Definition codepoint (p : string) : N :=
  match map N_of_ascii (list_ascii_of_string p) with
  | [a] => if (a <? 128)%N then a else no_point
  | [a; b] =>
      if (194 <=? a)%N && (a <? 224)%N
      then ((a - 192) * 64 + (b - 128))%N else no_point
  | [a; b; c] =>
      let n := ((a - 224) * 4096 + (b - 128) * 64 + (c - 128))%N in
      if (224 <=? a)%N && (a <? 240)%N && (2048 <=? n)%N
         && negb ((55296 <=? n)%N && (n <? 57344)%N)
      then n else no_point
  | [a; b; c; d] =>
      let n := ((a - 240) * 262144 + (b - 128) * 4096 + (c - 128) * 64
                + (d - 128))%N in
      if (240 <=? a)%N && (a <? 248)%N && (65536 <=? n)%N && (n <? no_point)%N
      then n else no_point
  | _ => no_point
  end.

(** The UTF-8 sequence of a code point. *)
Definition utf8 (n : N) : string :=
  string_of_list_ascii
    (map ascii_of_N
       (if (n <? 128)%N then [n]
        else if (n <? 2048)%N then [192 + n / 64; 128 + n mod 64]
        else if (n <? 65536)%N
        then [224 + n / 4096; 128 + (n / 64) mod 64; 128 + n mod 64]
        else [240 + n / 262144; 128 + (n / 4096) mod 64;
              128 + (n / 64) mod 64; 128 + n mod 64])%N).

(** *** The tables

    [lower_ranges]: the code points with a lower-case mapping of their own,
    as (first, last, step, mapping of the first); the mapping moves along
    with the code point.  [cased_ranges] and [ignorable_ranges]: the
    code points that count as cased letters, and those that are passed
    over, when the context of a capital sigma is looked at.
    [space_ranges]: the whitespace of [str.isspace]. *)

Definition lower_ranges : list (N * N * N * N) :=
  [(65, 90, 1, 97); (192, 214, 1, 224); (216, 222, 1, 248);
   (256, 302, 2, 257); (306, 310, 2, 307); (313, 327, 2, 314);
   (330, 374, 2, 331); (376, 376, 1, 255); (377, 381, 2, 378);
   (385, 385, 1, 595); (386, 388, 2, 387); (390, 390, 1, 596);
   (391, 391, 1, 392); (393, 394, 1, 598); (395, 395, 1, 396);
   (398, 398, 1, 477); (399, 399, 1, 601); (400, 400, 1, 603);
   (401, 401, 1, 402); (403, 403, 1, 608); (404, 404, 1, 611);
   (406, 406, 1, 617); (407, 407, 1, 616); (408, 408, 1, 409);
   (412, 412, 1, 623); (413, 413, 1, 626); (415, 415, 1, 629);
   (416, 420, 2, 417); (422, 422, 1, 640); (423, 423, 1, 424);
   (425, 425, 1, 643); (428, 428, 1, 429); (430, 430, 1, 648);
   (431, 431, 1, 432); (433, 434, 1, 650); (435, 437, 2, 436);
   (439, 439, 1, 658); (440, 440, 1, 441); (444, 444, 1, 445);
   (452, 452, 1, 454); (453, 453, 1, 454); (455, 455, 1, 457);
   (456, 456, 1, 457); (458, 458, 1, 460); (459, 475, 2, 460);
   (478, 494, 2, 479); (497, 497, 1, 499); (498, 500, 2, 499);
   (502, 502, 1, 405); (503, 503, 1, 447); (504, 542, 2, 505);
   (544, 544, 1, 414); (546, 562, 2, 547); (570, 570, 1, 11365);
   (571, 571, 1, 572); (573, 573, 1, 410); (574, 574, 1, 11366);
   (577, 577, 1, 578); (579, 579, 1, 384); (580, 580, 1, 649);
   (581, 581, 1, 652); (582, 590, 2, 583); (880, 882, 2, 881);
   (886, 886, 1, 887); (895, 895, 1, 1011); (902, 902, 1, 940);
   (904, 906, 1, 941); (908, 908, 1, 972); (910, 911, 1, 973);
   (913, 929, 1, 945); (931, 939, 1, 963); (975, 975, 1, 983);
   (984, 1006, 2, 985); (1012, 1012, 1, 952); (1015, 1015, 1, 1016);
   (1017, 1017, 1, 1010); (1018, 1018, 1, 1019); (1021, 1023, 1, 891);
   (1024, 1039, 1, 1104); (1040, 1071, 1, 1072); (1120, 1152, 2, 1121);
   (1162, 1214, 2, 1163); (1216, 1216, 1, 1231); (1217, 1229, 2, 1218);
   (1232, 1326, 2, 1233); (1329, 1366, 1, 1377); (4256, 4293, 1, 11520);
   (4295, 4295, 1, 11559); (4301, 4301, 1, 11565); (5024, 5103, 1, 43888);
   (5104, 5109, 1, 5112); (7312, 7354, 1, 4304); (7357, 7359, 1, 4349);
   (7680, 7828, 2, 7681); (7838, 7838, 1, 223); (7840, 7934, 2, 7841);
   (7944, 7951, 1, 7936); (7960, 7965, 1, 7952); (7976, 7983, 1, 7968);
   (7992, 7999, 1, 7984); (8008, 8013, 1, 8000); (8025, 8031, 2, 8017);
   (8040, 8047, 1, 8032); (8072, 8079, 1, 8064); (8088, 8095, 1, 8080);
   (8104, 8111, 1, 8096); (8120, 8121, 1, 8112); (8122, 8123, 1, 8048);
   (8124, 8124, 1, 8115); (8136, 8139, 1, 8050); (8140, 8140, 1, 8131);
   (8152, 8153, 1, 8144); (8154, 8155, 1, 8054); (8168, 8169, 1, 8160);
   (8170, 8171, 1, 8058); (8172, 8172, 1, 8165); (8184, 8185, 1, 8056);
   (8186, 8187, 1, 8060); (8188, 8188, 1, 8179); (8486, 8486, 1, 969);
   (8490, 8490, 1, 107); (8491, 8491, 1, 229); (8498, 8498, 1, 8526);
   (8544, 8559, 1, 8560); (8579, 8579, 1, 8580); (9398, 9423, 1, 9424);
   (11264, 11311, 1, 11312); (11360, 11360, 1, 11361); (11362, 11362, 1, 619);
   (11363, 11363, 1, 7549); (11364, 11364, 1, 637); (11367, 11371, 2, 11368);
   (11373, 11373, 1, 593); (11374, 11374, 1, 625); (11375, 11375, 1, 592);
   (11376, 11376, 1, 594); (11378, 11378, 1, 11379); (11381, 11381, 1, 11382);
   (11390, 11391, 1, 575); (11392, 11490, 2, 11393); (11499, 11501, 2, 11500);
   (11506, 11506, 1, 11507); (42560, 42604, 2, 42561); (42624, 42650, 2, 42625);
   (42786, 42798, 2, 42787); (42802, 42862, 2, 42803); (42873, 42875, 2, 42874);
   (42877, 42877, 1, 7545); (42878, 42886, 2, 42879); (42891, 42891, 1, 42892);
   (42893, 42893, 1, 613); (42896, 42898, 2, 42897); (42902, 42920, 2, 42903);
   (42922, 42922, 1, 614); (42923, 42923, 1, 604); (42924, 42924, 1, 609);
   (42925, 42925, 1, 620); (42926, 42926, 1, 618); (42928, 42928, 1, 670);
   (42929, 42929, 1, 647); (42930, 42930, 1, 669); (42931, 42931, 1, 43859);
   (42932, 42946, 2, 42933); (42948, 42948, 1, 42900); (42949, 42949, 1, 642);
   (42950, 42950, 1, 7566); (42951, 42953, 2, 42952); (42960, 42960, 1, 42961);
   (42966, 42968, 2, 42967); (42997, 42997, 1, 42998); (65313, 65338, 1, 65345);
   (66560, 66599, 1, 66600); (66736, 66771, 1, 66776); (66928, 66964, 2, 66967);
   (66929, 66937, 2, 66968); (66941, 66953, 2, 66980); (66957, 66961, 2, 66996);
   (66965, 66965, 1, 67004); (68736, 68786, 1, 68800); (71840, 71871, 1, 71872);
   (93760, 93791, 1, 93792); (125184, 125217, 1, 125218)]%N.

Definition cased_ranges : list (N * N) :=
  [(65, 90); (97, 122); (170, 170); (181, 181); (186, 186);
   (192, 214); (216, 246); (248, 442); (444, 447); (452, 659);
   (661, 687); (880, 883); (886, 887); (891, 893); (895, 895);
   (902, 902); (904, 906); (908, 908); (910, 929); (931, 1013);
   (1015, 1153); (1162, 1327); (1329, 1366); (1376, 1416); (4256, 4293);
   (4295, 4295); (4301, 4301); (4304, 4346); (4349, 4351); (5024, 5109);
   (5112, 5117); (7296, 7304); (7312, 7354); (7357, 7359); (7424, 7467);
   (7531, 7543); (7545, 7578); (7680, 7957); (7960, 7965); (7968, 8005);
   (8008, 8013); (8016, 8023); (8025, 8025); (8027, 8027); (8029, 8029);
   (8031, 8061); (8064, 8116); (8118, 8124); (8126, 8126); (8130, 8132);
   (8134, 8140); (8144, 8147); (8150, 8155); (8160, 8172); (8178, 8180);
   (8182, 8188); (8450, 8450); (8455, 8455); (8458, 8467); (8469, 8469);
   (8473, 8477); (8484, 8484); (8486, 8486); (8488, 8488); (8490, 8493);
   (8495, 8500); (8505, 8505); (8508, 8511); (8517, 8521); (8526, 8526);
   (8544, 8575); (8579, 8580); (9398, 9449); (11264, 11387); (11390, 11492);
   (11499, 11502); (11506, 11507); (11520, 11557); (11559, 11559); (11565, 11565);
   (42560, 42605); (42624, 42651); (42786, 42863); (42865, 42887); (42891, 42894);
   (42896, 42954); (42960, 42961); (42963, 42963); (42965, 42969); (42997, 42998);
   (43002, 43002); (43824, 43866); (43872, 43880); (43888, 43967); (64256, 64262);
   (64275, 64279); (65313, 65338); (65345, 65370); (66560, 66639); (66736, 66771);
   (66776, 66811); (66928, 66938); (66940, 66954); (66956, 66962); (66964, 66965);
   (66967, 66977); (66979, 66993); (66995, 67001); (67003, 67004); (68736, 68786);
   (68800, 68850); (71840, 71903); (93760, 93823); (119808, 119892); (119894, 119964);
   (119966, 119967); (119970, 119970); (119973, 119974); (119977, 119980); (119982, 119993);
   (119995, 119995); (119997, 120003); (120005, 120069); (120071, 120074); (120077, 120084);
   (120086, 120092); (120094, 120121); (120123, 120126); (120128, 120132); (120134, 120134);
   (120138, 120144); (120146, 120485); (120488, 120512); (120514, 120538); (120540, 120570);
   (120572, 120596); (120598, 120628); (120630, 120654); (120656, 120686); (120688, 120712);
   (120714, 120744); (120746, 120770); (120772, 120779); (122624, 122633); (122635, 122654);
   (125184, 125251); (127280, 127305); (127312, 127337); (127344, 127369)]%N.

Definition ignorable_ranges : list (N * N) :=
  [(39, 39); (46, 46); (58, 58); (94, 94); (96, 96);
   (168, 168); (173, 173); (175, 175); (180, 180); (183, 184);
   (688, 879); (884, 885); (890, 890); (900, 901); (903, 903);
   (1155, 1161); (1369, 1369); (1375, 1375); (1425, 1469); (1471, 1471);
   (1473, 1474); (1476, 1477); (1479, 1479); (1524, 1524); (1536, 1541);
   (1552, 1562); (1564, 1564); (1600, 1600); (1611, 1631); (1648, 1648);
   (1750, 1757); (1759, 1768); (1770, 1773); (1807, 1807); (1809, 1809);
   (1840, 1866); (1958, 1968); (2027, 2037); (2042, 2042); (2045, 2045);
   (2070, 2093); (2137, 2139); (2184, 2184); (2192, 2193); (2200, 2207);
   (2249, 2306); (2362, 2362); (2364, 2364); (2369, 2376); (2381, 2381);
   (2385, 2391); (2402, 2403); (2417, 2417); (2433, 2433); (2492, 2492);
   (2497, 2500); (2509, 2509); (2530, 2531); (2558, 2558); (2561, 2562);
   (2620, 2620); (2625, 2626); (2631, 2632); (2635, 2637); (2641, 2641);
   (2672, 2673); (2677, 2677); (2689, 2690); (2748, 2748); (2753, 2757);
   (2759, 2760); (2765, 2765); (2786, 2787); (2810, 2815); (2817, 2817);
   (2876, 2876); (2879, 2879); (2881, 2884); (2893, 2893); (2901, 2902);
   (2914, 2915); (2946, 2946); (3008, 3008); (3021, 3021); (3072, 3072);
   (3076, 3076); (3132, 3132); (3134, 3136); (3142, 3144); (3146, 3149);
   (3157, 3158); (3170, 3171); (3201, 3201); (3260, 3260); (3263, 3263);
   (3270, 3270); (3276, 3277); (3298, 3299); (3328, 3329); (3387, 3388);
   (3393, 3396); (3405, 3405); (3426, 3427); (3457, 3457); (3530, 3530);
   (3538, 3540); (3542, 3542); (3633, 3633); (3636, 3642); (3654, 3662);
   (3761, 3761); (3764, 3772); (3782, 3782); (3784, 3789); (3864, 3865);
   (3893, 3893); (3895, 3895); (3897, 3897); (3953, 3966); (3968, 3972);
   (3974, 3975); (3981, 3991); (3993, 4028); (4038, 4038); (4141, 4144);
   (4146, 4151); (4153, 4154); (4157, 4158); (4184, 4185); (4190, 4192);
   (4209, 4212); (4226, 4226); (4229, 4230); (4237, 4237); (4253, 4253);
   (4348, 4348); (4957, 4959); (5906, 5908); (5938, 5939); (5970, 5971);
   (6002, 6003); (6068, 6069); (6071, 6077); (6086, 6086); (6089, 6099);
   (6103, 6103); (6109, 6109); (6155, 6159); (6211, 6211); (6277, 6278);
   (6313, 6313); (6432, 6434); (6439, 6440); (6450, 6450); (6457, 6459);
   (6679, 6680); (6683, 6683); (6742, 6742); (6744, 6750); (6752, 6752);
   (6754, 6754); (6757, 6764); (6771, 6780); (6783, 6783); (6823, 6823);
   (6832, 6862); (6912, 6915); (6964, 6964); (6966, 6970); (6972, 6972);
   (6978, 6978); (7019, 7027); (7040, 7041); (7074, 7077); (7080, 7081);
   (7083, 7085); (7142, 7142); (7144, 7145); (7149, 7149); (7151, 7153);
   (7212, 7219); (7222, 7223); (7288, 7293); (7376, 7378); (7380, 7392);
   (7394, 7400); (7405, 7405); (7412, 7412); (7416, 7417); (7468, 7530);
   (7544, 7544); (7579, 7679); (8125, 8125); (8127, 8129); (8141, 8143);
   (8157, 8159); (8173, 8175); (8189, 8190); (8203, 8207); (8216, 8217);
   (8228, 8228); (8231, 8231); (8234, 8238); (8288, 8292); (8294, 8303);
   (8305, 8305); (8319, 8319); (8336, 8348); (8400, 8432); (11388, 11389);
   (11503, 11505); (11631, 11631); (11647, 11647); (11744, 11775); (11823, 11823);
   (12293, 12293); (12330, 12333); (12337, 12341); (12347, 12347); (12441, 12446);
   (12540, 12542); (40981, 40981); (42232, 42237); (42508, 42508); (42607, 42610);
   (42612, 42621); (42623, 42623); (42652, 42655); (42736, 42737); (42752, 42785);
   (42864, 42864); (42888, 42890); (42994, 42996); (43000, 43001); (43010, 43010);
   (43014, 43014); (43019, 43019); (43045, 43046); (43052, 43052); (43204, 43205);
   (43232, 43249); (43263, 43263); (43302, 43309); (43335, 43345); (43392, 43394);
   (43443, 43443); (43446, 43449); (43452, 43453); (43471, 43471); (43493, 43494);
   (43561, 43566); (43569, 43570); (43573, 43574); (43587, 43587); (43596, 43596);
   (43632, 43632); (43644, 43644); (43696, 43696); (43698, 43700); (43703, 43704);
   (43710, 43711); (43713, 43713); (43741, 43741); (43756, 43757); (43763, 43764);
   (43766, 43766); (43867, 43871); (43881, 43883); (44005, 44005); (44008, 44008);
   (44013, 44013); (64286, 64286); (64434, 64450); (65024, 65039); (65043, 65043);
   (65056, 65071); (65106, 65106); (65109, 65109); (65279, 65279); (65287, 65287);
   (65294, 65294); (65306, 65306); (65342, 65342); (65344, 65344); (65392, 65392);
   (65438, 65439); (65507, 65507); (65529, 65531); (66045, 66045); (66272, 66272);
   (66422, 66426); (67456, 67461); (67463, 67504); (67506, 67514); (68097, 68099);
   (68101, 68102); (68108, 68111); (68152, 68154); (68159, 68159); (68325, 68326);
   (68900, 68903); (69291, 69292); (69446, 69456); (69506, 69509); (69633, 69633);
   (69688, 69702); (69744, 69744); (69747, 69748); (69759, 69761); (69811, 69814);
   (69817, 69818); (69821, 69821); (69826, 69826); (69837, 69837); (69888, 69890);
   (69927, 69931); (69933, 69940); (70003, 70003); (70016, 70017); (70070, 70078);
   (70089, 70092); (70095, 70095); (70191, 70193); (70196, 70196); (70198, 70199);
   (70206, 70206); (70367, 70367); (70371, 70378); (70400, 70401); (70459, 70460);
   (70464, 70464); (70502, 70508); (70512, 70516); (70712, 70719); (70722, 70724);
   (70726, 70726); (70750, 70750); (70835, 70840); (70842, 70842); (70847, 70848);
   (70850, 70851); (71090, 71093); (71100, 71101); (71103, 71104); (71132, 71133);
   (71219, 71226); (71229, 71229); (71231, 71232); (71339, 71339); (71341, 71341);
   (71344, 71349); (71351, 71351); (71453, 71455); (71458, 71461); (71463, 71467);
   (71727, 71735); (71737, 71738); (71995, 71996); (71998, 71998); (72003, 72003);
   (72148, 72151); (72154, 72155); (72160, 72160); (72193, 72202); (72243, 72248);
   (72251, 72254); (72263, 72263); (72273, 72278); (72281, 72283); (72330, 72342);
   (72344, 72345); (72752, 72758); (72760, 72765); (72767, 72767); (72850, 72871);
   (72874, 72880); (72882, 72883); (72885, 72886); (73009, 73014); (73018, 73018);
   (73020, 73021); (73023, 73029); (73031, 73031); (73104, 73105); (73109, 73109);
   (73111, 73111); (73459, 73460); (78896, 78904); (92912, 92916); (92976, 92982);
   (92992, 92995); (94031, 94031); (94095, 94111); (94176, 94177); (94179, 94180);
   (110576, 110579); (110581, 110587); (110589, 110590); (113821, 113822); (113824, 113827);
   (118528, 118573); (118576, 118598); (119143, 119145); (119155, 119170); (119173, 119179);
   (119210, 119213); (119362, 119364); (121344, 121398); (121403, 121452); (121461, 121461);
   (121476, 121476); (121499, 121503); (121505, 121519); (122880, 122886); (122888, 122904);
   (122907, 122913); (122915, 122916); (122918, 122922); (123184, 123197); (123566, 123566);
   (123628, 123631); (125136, 125142); (125252, 125259); (127995, 127999); (917505, 917505);
   (917536, 917631); (917760, 917999)]%N.

Definition space_ranges : list (N * N) :=
  [(9, 13); (28, 32); (133, 133); (160, 160); (5760, 5760);
   (8192, 8202); (8232, 8233); (8239, 8239); (8287, 8287); (12288, 12288)]%N.

Definition in_ranges (rs : list (N * N)) (n : N) : bool :=
  existsb (fun r => (fst r <=? n)%N && (n <=? snd r)%N) rs.

(** The pairs (code point, its lower-case mapping) of a range. *)
Definition expand (r : N * N * N * N) : list (N * N) :=
  let '(first, last, step, target) := r in
  map (fun k => (first + N.of_nat k * step, target + N.of_nat k * step)%N)
    (seq 0 (S (N.to_nat ((last - first) / step)))).

Definition lower_table : list (N * N) :=
  Eval vm_compute in flat_map expand lower_ranges.

Fixpoint assoc (table : list (N * N)) (n : N) : option N :=
  match table with
  | [] => None
  | (k, v) :: table' => if (k =? n)%N then Some v else assoc table' n
  end.

Definition is_space (p : string) : bool := in_ranges space_ranges (codepoint p).
Definition ignorable (p : string) : bool := in_ranges ignorable_ranges (codepoint p).
Definition cased (p : string) : bool := in_ranges cased_ranges (codepoint p).

(** The first character of [ps] that is not passed over is a cased
    letter. *)
Fixpoint cased_next (ps : list string) : bool :=
  match ps with
  | [] => false
  | p :: ps' => if ignorable p then cased_next ps' else cased p
  end.

(** A capital sigma ends a word, and becomes the final small sigma, when
    a cased letter comes before it and none after it; [before] has the
    characters before it, the nearest first. *)
Definition final_sigma (before after : list string) : bool :=
  cased_next before && negb (cased_next after).

(** What one character becomes in [s.lower()].  The capital sigma U+03A3
    becomes U+03C2 or U+03C3; U+0130 becomes [i] and a combining dot;
    every other character has the mapping of the table, or stays. *)
Definition lower_point (before after : list string) (p : string) : list string :=
  let n := codepoint p in
  if (n =? 931)%N then [utf8 (if final_sigma before after then 962 else 963)]
  else if (n =? 304)%N then [utf8 105; utf8 775]
  else
    match assoc lower_table n with
    | Some m => [utf8 m]
    | None => [p]
    end.

Fixpoint lower_points (before ps : list string) : list string :=
  match ps with
  | [] => []
  | p :: ps' => lower_point before ps' p ++ lower_points (p :: before) ps'
  end.

(** [s.lower()] *)
Definition lower (s : string) : string := text (lower_points [] (points s)).

Fixpoint lstrip_points (ps : list string) : list string :=
  match ps with
  | [] => []
  | p :: ps' => if is_space p then lstrip_points ps' else ps
  end.

Fixpoint rstrip_points (ps : list string) : list string :=
  match ps with
  | [] => []
  | p :: ps' =>
      match rstrip_points ps' with
      | [] => if is_space p then [] else [p]
      | r => p :: r
      end
  end.

(** [s.strip()] *)
Definition strip (s : string) : string :=
  text (rstrip_points (lstrip_points (points s))).

End Unicode.

(** ** [hashlib.sha256] and [base64.urlsafe_b64encode]

    The two library functions the token derivation calls, written out from
    FIPS 180-4 and RFC 4648 so that tokens can be computed.  Bytes are
    integers in [0, 256); words are integers in [0, 2^32) with the
    wrap-around made explicit by [w32]. *)

Module SHA256.
Local Open Scope Z_scope.

Definition w32 (x : Z) : Z := x mod 2 ^ 32.

Definition rotr (n x : Z) : Z :=
  Z.lor (Z.shiftr x n) (w32 (Z.shiftl x (32 - n))).

Definition Ch (x y z : Z) : Z :=
  Z.lxor (Z.land x y) (Z.land (Z.lxor x (2 ^ 32 - 1)) z).

Definition Maj (x y z : Z) : Z :=
  Z.lxor (Z.lxor (Z.land x y) (Z.land x z)) (Z.land y z).

Definition Sigma0 (x : Z) : Z := Z.lxor (Z.lxor (rotr 2 x) (rotr 13 x)) (rotr 22 x).
Definition Sigma1 (x : Z) : Z := Z.lxor (Z.lxor (rotr 6 x) (rotr 11 x)) (rotr 25 x).
Definition sigma0 (x : Z) : Z := Z.lxor (Z.lxor (rotr 7 x) (rotr 18 x)) (Z.shiftr x 3).
Definition sigma1 (x : Z) : Z := Z.lxor (Z.lxor (rotr 17 x) (rotr 19 x)) (Z.shiftr x 10).

(** Round constants: the first 32 bits of the fractional parts of the
    cube roots of the first 64 primes. *)
Definition K : list Z :=
  [1116352408; 1899447441; 3049323471; 3921009573;
   961987163; 1508970993; 2453635748; 2870763221;
   3624381080; 310598401; 607225278; 1426881987;
   1925078388; 2162078206; 2614888103; 3248222580;
   3835390401; 4022224774; 264347078; 604807628;
   770255983; 1249150122; 1555081692; 1996064986;
   2554220882; 2821834349; 2952996808; 3210313671;
   3336571891; 3584528711; 113926993; 338241895;
   666307205; 773529912; 1294757372; 1396182291;
   1695183700; 1986661051; 2177026350; 2456956037;
   2730485921; 2820302411; 3259730800; 3345764771;
   3516065817; 3600352804; 4094571909; 275423344;
   430227734; 506948616; 659060556; 883997877;
   958139571; 1322822218; 1537002063; 1747873779;
   1955562222; 2024104815; 2227730452; 2361852424;
   2428436474; 2756734187; 3204031479; 3329325298].

(** Initial hash value: from the square roots of the first 8 primes. *)
Definition H0 : list Z :=
  [1779033703; 3144134277; 1013904242; 2773480762;
   1359893119; 2600822924; 528734635; 1541459225].

(** The [n] low bytes of [x], most significant first. *)
Fixpoint be_bytes (n : nat) (x : Z) : list Z :=
  match n with
  | O => []
  | S n' => be_bytes n' (x / 256) ++ [x mod 256]
  end.

(** Message padding: a 1 bit, zeros, and the bit length on 64 bits, up
    to a multiple of 64 bytes. *)
Definition pad (msg : list Z) : list Z :=
  let l := Z.of_nat (length msg) in
  msg ++ [128] ++ repeat 0 (Z.to_nat ((55 - l) mod 64)) ++ be_bytes 8 (8 * l).

Fixpoint to_words (bs : list Z) : list Z :=
  match bs with
  | a :: b :: c :: d :: rest =>
      (((a * 256 + b) * 256 + c) * 256 + d) :: to_words rest
  | _ => []
  end.

Definition round (st : list Z) (k w : Z) : list Z :=
  match st with
  | [a; b; c; d; e; f; g; h] =>
      let t1 := h + Sigma1 e + Ch e f g + k + w in
      let t2 := Sigma0 a + Maj a b c in
      [w32 (t1 + t2); a; b; c; w32 (d + t1); e; f; g]
  | _ => st
  end.

(** The 64 rounds over one block; [win] holds the sixteen schedule words
    W(t) .. W(t+15) and slides by one word per round. *)
Fixpoint rounds (ks : list Z) (win : list Z) (st : list Z) : list Z :=
  match ks with
  | [] => st
  | k :: ks' =>
      let w := nth 0 win 0 in
      let wnew := w32 (sigma1 (nth 14 win 0) + nth 9 win 0
                       + sigma0 (nth 1 win 0) + w) in
      rounds ks' (tl win ++ [wnew]) (round st k w)
  end.

Definition compress (h block : list Z) : list Z :=
  zip_with (fun x y => w32 (x + y)) h (rounds K block h).

Fixpoint process (fuel : nat) (ws : list Z) (h : list Z) : list Z :=
  match fuel with
  | O => h
  | S fuel' =>
      match ws with
      | [] => h
      | _ => process fuel' (skipn 16 ws) (compress h (firstn 16 ws))
      end
  end.

(** [hashlib.sha256(msg).digest()]: 32 bytes. *)
Definition digest (msg : list Z) : list Z :=
  let ws := to_words (pad msg) in
  concat (map (be_bytes 4) (process (length ws) ws H0)).

End SHA256.

Module Base64.
Local Open Scope Z_scope.

Definition alphabet : string :=
  "ABCDEFGHIJKLMNOPQRSTUVWXYZabcdefghijklmnopqrstuvwxyz0123456789-_".

Definition sextet (v : Z) : ascii :=
  match String.get (Z.to_nat v) alphabet with
  | Some c => c
  | None => "="%char
  end.

(** [base64.urlsafe_b64encode(bs)], with its [=] padding. *)
Fixpoint urlsafe_b64encode (bs : list Z) : string :=
  match bs with
  | [] => EmptyString
  | [a] =>
      String (sextet (a / 4)) (String (sextet (a mod 4 * 16)) "==")
  | [a; b] =>
      String (sextet (a / 4))
        (String (sextet (a mod 4 * 16 + b / 16))
           (String (sextet (b mod 16 * 4)) "="))
  | a :: b :: c :: rest =>
      String (sextet (a / 4))
        (String (sextet (a mod 4 * 16 + b / 16))
           (String (sextet (b mod 16 * 4 + c / 64))
              (String (sextet (c mod 64)) (urlsafe_b64encode rest))))
  end.

End Base64.

(** [s.encode()]: the bytes of a text. *)
Definition encode (s : string) : list Z :=
  map (fun c => Z.of_N (N_of_ascii c)) (list_ascii_of_string s).

(** ** The world the programs run in

    The two JSON files under [data/], and the record of what a run did to
    the outside: each write of a file and each call of [send_email], in
    order.  The text of an e-mail is a fixed HTML template around the
    values kept in [mail]. *)

Inductive mail :=
| BuyAlert (city unsubscribe_url : string)
| Confirmation (city confirm_url current_phase : string).

Inductive event :=
| EvSaveState (state : gmap string string)
| EvSaveSubscribers (subscribers : gmap string (list string))
| EvSendEmail (to_email : string) (m : mail).

Record world := World {
  state_json : option (gmap string string);
  subscribers_json : option (gmap string (list string));
  trace : list event
}.

(** What the Resend API does with a POST: status 200, another status, or
    no answer ([requests.post] raises). *)
Inductive response := Accepted | Rejected | Failed.

(** Configuration read from the environment at start-up
    ([RESEND_API_KEY] is empty when the variable is not set), and the
    collaborators outside this repository's logic: the ACCC page ([None]
    when fetching it raises), the two HTML scrapers (regular expressions
    and BeautifulSoup over that page) and the mail service, whose answer
    may depend on all that happened before. *)
Record env := Env {
  SECRET_KEY : string;
  SITE_URL : string;
  RESEND_API_KEY : string;
  accc_page : option string;
  extract_buying_tips_v2 : string -> gmap string string;
  extract_buying_tips : string -> gmap string string;
  resend : list event -> response
}.

(** A statement either returns a value or raises; both leave a world. *)
Inductive result (A : Type) :=
| Ret (a : A)
| Raise.
Arguments Ret {A} a.
Arguments Raise {A}.

Definition M (A : Type) : Type := world -> result A * world.

Definition ret {A} (a : A) : M A := fun w => (Ret a, w).

Definition bind {A B} (m : M A) (k : A -> M B) : M B :=
  fun w =>
    match m w with
    | (Ret a, w') => k a w'
    | (Raise, w') => (Raise, w')
    end.

Notation "'let!' x ':=' m 'in' k" := (bind m (fun x => k))
  (at level 10, x pattern, m at level 200, k at level 200).
Notation "'do!' m 'in' k" := (bind m (fun _ => k))
  (at level 10, m at level 200, k at level 200).

(** [for x in l: body(x)] *)
Fixpoint for_each {A} (l : list A) (body : A -> M unit) : M unit :=
  match l with
  | [] => ret tt
  | x :: l' => do! body x in for_each l' body
  end.

(** The known cities; the three sources carry the same list. *)
Definition CITIES : list string :=
  ["sydney"; "melbourne"; "brisbane"; "adelaide"; "perth"].

(** [{city: v for city in CITIES}] *)
Definition for_all_cities {V} (v : V) : gmap string V :=
  list_to_map (map (fun city => (city, v)) CITIES).

(** [", ".join(l)] *)
Fixpoint join (sep : string) (l : list string) : string :=
  match l with
  | [] => ""
  | [x] => x
  | x :: l' => x +:+ sep +:+ join sep l'
  end.

(** ** [main.py] *)

Module Main.
Section Main.
Variable E : env.

Definition wait_phrases : list string :=
  ["decreasing"; "may decrease"; "shop around"; "high point";
   "increasing"; "around a high"].

Definition buy_phrases : list string :=
  ["lowest point"; "good time to buy"; "now is a good time";
   "around the lowest"; "at the lowest"].

Definition classify_phase (tip_text : string) : string :=
  let text := Py.lower tip_text in
  if Py.any (fun phrase => Py.contains phrase text) wait_phrases then "WAIT"
  else if Py.any (fun phrase => Py.contains phrase text) buy_phrases then "BUY"
  else "WAIT".

Definition load_state : M (gmap string string) :=
  fun w =>
    match state_json w with
    | Some state => (Ret state, w)
    | None => (Ret (for_all_cities "UNKNOWN"), w)
    end.

Definition save_state (state : gmap string string) : M unit :=
  fun w =>
    (Ret tt, World (Some state) (subscribers_json w)
               (trace w ++ [EvSaveState state])).

Definition load_subscribers : M (gmap string (list string)) :=
  fun w =>
    match subscribers_json w with
    | Some subscribers => (Ret subscribers, w)
    | None => (Ret (for_all_cities []), w)
    end.

Definition generate_token (email city action : string) : string :=
  let data := email +:+ "|" +:+ city +:+ "|" +:+ action +:+ "|" +:+ SECRET_KEY E in
  let hash_bytes := firstn 16 (SHA256.digest (encode data)) in
  Py.rstrip_char "="%char (Base64.urlsafe_b64encode hash_bytes).

Definition verify_token (email city token action : string) : bool :=
  let expected := generate_token email city action in
  String.eqb token expected.

Definition send_email (to_email : string) (m : mail) : M bool :=
  fun w =>
    let w' := World (state_json w) (subscribers_json w)
                (trace w ++ [EvSendEmail to_email m]) in
    if String.eqb (RESEND_API_KEY E) "" then (Ret true, w')
    else
      match resend E (trace w) with
      | Accepted => (Ret true, w')
      | Rejected => (Ret false, w')
      | Failed => (Raise, w')
      end.

Definition send_buy_alert (email city tip_text : string) : M bool :=
  let unsubscribe_token := generate_token email city "unsubscribe" in
  let unsubscribe_url :=
    SITE_URL E +:+ "/unsubscribe.html?email=" +:+ email +:+ "&city=" +:+ city
    +:+ "&token=" +:+ unsubscribe_token in
  send_email email (BuyAlert city unsubscribe_url).

(** The condition of [main]'s loop under which a city joins
    [transitions]: [prev == "WAIT" and phase == "BUY"]. *)
Definition shouldAlert (prev phase : string) : bool :=
  String.eqb prev "WAIT" && String.eqb phase "BUY".

(** One turn of [for city in CITIES], on [current_state] and
    [transitions]. *)
Definition classify_city (tips previous_state : gmap string string)
    (acc : gmap string string * list string) (city : string)
    : gmap string string * list string :=
  let '(current_state, transitions) := acc in
  let tip := default "" (tips !! city) in
  let phase := classify_phase tip in
  let current_state := <[city := phase]> current_state in
  let prev := default "UNKNOWN" (previous_state !! city) in
  if shouldAlert prev phase
  then (current_state, transitions ++ [city])
  else (current_state, transitions).

Definition classify_cities (tips previous_state : gmap string string)
    : gmap string string * list string :=
  fold_left (classify_city tips previous_state) CITIES (∅, []).

(** [any(tips.values())] *)
Definition any_tip (tips : gmap string string) : bool :=
  Py.any (fun kv => negb (String.eqb (snd kv) "")) (map_to_list tips).

(** The tips [main] works with, from the fetched page. *)
Definition tips_of (html : string) : gmap string string :=
  let tips := extract_buying_tips_v2 E html in
  if negb (any_tip tips) then extract_buying_tips E html else tips.

Definition dispatch (tips : gmap string string) (transitions : list string)
    : M unit :=
  let! subscribers := load_subscribers in
  for_each transitions (fun city =>
    let city_subs := default [] (subscribers !! city) in
    let tip := default "" (tips !! city) in
    for_each city_subs (fun email =>
      do! send_buy_alert email city tip in ret tt)).

(** [main()]: the exit code, or an exception that escapes. *)
Definition main : M Z :=
  match accc_page E with
  | None => ret 1%Z
  | Some html =>
      let tips := tips_of html in
      let! previous_state := load_state in
      let '(current_state, transitions) := classify_cities tips previous_state in
      do! save_state current_state in
      match transitions with
      | [] => ret 0%Z
      | _ => do! dispatch tips transitions in ret 0%Z
      end
  end.

(** *** The regex scraper

    [extract_buying_tips_v2] searches the page, ignoring case and with [.]
    matching newlines, for
    [Petrol prices in <City>.*?Buying tip.*?:(.*?)(?:This chart|Source:|$)].
    Every quantifier is lazy and the last alternative can always match at
    the end, so the match, when there is one, takes the first heading,
    the first "Buying tip" after it, the first colon after that, and
    captures up to the first terminator.  The definitions below are for a
    page of ASCII text, where the letter cases [re.IGNORECASE] identifies
    and the whitespace of [\s] and of [strip()] are those of [Py]; on
    other pages [re] also takes U+017F for an [s] and U+0130, U+0131 for
    an [i], and knows the whitespace outside ASCII. *)

(** [p] matches at the start of [s], ignoring case. *)
Definition startswith_ci (p s : string) : bool :=
  Py.startswith (Py.lower p) (Py.lower s).

(** The text after the first match of [.*?p], if there is one. *)
Fixpoint after_ci (p s : string) : option string :=
  if startswith_ci p s then Some (Py.skip (String.length p) s)
  else
    match s with
    | EmptyString => None
    | String _ s' => after_ci p s'
    end.

(** [$]: the end of the text, or just before a newline that ends it. *)
Definition at_end (s : string) : bool :=
  String.eqb s "" || String.eqb s (String "010" "").

(** [(.*?)(?:This chart|Source:|$)]: the shortest capture. *)
Fixpoint capture (s : string) : string :=
  if startswith_ci "This chart" s || startswith_ci "Source:" s || at_end s
  then ""
  else
    match s with
    | EmptyString => ""
    | String c s' => String c (capture s')
    end.

(** A [>] occurs in [s]. *)
Fixpoint has_close (s : string) : bool :=
  match s with
  | EmptyString => false
  | String c s' => Ascii.eqb c ">" || has_close s'
  end.

(** [[^>]+>] matches at the start of [s]. *)
Definition opens (s : string) : bool :=
  match s with
  | EmptyString => false
  | String c s' => negb (Ascii.eqb c ">") && has_close s'
  end.

(** [re.sub(r"<[^>]+>", " ", s)]; [in_tag] holds while the characters of a
    matched tag are being passed over. *)
Fixpoint strip_tags_from (in_tag : bool) (s : string) : string :=
  match s with
  | EmptyString => ""
  | String c s' =>
      if in_tag
      then if Ascii.eqb c ">" then strip_tags_from false s'
           else strip_tags_from true s'
      else if Ascii.eqb c "<" && opens s'
           then String " " (strip_tags_from true s')
           else String c (strip_tags_from false s')
  end.

Definition strip_tags (s : string) : string := strip_tags_from false s.

(** [re.sub(r"\s+", " ", s)] *)
Fixpoint collapse (s : string) : string :=
  match s with
  | EmptyString => ""
  | String c s' =>
      if Py.isspace c
      then match s' with
           | String d _ => if Py.isspace d then collapse s'
                           else String " " (collapse s')
           | EmptyString => " "
           end
      else String c (collapse s')
  end.

(** The tip of one city: the cleaned capture, or the empty text when the
    pattern does not match. *)
Definition extract_tip (city html : string) : string :=
  match after_ci ("Petrol prices in " +:+ Py.capitalize city) html with
  | None => ""
  | Some r1 =>
      match after_ci "Buying tip" r1 with
      | None => ""
      | Some r2 =>
          match after_ci ":" r2 with
          | None => ""
          | Some r3 => Py.strip (collapse (strip_tags (capture r3)))
          end
      end
  end.

Definition extract_buying_tips_v2 (html : string) : gmap string string :=
  fold_left (fun tips city => <[city := extract_tip city html]> tips) CITIES ∅.

End Main.
End Main.

(** ** Regular expressions, for [is_valid_email]

    Matching by derivatives decides membership in the language of an
    expression, which is what [re.match] decides for a pattern anchored at
    both ends. *)

Module Re.

Inductive re :=
| Void
| Eps
| Cls (p : ascii -> bool)
| Seq (r s : re)
| Alt (r s : re)
| Star (r : re).

Fixpoint nullable (r : re) : bool :=
  match r with
  | Void => false
  | Eps => true
  | Cls _ => false
  | Seq r s => nullable r && nullable s
  | Alt r s => nullable r || nullable s
  | Star _ => true
  end.

Definition seq (r s : re) : re :=
  match r, s with
  | Void, _ => Void
  | _, Void => Void
  | Eps, _ => s
  | _, _ => Seq r s
  end.

Definition alt (r s : re) : re :=
  match r, s with
  | Void, _ => s
  | _, Void => r
  | _, _ => Alt r s
  end.

Fixpoint deriv (c : ascii) (r : re) : re :=
  match r with
  | Void => Void
  | Eps => Void
  | Cls p => if p c then Eps else Void
  | Seq r s =>
      if nullable r then alt (seq (deriv c r) s) (deriv c s)
      else seq (deriv c r) s
  | Alt r s => alt (deriv c r) (deriv c s)
  | Star r => seq (deriv c r) (Star r)
  end.

Fixpoint fullmatch (r : re) (s : string) : bool :=
  match s with
  | EmptyString => nullable r
  | String c s' => fullmatch (deriv c r) s'
  end.

Definition Chr (c : ascii) : re := Cls (Ascii.eqb c).
Definition Plus (r : re) : re := Seq r (Star r).

(** [re.match("^" r "$", s)]: [$] matches at the end of [s] and also just
    before a newline that ends [s]. *)
Definition match_anchored (r : re) (s : string) : bool :=
  fullmatch (Seq r (Alt Eps (Chr "010"%char))) s.

End Re.

(** ** [signup.py] *)

Module Signup.
Section Signup.
Variable E : env.

Definition isalpha (c : ascii) : bool := Py.isupper c || Py.islower c.

Definition isdigit (c : ascii) : bool :=
  let n := N_of_ascii c in (48 <=? n)%N && (n <=? 57)%N.

Definition one_of (chars : string) (c : ascii) : bool :=
  existsb (Ascii.eqb c) (list_ascii_of_string chars).

(** [^[a-zA-Z0-9._%+-]+@[a-zA-Z0-9.-]+\.[a-zA-Z]{2,}$] *)
Definition pattern : Re.re :=
  Re.Seq (Re.Plus (Re.Cls (fun c => isalpha c || isdigit c || one_of "._%+-" c)))
    (Re.Seq (Re.Chr "@"%char)
       (Re.Seq (Re.Plus (Re.Cls (fun c => isalpha c || isdigit c || one_of ".-" c)))
          (Re.Seq (Re.Chr "."%char)
             (Re.Seq (Re.Cls isalpha) (Re.Plus (Re.Cls isalpha)))))).

Definition is_valid_email (email : string) : bool :=
  if negb (Re.match_anchored pattern email) then false
  else if (254 <? String.length email)%nat then false
  else true.

Definition generate_token (email city action : string) : string :=
  let data := email +:+ "|" +:+ city +:+ "|" +:+ action +:+ "|" +:+ SECRET_KEY E in
  let hash_bytes := firstn 16 (SHA256.digest (encode data)) in
  Py.rstrip_char "="%char (Base64.urlsafe_b64encode hash_bytes).

Definition load_subscribers : M (gmap string (list string)) :=
  fun w =>
    match subscribers_json w with
    | Some subscribers => (Ret subscribers, w)
    | None => (Ret (for_all_cities []), w)
    end.

Definition load_state : M (gmap string string) :=
  fun w =>
    match state_json w with
    | Some state => (Ret state, w)
    | None => (Ret ∅, w)
    end.

Definition send_email (to_email : string) (m : mail) : M bool :=
  fun w =>
    let w' := World (state_json w) (subscribers_json w)
                (trace w ++ [EvSendEmail to_email m]) in
    if String.eqb (RESEND_API_KEY E) "" then (Ret true, w')
    else
      match resend E (trace w) with
      | Accepted => (Ret true, w')
      | Rejected => (Ret false, w')
      | Failed => (Raise, w')
      end.

Definition send_confirmation_email (email city : string) : M bool :=
  let token := generate_token email city "confirm" in
  let confirm_url :=
    SITE_URL E +:+ "/confirm.html?email=" +:+ email +:+ "&city=" +:+ city
    +:+ "&token=" +:+ token in
  let! state := load_state in
  let current_phase := default "UNKNOWN" (state !! city) in
  send_email email (Confirmation city confirm_url current_phase).

Definition process_signup (email city : string) : M (bool * string) :=
  let email := Unicode.strip (Unicode.lower email) in
  let city := Unicode.strip (Unicode.lower city) in
  if negb (is_valid_email email) then ret (false, "Invalid email address")
  else if negb (Py.in_list city CITIES)
  then ret (false, "Invalid city. Choose from: " +:+ join ", " CITIES)
  else
    let! subscribers := load_subscribers in
    if Py.in_list email (default [] (subscribers !! city))
    then ret (false, "This email is already subscribed")
    else
      let! sent := send_confirmation_email email city in
      if sent then ret (true, "Check your inbox to confirm")
      else ret (false, "Failed to send confirmation email").

(** [main()] of the command line, from [sys.argv]: the exit code of the
    process ([sys.exit(1)], or 0 when the function returns). *)
Definition main (argv : list string) : M Z :=
  match argv with
  | [_; email; city] =>
      let! (success, message) := process_signup email city in
      if success then ret 0%Z else ret 1%Z
  | _ => ret 1%Z
  end.

End Signup.
End Signup.

(** ** [api/handlers.py] *)

Module Handlers.

(** What a request is answered with: a status and either a plain text or
    the HTML page around a message. *)
Inductive body :=
| Plain (text : string)
| Page (message : string).

Record http_response := Response {
  statusCode : Z;
  response_body : body
}.

Section Handlers.
Variable E : env.

Definition generate_token (email city action : string) : string :=
  let data := email +:+ "|" +:+ city +:+ "|" +:+ action +:+ "|" +:+ SECRET_KEY E in
  let hash_bytes := firstn 16 (SHA256.digest (encode data)) in
  Py.rstrip_char "="%char (Base64.urlsafe_b64encode hash_bytes).

Definition verify_token (email city token action : string) : bool :=
  let expected := generate_token email city action in
  String.eqb token expected.

Definition load_subscribers : M (gmap string (list string)) :=
  fun w =>
    match subscribers_json w with
    | Some subscribers => (Ret subscribers, w)
    | None => (Ret (for_all_cities []), w)
    end.

Definition save_subscribers (subscribers : gmap string (list string)) : M unit :=
  fun w =>
    (Ret tt, World (state_json w) (Some subscribers)
               (trace w ++ [EvSaveSubscribers subscribers])).

Definition confirm_subscription (email city token : string) : M (bool * string) :=
  let email := Unicode.strip (Unicode.lower email) in
  let city := Unicode.strip (Unicode.lower city) in
  if negb (Py.in_list city CITIES) then ret (false, "Invalid city")
  else if negb (verify_token email city token "confirm")
  then ret (false, "Invalid or expired confirmation link")
  else
    let! subscribers := load_subscribers in
    if Py.in_list email (default [] (subscribers !! city))
    then ret (true, "You're already subscribed")
    else
      (* if city not in subscribers: subscribers[city] = [] *)
      let subscribers :=
        match subscribers !! city with
        | None => <[city := []]> subscribers
        | Some _ => subscribers
        end in
      (* subscribers[city].append(email) *)
      let subscribers :=
        <[city := default [] (subscribers !! city) ++ [email]]> subscribers in
      do! save_subscribers subscribers in
      ret (true, "You're subscribed! You'll only hear from us when prices hit bottom.").

Definition unsubscribe (email city token : string) : M (bool * string) :=
  let email := Unicode.strip (Unicode.lower email) in
  let city := Unicode.strip (Unicode.lower city) in
  if negb (Py.in_list city CITIES) then ret (false, "Invalid city")
  else if negb (verify_token email city token "unsubscribe")
  then ret (false, "Invalid unsubscribe link")
  else
    let! subscribers := load_subscribers in
    match subscribers !! city with
    | Some city_subs =>
        if Py.in_list email city_subs
        then
          let subscribers := <[city := Py.remove email city_subs]> subscribers in
          do! save_subscribers subscribers in
          ret (true, "You've been unsubscribed")
        else ret (true, "You weren't subscribed")
    | None => ret (true, "You weren't subscribed")
    end.

(** [params.get(key, [""])[0]] on the dictionary [parse_qs] returns:
    the first value of [key], the empty string when the key is absent;
    [None] is the [IndexError] of an empty list. *)
Definition first_value (params : gmap string (list string)) (key : string)
    : option string :=
  match default [""] (params !! key) with
  | v :: _ => Some v
  | [] => None
  end.

Definition get_first (params : gmap string (list string)) (key : string) : M string :=
  fun w =>
    match first_value params key with
    | Some v => (Ret v, w)
    | None => (Raise, w)
    end.

(** [handler(request)], from the query parameters of [request.url] as
    [urlparse] and [parse_qs] give them. *)
Definition handler (params : gmap string (list string)) : M http_response :=
  let! action := get_first params "action" in
  let! email := get_first params "email" in
  let! city := get_first params "city" in
  let! token := get_first params "token" in
  if negb (forallb (fun v => negb (String.eqb v "")) [action; email; city; token])
  then ret (Response 400 (Plain "Missing parameters"))
  else if String.eqb action "confirm"
  then
    let! (success, message) := confirm_subscription email city token in
    ret (Response 200 (Page message))
  else if String.eqb action "unsubscribe"
  then
    let! (success, message) := unsubscribe email city token in
    ret (Response 200 (Page message))
  else ret (Response 400 (Plain "Invalid action")).

(** The two routes of [create_flask_app], from [request.args]; each
    answers with a page around the message. *)
Definition confirm_route (args : gmap string string) : M http_response :=
  let email := default "" (args !! "email") in
  let city := default "" (args !! "city") in
  let token := default "" (args !! "token") in
  let! (success, message) := confirm_subscription email city token in
  ret (Response 200 (Page message)).

Definition unsubscribe_route (args : gmap string string) : M http_response :=
  let email := default "" (args !! "email") in
  let city := default "" (args !! "city") in
  let token := default "" (args !! "token") in
  let! (success, message) := unsubscribe email city token in
  ret (Response 200 (Page message)).

End Handlers.
End Handlers.

(** ** Sequences of subscription actions *)

Inductive action :=
| Signup (email city : string)
| Confirm (email city token : string)
| Unsubscribe (email city token : string).

Definition perform (E : env) (a : action) : M (bool * string) :=
  match a with
  | Signup email city => Signup.process_signup E email city
  | Confirm email city token => Handlers.confirm_subscription E email city token
  | Unsubscribe email city token => Handlers.unsubscribe E email city token
  end.

(** The worlds passed through by a sequence of actions, the starting one
    left out. *)
Fixpoint worlds_after (E : env) (actions : list action) (w : world) : list world :=
  match actions with
  | [] => []
  | a :: rest => let w' := snd (perform E a w) in w' :: worlds_after E rest w'
  end.

(** The registry as every program reads it. *)
Definition registry (w : world) : gmap string (list string) :=
  match subscribers_json w with
  | Some subscribers => subscribers
  | None => for_all_cities []
  end.


Example classify_sydney :
  Main.classify_phase "prices appear to be around the lowest point of the cycle now is a good time for motorists to buy petrol" = "BUY".
Proof. reflexivity. Qed.

Example classify_perth :
  Main.classify_phase "prices are decreasing and may decrease further motorists looking to buy petrol can shop around for the lowest prices" = "WAIT".
Proof. reflexivity. Qed.

Example sha256_abc :
  SHA256.digest (encode "abc") =
  [186; 120; 22; 191; 143; 1; 207; 234; 65; 65; 64; 222; 93; 174; 34; 35;
   176; 3; 97; 163; 150; 23; 122; 156; 180; 16; 255; 97; 242; 0; 21; 173]%Z.
Proof. vm_compute. reflexivity. Qed.

Example emails :
  map Signup.is_valid_email ["a@b.co"; "a@b.c"; "a@b..co"; "a@@b.co"; "a@.co"; "a@b.c-o"; "A@B.CO"; ".@-.aa"; "not-an-email"]
  = [true; false; true; false; false; false; true; true; false]
  /\ Signup.is_valid_email (String "a" (String "@" (String "b" (String "." (String "c" (String "o" (String "010" ""))))))) = true
  /\ Signup.is_valid_email (String "a" (String "@" (String "b" (String "." (String "c" (String "o" (String "010" (String "010" "")))))))) = false.
Proof. vm_compute. auto. Qed.

(** * Properties *)

(** ** Strings *)

#[local] Arguments String.append !_ _ / : simpl nomatch.

Section StringFacts.

Lemma append_assoc (a b c : string) : (a +:+ b) +:+ c = a +:+ (b +:+ c).
Proof. induction a as [|x a IH]; [reflexivity | simpl; f_equal; exact IH]. Qed.

Lemma append_nil_r (a : string) : a +:+ "" = a.
Proof. induction a as [|x a IH]; [reflexivity | simpl; f_equal; exact IH]. Qed.

Lemma startswith_spec (p s : string) :
  Py.startswith p s = true <-> exists post, s = p +:+ post.
Proof.
  revert s. induction p as [|a p IH]; intros s; simpl.
  - split; [intros _; now exists s | reflexivity].
  - destruct s as [|b s].
    + split; [discriminate | intros [post H]; discriminate].
    + rewrite andb_true_iff, Ascii.eqb_eq, IH. split.
      * intros [-> [post ->]]. now exists post.
      * intros [post H]. injection H as -> ->. split; [reflexivity | now exists post].
Qed.

Lemma contains_spec (p s : string) :
  Py.contains p s = true <-> exists pre post, s = pre +:+ p +:+ post.
Proof.
  induction s as [|b s IH]; simpl.
  - rewrite orb_false_r, startswith_spec. split.
    + intros [post H]. now exists "", post.
    + intros [pre [post H]]. destruct pre; [now exists post | discriminate].
  - rewrite orb_true_iff, startswith_spec, IH. split.
    + intros [[post H] | [pre [post H]]].
      * now exists "", post.
      * exists (String b pre), post. simpl. now rewrite H.
    + intros [pre [post H]]. destruct pre as [|x pre]; simpl in H.
      * left. now exists post.
      * right. injection H as -> ->. now exists pre, post.
Qed.

Lemma in_list_spec (x : string) (l : list string) :
  Py.in_list x l = true <-> x ∈ l.
Proof.
  unfold Py.in_list. rewrite existsb_exists, list_elem_of_In. split.
  - intros [y [Hy Heq]]. apply String.eqb_eq in Heq. now subst.
  - intros H. exists x. split; [assumption | apply String.eqb_refl].
Qed.


Lemma lower_char_idem (c : ascii) : Py.lower_char (Py.lower_char c) = Py.lower_char c.
Proof. destruct c as [[] [] [] [] [] [] [] []]; reflexivity. Qed.

Lemma lower_upper_char (c : ascii) : Py.lower_char (Py.upper_char c) = Py.lower_char c.
Proof. destruct c as [[] [] [] [] [] [] [] []]; reflexivity. Qed.

Lemma lower_idem (s : string) : Py.lower (Py.lower s) = Py.lower s.
Proof. induction s as [|c s IH]; simpl; [reflexivity | now rewrite lower_char_idem, IH]. Qed.

Lemma lower_upper (s : string) : Py.lower (Py.upper s) = Py.lower s.
Proof. induction s as [|c s IH]; simpl; [reflexivity | now rewrite lower_upper_char, IH]. Qed.

End StringFacts.

(** ** Characters and normal forms *)

(** A character's sequence: one byte and continuation bytes after it. *)
Definition chunk (p : string) : bool :=
  match p with
  | String _ t => Unicode.all_continuation t
  | EmptyString => false
  end.

(** It begins with a byte that starts a character. *)
Definition starts (p : string) : bool :=
  match p with
  | String a _ => negb (Unicode.continuation a)
  | EmptyString => false
  end.

Definition good (p : string) : bool := chunk p && starts p.

(** A list of sequences that is the list of characters of its text: only
    the first may begin with a continuation byte. *)
Definition segmented (ps : list string) : Prop :=
  match ps with
  | [] => True
  | p :: rest => chunk p = true /\ Forall (fun q => good q = true) rest
  end.

(** A character that [lower] leaves as it is, wherever it stands. *)
Definition stable (p : string) : bool :=
  let n := Unicode.codepoint p in
  negb (n =? 931)%N && negb (n =? 304)%N
  && match Unicode.assoc Unicode.lower_table n with
     | None => true
     | Some _ => false
     end.

Section UnicodeFacts.

Lemma points_cons (c d : ascii) (s : string) :
  Unicode.points (String c (String d s))
  = if Unicode.continuation d
    then match Unicode.points (String d s) with
         | p :: ps => String c p :: ps
         | [] => [String c ""]
         end
    else String c "" :: Unicode.points (String d s).
Proof. reflexivity. Qed.

Lemma text_points (s : string) : Unicode.text (Unicode.points s) = s.
Proof.
  induction s as [|c s IH]; [reflexivity |].
  destruct s as [|d s']; [reflexivity |]. rewrite points_cons.
  destruct (Unicode.continuation d).
  - destruct (Unicode.points (String d s')) as [|p ps]; [discriminate IH |].
    cbn [Unicode.text] in *. rewrite <- IH. reflexivity.
  - cbn [Unicode.text]. rewrite IH. reflexivity.
Qed.

Lemma points_spec (d : ascii) (s : string) :
  exists t ps,
    Unicode.points (String d s) = String d t :: ps
    /\ Unicode.all_continuation t = true
    /\ Forall (fun q => good q = true) ps.
Proof.
  revert d. induction s as [|c s IH]; intros d.
  - exists "", []. repeat split. constructor.
  - destruct (IH c) as (t & ps & Hp & Ht & Hps).
    rewrite points_cons, Hp.
    destruct (Unicode.continuation c) eqn:Hc.
    + exists (String c t), ps. repeat split; [| exact Hps].
      cbn. now rewrite Hc, Ht.
    + exists "", (String c t :: ps). repeat split.
      constructor; [| exact Hps].
      unfold good, chunk, starts. now rewrite Ht, Hc.
Qed.

Lemma points_segmented (s : string) : segmented (Unicode.points s).
Proof.
  destruct s as [|d s]; [exact I |].
  destruct (points_spec d s) as (t & ps & -> & Ht & Hps). now split.
Qed.

Lemma points_app_chunk (a : ascii) (t r : string) :
  Unicode.all_continuation t = true ->
  starts r = true \/ r = "" ->
  Unicode.points (String a t +:+ r) = String a t :: Unicode.points r.
Proof.
  revert a. induction t as [|b t IH]; intros a Ht Hr.
  - change (String a "" +:+ r) with (String a r).
    destruct r as [|d r']; [reflexivity |].
    destruct Hr as [Hr | Hr]; [| discriminate].
    cbn in Hr. apply negb_true_iff in Hr. now rewrite points_cons, Hr.
  - cbn in Ht. apply andb_true_iff in Ht as [Hb Ht].
    specialize (IH b Ht Hr).
    change (String a (String b t) +:+ r) with (String a (String b (t +:+ r))).
    change (String b t +:+ r) with (String b (t +:+ r)) in IH.
    now rewrite points_cons, Hb, IH.
Qed.

Lemma good_segmented (ps : list string) :
  Forall (fun q => good q = true) ps -> segmented ps.
Proof.
  destruct 1 as [|p ps Hp Hps]; [exact I |]. split; [| exact Hps].
  unfold good in Hp. now apply andb_true_iff in Hp as [Hp _].
Qed.

Lemma points_text (ps : list string) :
  segmented ps -> Unicode.points (Unicode.text ps) = ps.
Proof.
  induction ps as [|p ps IH]; [reflexivity |]. intros [Hp Hps].
  destruct p as [|a t]; [discriminate Hp |]. cbn [Unicode.text].
  rewrite points_app_chunk; [| exact Hp |].
  - now rewrite IH by now apply good_segmented.
  - destruct Hps as [|q qs Hq _]; [now right | left].
    unfold good in Hq. apply andb_true_iff in Hq as [_ Hq].
    destruct q as [|d u]; [discriminate Hq |]. exact Hq.
Qed.

(** *** Lower-casing *)

Lemma assoc_in (table : list (N * N)) (n m : N) :
  Unicode.assoc table n = Some m -> In (n, m) table.
Proof.
  induction table as [|[k v] table IH]; simpl; [discriminate |].
  destruct (N.eqb_spec k n) as [-> | _].
  - intros [= ->]. now left.
  - intros H. right. now apply IH.
Qed.

Lemma lower_table_checked :
  forallb (fun kv => stable (Unicode.utf8 (snd kv)) && good (Unicode.utf8 (snd kv)))
    Unicode.lower_table = true.
Proof. vm_compute. reflexivity. Qed.

Lemma lower_table_out (n m : N) :
  Unicode.assoc Unicode.lower_table n = Some m ->
  stable (Unicode.utf8 m) = true /\ good (Unicode.utf8 m) = true.
Proof.
  intros H. apply assoc_in in H.
  pose proof lower_table_checked as Hall. rewrite forallb_forall in Hall.
  specialize (Hall _ H). now apply andb_true_iff in Hall.
Qed.

Lemma codepoint_stray (p : string) :
  starts p = false -> Unicode.codepoint p = Unicode.no_point.
Proof.
  destruct p as [|a t]; [reflexivity |]. cbn [starts]. intros H.
  apply negb_false_iff in H. unfold Unicode.continuation in H.
  apply andb_true_iff in H as [H1 H2].
  apply N.leb_le in H1. apply N.ltb_lt in H2.
  unfold Unicode.codepoint. cbn [list_ascii_of_string map].
  assert ((N_of_ascii a <? 128)%N = false) as E1 by (apply N.ltb_ge; lia).
  assert ((194 <=? N_of_ascii a)%N = false) as E2 by (apply N.leb_gt; lia).
  assert ((224 <=? N_of_ascii a)%N = false) as E3 by (apply N.leb_gt; lia).
  assert ((240 <=? N_of_ascii a)%N = false) as E4 by (apply N.leb_gt; lia).
  destruct t as [|b [|c [|d [|e t]]]]; cbn [list_ascii_of_string map]; cbv zeta;
    rewrite ?E1, ?E2, ?E3, ?E4; reflexivity.
Qed.

Lemma lower_point_id (before after : list string) (p : string) :
  stable p = true -> Unicode.lower_point before after p = [p].
Proof.
  unfold stable, Unicode.lower_point. cbv zeta.
  destruct (Unicode.codepoint p =? 931)%N; [discriminate |].
  destruct (Unicode.codepoint p =? 304)%N; [discriminate |].
  now destruct (Unicode.assoc Unicode.lower_table (Unicode.codepoint p)).
Qed.

Lemma lower_point_stray (before after : list string) (p : string) :
  starts p = false -> Unicode.lower_point before after p = [p].
Proof.
  intros H. apply lower_point_id. unfold stable.
  now rewrite (codepoint_stray p H).
Qed.

Lemma lower_point_out (before after : list string) (p : string) :
  Forall (fun q => stable q = true) (Unicode.lower_point before after p)
  /\ (good p = true ->
      Forall (fun q => good q = true) (Unicode.lower_point before after p)).
Proof.
  unfold Unicode.lower_point. cbv zeta.
  destruct (Unicode.codepoint p =? 931)%N eqn:Hsigma.
  { destruct (Unicode.final_sigma before after); split; repeat constructor. }
  destruct (Unicode.codepoint p =? 304)%N eqn:Hdot.
  { split; repeat constructor. }
  destruct (Unicode.assoc Unicode.lower_table (Unicode.codepoint p)) as [m|] eqn:Hm.
  - destruct (lower_table_out _ _ Hm). split; repeat constructor; assumption.
  - split; [| now repeat constructor]. repeat constructor.
    unfold stable. now rewrite Hsigma, Hdot, Hm.
Qed.

Lemma lower_points_stable (before ps : list string) :
  Forall (fun q => stable q = true) (Unicode.lower_points before ps).
Proof.
  revert before. induction ps as [|p ps IH]; intros before; simpl; [constructor |].
  apply Forall_app. split; [apply lower_point_out | apply IH].
Qed.

Lemma lower_points_good (before ps : list string) :
  Forall (fun q => good q = true) ps ->
  Forall (fun q => good q = true) (Unicode.lower_points before ps).
Proof.
  revert before. induction ps as [|p ps IH]; intros before Hps; simpl; [constructor |].
  apply Forall_cons in Hps as [Hp Hps].
  apply Forall_app. split; [now apply lower_point_out | now apply IH].
Qed.

Lemma lower_points_segmented (before ps : list string) :
  segmented ps -> segmented (Unicode.lower_points before ps).
Proof.
  destruct ps as [|p ps]; [exact id |]. intros [Hp Hps]. cbn [Unicode.lower_points].
  pose proof (lower_points_good (p :: before) ps Hps) as Hrest.
  destruct (starts p) eqn:Hs.
  - apply good_segmented, Forall_app. split; [| exact Hrest].
    apply lower_point_out. unfold good. now rewrite Hp, Hs.
  - rewrite lower_point_stray by exact Hs. now split.
Qed.

Lemma lower_points_id (before ps : list string) :
  Forall (fun q => stable q = true) ps -> Unicode.lower_points before ps = ps.
Proof.
  revert before. induction ps as [|p ps IH]; intros before Hps; simpl; [reflexivity |].
  apply Forall_cons in Hps as [Hp Hps].
  now rewrite lower_point_id, IH.
Qed.

(** *** Trimming *)

Lemma lstrip_points_forall (P : string -> Prop) (ps : list string) :
  Forall P ps -> Forall P (Unicode.lstrip_points ps).
Proof.
  induction 1 as [|p ps Hp Hps IH]; simpl; [constructor |].
  destruct (Unicode.is_space p); [exact IH | now constructor].
Qed.

Lemma rstrip_points_forall (P : string -> Prop) (ps : list string) :
  Forall P ps -> Forall P (Unicode.rstrip_points ps).
Proof.
  induction 1 as [|p ps Hp Hps IH]; simpl; [constructor |].
  destruct (Unicode.rstrip_points ps).
  - destruct (Unicode.is_space p); repeat constructor; exact Hp.
  - now constructor.
Qed.

Lemma lstrip_points_segmented (ps : list string) :
  segmented ps -> segmented (Unicode.lstrip_points ps).
Proof.
  destruct ps as [|p ps]; [exact id |]. intros [Hp Hps]. simpl.
  destruct (Unicode.is_space p); [| now split].
  now apply good_segmented, lstrip_points_forall.
Qed.

Lemma rstrip_points_segmented (ps : list string) :
  segmented ps -> segmented (Unicode.rstrip_points ps).
Proof.
  destruct ps as [|p ps]; [exact id |]. intros [Hp Hps]. simpl.
  pose proof (rstrip_points_forall _ ps Hps) as Hr.
  destruct (Unicode.rstrip_points ps).
  - destruct (Unicode.is_space p); [exact I | now split].
  - now split.
Qed.

Definition no_leading_space_point (ps : list string) : Prop :=
  match ps with
  | [] => True
  | p :: _ => Unicode.is_space p = false
  end.

Lemma lstrip_points_no_leading (ps : list string) :
  no_leading_space_point (Unicode.lstrip_points ps).
Proof.
  induction ps as [|p ps IH]; simpl; [exact I |].
  destruct (Unicode.is_space p) eqn:Hp; [exact IH | exact Hp].
Qed.

Lemma lstrip_points_id (ps : list string) :
  no_leading_space_point ps -> Unicode.lstrip_points ps = ps.
Proof. destruct ps as [|p ps]; simpl; [reflexivity | now intros ->]. Qed.

Lemma rstrip_points_no_leading (ps : list string) :
  no_leading_space_point ps -> no_leading_space_point (Unicode.rstrip_points ps).
Proof.
  destruct ps as [|p ps]; simpl; [exact id |]. intros Hp.
  destruct (Unicode.rstrip_points ps); [rewrite Hp |]; exact Hp.
Qed.

Lemma rstrip_points_idem (ps : list string) :
  Unicode.rstrip_points (Unicode.rstrip_points ps) = Unicode.rstrip_points ps.
Proof.
  induction ps as [|p ps IH]; simpl; [reflexivity |].
  destruct (Unicode.rstrip_points ps) as [|q r] eqn:Hr.
  - destruct (Unicode.is_space p) eqn:Hp; simpl; [reflexivity | now rewrite Hp].
  - cbn [Unicode.rstrip_points]. fold Unicode.rstrip_points.
    cbn [Unicode.rstrip_points] in IH. now rewrite IH.
Qed.

Lemma strip_points_idem (ps : list string) :
  Unicode.rstrip_points (Unicode.lstrip_points
    (Unicode.rstrip_points (Unicode.lstrip_points ps)))
  = Unicode.rstrip_points (Unicode.lstrip_points ps).
Proof.
  rewrite (lstrip_points_id (Unicode.rstrip_points (Unicode.lstrip_points ps))).
  - apply rstrip_points_idem.
  - apply rstrip_points_no_leading, lstrip_points_no_leading.
Qed.

(** *** The two methods *)

Lemma strip_text (ps : list string) :
  segmented ps ->
  Unicode.strip (Unicode.text ps)
  = Unicode.text (Unicode.rstrip_points (Unicode.lstrip_points ps)).
Proof. intros H. unfold Unicode.strip. now rewrite points_text. Qed.

Lemma lower_text (ps : list string) :
  segmented ps -> Forall (fun q => stable q = true) ps ->
  Unicode.lower (Unicode.text ps) = Unicode.text ps.
Proof.
  intros Hseg Hst. unfold Unicode.lower. now rewrite points_text, lower_points_id.
Qed.

(** Trimming twice is trimming once. *)
Lemma unicode_strip_idem (s : string) :
  Unicode.strip (Unicode.strip s) = Unicode.strip s.
Proof.
  unfold Unicode.strip at 2 3. rewrite strip_text.
  - now rewrite strip_points_idem.
  - apply rstrip_points_segmented, lstrip_points_segmented, points_segmented.
Qed.

(** What is left of a lower-cased text after trimming is lower-cased. *)
Lemma unicode_lower_strip_lower (s : string) :
  Unicode.lower (Unicode.strip (Unicode.lower s)) = Unicode.strip (Unicode.lower s).
Proof.
  unfold Unicode.lower at 2 3.
  set (L := Unicode.lower_points [] (Unicode.points s)).
  assert (segmented L) as Hseg by apply lower_points_segmented, points_segmented.
  assert (Forall (fun q => stable q = true) L) as Hst by apply lower_points_stable.
  rewrite strip_text by exact Hseg. apply lower_text.
  - now apply rstrip_points_segmented, lstrip_points_segmented.
  - now apply rstrip_points_forall, lstrip_points_forall.
Qed.

End UnicodeFacts.

(** *** On ASCII text the two methods are those of [Py] *)

(** The characters of an ASCII text: its bytes. *)
Definition singles (s : string) : list string :=
  map (fun c => String c "") (list_ascii_of_string s).

Section AsciiFacts.

Lemma ascii_starts (c : ascii) :
  Py.isascii_char c = true -> Unicode.continuation c = false.
Proof.
  unfold Py.isascii_char, Unicode.continuation. intros H.
  apply N.ltb_lt in H. apply andb_false_iff. left. apply N.leb_gt. lia.
Qed.

Lemma points_ascii (s : string) :
  Py.isascii s = true -> Unicode.points s = singles s.
Proof.
  induction s as [|c s IH]; [reflexivity |]. cbn [Py.isascii].
  intros H. apply andb_true_iff in H as [_ Hs]. specialize (IH Hs).
  destruct s as [|d s']; [reflexivity |]. rewrite points_cons, IH.
  cbn [Py.isascii] in Hs. apply andb_true_iff in Hs as [Hd _].
  now rewrite (ascii_starts d Hd).
Qed.

Lemma text_singles (s : string) : Unicode.text (singles s) = s.
Proof.
  induction s as [|c s IH]; [reflexivity |].
  cbn [singles list_ascii_of_string map Unicode.text]. fold (singles s).
  now rewrite IH.
Qed.

Lemma lower_point_ascii (before after : list string) (c : ascii) :
  Py.isascii_char c = true ->
  Unicode.lower_point before after (String c "") = [String (Py.lower_char c) ""].
Proof.
  intros H. destruct c as [[] [] [] [] [] [] [] []];
    vm_compute in H; try discriminate H; vm_compute; reflexivity.
Qed.

Lemma is_space_ascii (c : ascii) :
  Py.isascii_char c = true -> Unicode.is_space (String c "") = Py.isspace c.
Proof.
  intros H. destruct c as [[] [] [] [] [] [] [] []];
    vm_compute in H; try discriminate H; vm_compute; reflexivity.
Qed.

Lemma lower_points_ascii (before : list string) (s : string) :
  Py.isascii s = true ->
  Unicode.lower_points before (singles s) = singles (Py.lower s).
Proof.
  revert before. induction s as [|c s IH]; intros before; [reflexivity |].
  cbn [Py.isascii]. intros H. apply andb_true_iff in H as [Hc Hs].
  cbn [singles list_ascii_of_string map Unicode.lower_points Py.lower].
  rewrite (lower_point_ascii _ _ c Hc). cbn [app]. f_equal. now apply IH.
Qed.

(** [s.lower()] on ASCII text *)
Lemma lower_ascii (s : string) :
  Py.isascii s = true -> Unicode.lower s = Py.lower s.
Proof.
  intros H. unfold Unicode.lower.
  rewrite points_ascii, lower_points_ascii by exact H. apply text_singles.
Qed.

Lemma lstrip_ascii (s : string) :
  Py.isascii s = true ->
  Unicode.lstrip_points (singles s) = singles (Py.lstrip s).
Proof.
  induction s as [|c s IH]; [reflexivity |].
  cbn [Py.isascii]. intros H. apply andb_true_iff in H as [Hc Hs].
  cbn [singles list_ascii_of_string map Unicode.lstrip_points Py.lstrip].
  rewrite (is_space_ascii c Hc). destruct (Py.isspace c); [now apply IH | reflexivity].
Qed.

Lemma rstrip_ascii (s : string) :
  Py.isascii s = true ->
  Unicode.rstrip_points (singles s) = singles (Py.rstrip s).
Proof.
  induction s as [|c s IH]; [reflexivity |].
  cbn [Py.isascii]. intros H. apply andb_true_iff in H as [Hc Hs].
  cbn [singles list_ascii_of_string map Unicode.rstrip_points Py.rstrip].
  fold (singles s). rewrite (IH Hs), (is_space_ascii c Hc).
  destruct (Py.rstrip s); [now destruct (Py.isspace c) | reflexivity].
Qed.

Lemma isascii_lstrip (s : string) :
  Py.isascii s = true -> Py.isascii (Py.lstrip s) = true.
Proof.
  induction s as [|c s IH]; [reflexivity |]. cbn [Py.isascii Py.lstrip].
  intros H. destruct (Py.isspace c); [| exact H].
  apply andb_true_iff in H as [_ Hs]. now apply IH.
Qed.

(** [s.strip()] on ASCII text *)
Lemma strip_ascii (s : string) :
  Py.isascii s = true -> Unicode.strip s = Py.strip s.
Proof.
  intros H. unfold Unicode.strip, Py.strip.
  rewrite points_ascii, lstrip_ascii by exact H.
  rewrite rstrip_ascii by now apply isascii_lstrip.
  apply text_singles.
Qed.

End AsciiFacts.

(** ** The classifier *)

(** [p] occurs in [s] as a contiguous substring. *)
Definition occurs (p s : string) : Prop := exists pre post, s = pre +:+ p +:+ post.

(** The WAIT signals the classifier looks for. *)
Definition wait_signal (t : string) : Prop :=
  occurs "decreasing" t \/ occurs "may decrease" t \/ occurs "shop around" t
  \/ occurs "high point" t \/ occurs "increasing" t \/ occurs "around a high" t.

(** The BUY signals. *)
Definition buy_signal (t : string) : Prop :=
  occurs "lowest point" t \/ occurs "good time to buy" t
  \/ occurs "now is a good time" t \/ occurs "around the lowest" t
  \/ occurs "at the lowest" t.

(** The classifier as the specification words it: the WAIT phrases are
    the six it quotes. *)
Definition quoted_wait_phrases : list string :=
  ["prices decreasing"; "may decrease further"; "shop around"; "high point";
   "increasing"; "around a high"].

Definition classify_as_quoted (tip_text : string) : string :=
  let text := Py.lower tip_text in
  if Py.any (fun phrase => Py.contains phrase text) quoted_wait_phrases then "WAIT"
  else if Py.any (fun phrase => Py.contains phrase text) Main.buy_phrases then "BUY"
  else "WAIT".

Lemma any_wait_signal (t : string) :
  Py.any (fun phrase => Py.contains phrase t) Main.wait_phrases = true <-> wait_signal t.
Proof.
  unfold Main.wait_phrases, wait_signal, occurs, Py.any. cbn [existsb].
  rewrite orb_false_r, !orb_true_iff, !contains_spec. tauto.
Qed.

Lemma any_buy_signal (t : string) :
  Py.any (fun phrase => Py.contains phrase t) Main.buy_phrases = true <-> buy_signal t.
Proof.
  unfold Main.buy_phrases, buy_signal, occurs, Py.any. cbn [existsb].
  rewrite orb_false_r, !orb_true_iff, !contains_spec. tauto.
Qed.

Lemma classify_phase_lower (s t : string) :
  Py.lower s = Py.lower t -> Main.classify_phase s = Main.classify_phase t.
Proof. intros H. unfold Main.classify_phase. now rewrite H. Qed.

(** C1, as stated, fails: a text with "decreasing" that has none of the
    six quoted WAIT phrases but has a BUY phrase is classified WAIT, where
    the claim says BUY. *)
Lemma classify_quoted_phrases_counterexample :
  classify_as_quoted "prices are decreasing towards the lowest point" = "BUY"
  /\ Main.classify_phase "prices are decreasing towards the lowest point" = "WAIT".
Proof. split; reflexivity. Qed.

(** C1 (amended): [classify_phase] looks at the lower-cased text only.  It
    returns WAIT when one of "decreasing", "may decrease", "shop around",
    "high point", "increasing", "around a high" occurs in it, whether or
    not a BUY phrase occurs too; otherwise BUY when one of "lowest point",
    "good time to buy", "now is a good time", "around the lowest",
    "at the lowest" occurs; otherwise WAIT, so also on the empty text.  It
    never returns UNKNOWN, and texts that differ in letter case only are
    classified alike. *)
Theorem classify_phase_amended (text : string) :
  let t := Py.lower text in
  ((wait_signal t /\ Main.classify_phase text = "WAIT")
   \/ (~ wait_signal t /\ buy_signal t /\ Main.classify_phase text = "BUY")
   \/ (~ wait_signal t /\ ~ buy_signal t /\ Main.classify_phase text = "WAIT"))
  /\ Main.classify_phase "" = "WAIT"
  /\ Main.classify_phase text <> "UNKNOWN"
  /\ Main.classify_phase (Py.upper text) = Main.classify_phase text
  /\ Main.classify_phase (Py.lower text) = Main.classify_phase text
  /\ (forall text', Py.lower text' = Py.lower text ->
        Main.classify_phase text' = Main.classify_phase text).
Proof.
  intros t. split; [| split; [reflexivity | split; [| split; [| split]]]].
  - unfold Main.classify_phase. fold t.
    destruct (Py.any _ Main.wait_phrases) eqn:Hw.
    + left. split; [now apply any_wait_signal | reflexivity].
    + assert (~ wait_signal t) as Hnw
        by (intros H; apply any_wait_signal in H; congruence).
      destruct (Py.any _ Main.buy_phrases) eqn:Hb.
      * right; left. repeat split; [assumption | now apply any_buy_signal].
      * right; right. repeat split; [assumption |].
        intros H; apply any_buy_signal in H; congruence.
  - unfold Main.classify_phase.
    destruct (Py.any _ Main.wait_phrases); [discriminate |].
    destruct (Py.any _ Main.buy_phrases); discriminate.
  - apply classify_phase_lower, lower_upper.
  - apply classify_phase_lower, lower_idem.
  - intros text'. apply classify_phase_lower.
Qed.

(** ** The transition rule and the scheduled run *)

Section RunFacts.
Variables tips previous_state : gmap string string.

(** What one city contributes: its new phase, and whether it alerts. *)
Definition phase_of (city : string) : string :=
  Main.classify_phase (default "" (tips !! city)).

Definition alerts (city : string) : bool :=
  Main.shouldAlert (default "UNKNOWN" (previous_state !! city)) (phase_of city).

Lemma classify_cities_fold (l : list string) (cs : gmap string string) (tr : list string) :
  fold_left (Main.classify_city tips previous_state) l (cs, tr)
  = (fold_left (fun m city => <[city := phase_of city]> m) l cs,
     tr ++ List.filter alerts l).
Proof.
  revert cs tr. induction l as [|city l IH]; intros cs tr; simpl.
  - now rewrite app_nil_r.
  - fold (phase_of city). fold (alerts city).
    destruct (alerts city); rewrite IH; [| reflexivity].
    now rewrite <- app_assoc.
Qed.

Lemma fold_insert_lookup (l : list string) (cs : gmap string string) (city : string) :
  fold_left (fun m c => <[c := phase_of c]> m) l cs !! city
  = if Py.in_list city l then Some (phase_of city) else cs !! city.
Proof.
  revert cs. induction l as [|c l IH]; intros cs; simpl; [reflexivity |].
  rewrite IH. destruct (Py.in_list city l) eqn:Hin.
  - now rewrite orb_true_r.
  - rewrite orb_false_r. destruct (String.eqb city c) eqn:Heq.
    + apply String.eqb_eq in Heq. subst. apply lookup_insert_eq.
    + apply String.eqb_neq in Heq. apply lookup_insert_ne. congruence.
Qed.

Lemma transitions_spec (city : string) :
  city ∈ snd (Main.classify_cities tips previous_state)
  <-> city ∈ CITIES /\ alerts city = true.
Proof.
  unfold Main.classify_cities. rewrite classify_cities_fold. cbn [snd app].
  now rewrite !list_elem_of_In, filter_In.
Qed.

Lemma current_state_spec (city : string) :
  fst (Main.classify_cities tips previous_state) !! city
  = if Py.in_list city CITIES then Some (phase_of city) else None.
Proof.
  unfold Main.classify_cities. rewrite classify_cities_fold. cbn [fst].
  rewrite fold_insert_lookup. now rewrite lookup_empty.
Qed.

End RunFacts.

(** C2: the transition rule fires exactly for the pair (WAIT, BUY), so not
    for (UNKNOWN, BUY), (BUY, BUY) or anything ending in WAIT; and it is
    the condition under which the loop of [main] appends a city to
    [transitions]: the cities appended are the known cities whose previous
    phase (UNKNOWN when the state has none) and new phase satisfy it. *)
Theorem shouldAlert_exactly_wait_to_buy :
  (forall p c : string, Main.shouldAlert p c = true <-> p = "WAIT" /\ c = "BUY")
  /\ Main.shouldAlert "WAIT" "BUY" = true
  /\ Main.shouldAlert "UNKNOWN" "BUY" = false
  /\ Main.shouldAlert "BUY" "BUY" = false
  /\ Main.shouldAlert "WAIT" "WAIT" = false
  /\ (forall x : string, Main.shouldAlert x "WAIT" = false)
  /\ (forall (tips previous_state : gmap string string) (city : string),
        city ∈ snd (Main.classify_cities tips previous_state)
        <-> city ∈ CITIES
            /\ Main.shouldAlert (default "UNKNOWN" (previous_state !! city))
                 (Main.classify_phase (default "" (tips !! city))) = true).
Proof.
  repeat split; try reflexivity.
  - apply andb_true_iff in H as [H _]. now apply String.eqb_eq.
  - apply andb_true_iff in H as [_ H]. now apply String.eqb_eq.
  - intros [-> ->]. reflexivity.
  - intros x. unfold Main.shouldAlert. apply andb_false_r.
  - now apply transitions_spec in H.
  - now apply transitions_spec in H.
  - intros [H1 H2]. now apply transitions_spec.
Qed.

(** Events and worlds of a dispatch: only calls of [send_email] are
    added, and neither file changes. *)
Definition is_send (e : event) : Prop :=
  match e with
  | EvSendEmail _ _ => True
  | _ => False
  end.

Definition only_sends (w w' : world) : Prop :=
  state_json w' = state_json w
  /\ subscribers_json w' = subscribers_json w
  /\ exists sends, trace w' = trace w ++ sends /\ Forall is_send sends.

(** Some call of [send_email] comes after a write of [state.json]. *)
Fixpoint send_after_save (tr : list event) : bool :=
  match tr with
  | [] => false
  | EvSaveState _ :: rest =>
      existsb (fun e => match e with EvSendEmail _ _ => true | _ => false end) rest
      || send_after_save rest
  | _ :: rest => send_after_save rest
  end.

(** The previous state as [main] loads it. *)
Definition previous_state_of (w : world) : gmap string string :=
  match state_json w with
  | Some state => state
  | None => for_all_cities "UNKNOWN"
  end.

Section DispatchFacts.
Variable E : env.

Lemma only_sends_refl (w : world) : only_sends w w.
Proof.
  repeat split. exists []. split; [now rewrite app_nil_r | constructor].
Qed.

Lemma only_sends_trans (w1 w2 w3 : world) :
  only_sends w1 w2 -> only_sends w2 w3 -> only_sends w1 w3.
Proof.
  intros (Hs1 & Hr1 & s1 & Ht1 & Hf1) (Hs2 & Hr2 & s2 & Ht2 & Hf2).
  repeat split; [congruence | congruence |].
  exists (s1 ++ s2). split.
  - rewrite Ht2, Ht1. now rewrite <- app_assoc.
  - now apply Forall_app.
Qed.

Lemma send_email_only_sends (to_email : string) (m : mail) (w : world) :
  only_sends w (snd (Main.send_email E to_email m w)).
Proof.
  assert (only_sends w (World (state_json w) (subscribers_json w)
                          (trace w ++ [EvSendEmail to_email m]))) as H.
  { repeat split. eexists. split; [reflexivity |]. repeat constructor. }
  unfold Main.send_email.
  destruct (String.eqb _ _); [exact H |].
  destruct (resend E (trace w)); exact H.
Qed.

Lemma for_each_only_sends {A} (body : A -> M unit) (l : list A) :
  (forall x w, only_sends w (snd (body x w))) ->
  forall w, only_sends w (snd (for_each l body w)).
Proof.
  intros Hbody. induction l as [|x l IH]; intros w; simpl.
  - apply only_sends_refl.
  - unfold bind. specialize (Hbody x w).
    destruct (body x w) as [[[]|] w']; simpl in *; [| exact Hbody].
    eapply only_sends_trans; [exact Hbody | apply IH].
Qed.

Lemma dispatch_only_sends (tips : gmap string string) (transitions : list string)
    (w : world) :
  only_sends w (snd (Main.dispatch E tips transitions w)).
Proof.
  unfold Main.dispatch, bind, Main.load_subscribers.
  destruct (subscribers_json w) eqn:Hsubs;
    apply for_each_only_sends; intros city w1;
    apply for_each_only_sends; intros email w2;
    unfold Main.send_buy_alert;
    pose proof (send_email_only_sends email
      (BuyAlert city (SITE_URL E +:+ "/unsubscribe.html?email=" +:+ email
         +:+ "&city=" +:+ city +:+ "&token="
         +:+ Main.generate_token E email city "unsubscribe")) w2) as H;
    destruct (Main.send_email E email _ w2) as [[|] w3] eqn:Hsend;
    simpl in *; exact H.
Qed.

End DispatchFacts.

Lemma load_state_previous (w : world) :
  Main.load_state w = (Ret (previous_state_of w), w).
Proof. unfold Main.load_state, previous_state_of. now destruct (state_json w). Qed.

(** A run with one alert: Sydney was WAIT, its tip now reads BUY, and it
    has one subscriber. *)
Definition one_alert_env : env :=
  Env "change-this-in-production" "https://fuel.example" "re_key"
    (Some "<html>")
    (fun _ => {[ "sydney" := "prices appear to be around the lowest point" ]})
    (fun _ => ∅)
    (fun _ => Accepted).

Definition one_alert_world : world :=
  World (Some {[ "sydney" := "WAIT" ]})
        (Some {[ "sydney" := ["user@example.com"] ]})
        [].

(** C3, as stated, fails: in a run with an alert the new state is written
    first and the e-mail is sent after it, not the other way round. *)
Lemma state_saved_after_dispatch_counterexample :
  trace (snd (Main.main one_alert_env one_alert_world))
  = [EvSaveState (fst (Main.classify_cities
                         (Main.tips_of one_alert_env "<html>")
                         (previous_state_of one_alert_world)));
     EvSendEmail "user@example.com"
       (BuyAlert "sydney"
          "https://fuel.example/unsubscribe.html?email=user@example.com&city=sydney&token=ZNpF36T1aWomN8u7aUSFRA")]
  /\ send_after_save (trace (snd (Main.main one_alert_env one_alert_world))) = true.
Proof. split; vm_compute; reflexivity. Qed.

(** C3 (amended): a run whose page fetch fails returns 1 and writes
    nothing.  In every other run the new state, which gives each known
    city the phase its tip is classified as and has no other entry, is
    written once, straight after classification and before any e-mail is
    sent: whatever the transitions, the subscribers and the outcome of each
    send (accepted, refused, or an exception that ends the run), the run
    adds to the trace that one write followed only by calls of
    [send_email], and [state.json] holds the new state at its end. *)
Theorem state_saved_before_dispatch (E : env) (w : world) :
  match accc_page E with
  | None => Main.main E w = (Ret 1%Z, w)
  | Some html =>
      let tips := Main.tips_of E html in
      let new_state := fst (Main.classify_cities tips (previous_state_of w)) in
      (forall city,
          new_state !! city
          = if Py.in_list city CITIES
            then Some (Main.classify_phase (default "" (tips !! city)))
            else None)
      /\ exists sends,
          trace (snd (Main.main E w)) = trace w ++ EvSaveState new_state :: sends
          /\ Forall is_send sends
          /\ state_json (snd (Main.main E w)) = Some new_state
  end.
Proof.
  unfold Main.main. destruct (accc_page E) as [html|]; [| reflexivity].
  set (tips := Main.tips_of E html).
  split; [intros city; apply current_state_spec |].
  unfold bind. rewrite !load_state_previous.
  destruct (Main.classify_cities tips (previous_state_of w))
    as [current_state transitions] eqn:Hcls.
  cbn [fst]. unfold Main.save_state.
  set (w1 := World (Some current_state) (subscribers_json w)
               (trace w ++ [EvSaveState current_state])).
  destruct transitions as [|city transitions].
  - exists []. repeat split. constructor.
  - pose proof (dispatch_only_sends E tips (city :: transitions) w1)
      as (Hst & _ & sends & Htr & Hsends).
    exists sends.
    destruct (Main.dispatch E tips (city :: transitions) w1) as [[[]|] w2];
      unfold ret; cbn [snd] in *; rewrite Htr, Hst; subst w1;
      cbn [trace state_json];
      (split; [now rewrite <- app_assoc | split; [assumption | reflexivity]]).
Qed.

(** ** Capability tokens *)

Section TokenFacts.
Variable E : env.

(** The three modules derive the same token. *)
Lemma generate_token_same (email city action : string) :
  Main.generate_token E email city action = Handlers.generate_token E email city action
  /\ Signup.generate_token E email city action = Handlers.generate_token E email city action.
Proof. split; reflexivity. Qed.

Lemma verify_token_same (email city token action : string) :
  Main.verify_token E email city token action
  = Handlers.verify_token E email city token action.
Proof. reflexivity. Qed.

(** The hashed text only keeps the concatenation of e-mail, separator
    and city. *)
Lemma generate_token_shift (x y z action : string) :
  Handlers.generate_token E (x +:+ "|" +:+ y) z action
  = Handlers.generate_token E x (y +:+ "|" +:+ z) action.
Proof.
  unfold Handlers.generate_token. do 3 f_equal.
  now rewrite !append_assoc.
Qed.

End TokenFacts.

(** C4: a freshly issued token verifies, for every e-mail, city and action
    and whatever the secret, the same secret being used on both sides; in
    [api/handlers.py] and in [main.py] alike. *)
Theorem token_round_trip (E : env) (e c a : string) :
  Handlers.verify_token E e c (Handlers.generate_token E e c a) a = true
  /\ Main.verify_token E e c (Main.generate_token E e c a) a = true.
Proof.
  split; [unfold Handlers.verify_token | unfold Main.verify_token];
    apply String.eqb_refl.
Qed.

(** C10: the derivation is not injective on (e-mail, city): the pairs
    ("a|b", "c") and ("a", "b|c") differ and get the same token for every
    action and secret, in each of the three modules, so a token issued for
    one passes [verify_token] for the other; and so do all pairs that split
    the same text at another separator. *)
Theorem token_not_injective (E : env) (action : string) :
  ("a|b", "c") <> ("a", "b|c")
  /\ Handlers.generate_token E "a|b" "c" action = Handlers.generate_token E "a" "b|c" action
  /\ Signup.generate_token E "a|b" "c" action = Signup.generate_token E "a" "b|c" action
  /\ Main.generate_token E "a|b" "c" action = Main.generate_token E "a" "b|c" action
  /\ Handlers.verify_token E "a" "b|c" (Handlers.generate_token E "a|b" "c" action) action = true
  /\ Main.verify_token E "a" "b|c" (Main.generate_token E "a|b" "c" action) action = true
  /\ (forall x y z : string,
        Handlers.generate_token E (x +:+ "|" +:+ y) z action
        = Handlers.generate_token E x (y +:+ "|" +:+ z) action).
Proof.
  assert (Handlers.generate_token E "a|b" "c" action
          = Handlers.generate_token E "a" "b|c" action) as Heq
    by apply (generate_token_shift E "a" "b" "c" action).
  split; [discriminate |].
  do 3 (split; [exact Heq |]).
  split; [| split].
  - unfold Handlers.verify_token. rewrite Heq. apply String.eqb_refl.
  - unfold Main.verify_token.
    change (Main.generate_token E) with (Handlers.generate_token E).
    rewrite Heq. apply String.eqb_refl.
  - intros x y z. apply generate_token_shift.
Qed.

(** ** Action scoping

    Tokens of one e-mail and city under two actions are derived from two
    texts that differ, and the encoding of the truncated digest loses
    nothing: the tokens coincide exactly when the first sixteen bytes of
    the two SHA-256 digests do. *)

Section EncodingFacts.
Local Open Scope Z_scope.

Definition is_byte (x : Z) : Prop := 0 <= x < 256.

Lemma sextet_inj (a b : Z) :
  0 <= a < 64 -> 0 <= b < 64 -> Base64.sextet a = Base64.sextet b -> a = b.
Proof.
  intros Ha Hb.
  assert (forall v, 0 <= v < 64 ->
            String.index 0 (String (Base64.sextet v) "") Base64.alphabet
            = Some (Z.to_nat v)) as Hidx.
  { intros v Hv. rewrite <- (Z2Nat.id v) by lia.
    assert (Z.to_nat v < 64)%nat as Hn by lia. revert Hn.
    generalize (Z.to_nat v) as n. intros n Hn.
    do 64 (destruct n as [|n]; [vm_compute; reflexivity |]). lia. }
  intros Heq. pose proof (Hidx a Ha) as H1. pose proof (Hidx b Hb) as H2.
  rewrite Heq in H1. rewrite H1 in H2. injection H2. lia.
Qed.

Lemma sextet_not_pad (v : Z) : 0 <= v < 64 -> Base64.sextet v <> "="%char.
Proof.
  intros Hv. rewrite <- (Z2Nat.id v) by lia.
  assert (Z.to_nat v < 64)%nat as Hn by lia. revert Hn.
  generalize (Z.to_nat v) as n. intros n Hn.
  do 64 (destruct n as [|n]; [vm_compute; discriminate |]). lia.
Qed.

Lemma rstrip_char_cons (ch c : ascii) (s : string) :
  c <> ch -> Py.rstrip_char ch (String c s) = String c (Py.rstrip_char ch s).
Proof.
  intros Hne. simpl. destruct (Py.rstrip_char ch s); [| reflexivity].
  apply Ascii.eqb_neq in Hne. now rewrite Hne.
Qed.

Ltac byte_arith := unfold is_byte in *; Z.div_mod_to_equations; lia.

(** Pushes [rstrip_char] under the leading sextets of both sides of [H]
    and splits the equation character by character. *)
Lemma rstrip_char_sextet (v : Z) (s : string) :
  0 <= v < 64 ->
  Py.rstrip_char "=" (String (Base64.sextet v) s)
  = String (Base64.sextet v) (Py.rstrip_char "=" s).
Proof. intros Hv. now apply rstrip_char_cons, sextet_not_pad. Qed.

Lemma string_cons_inj (a b : ascii) (s t : string) :
  String a s = String b t -> a = b /\ s = t.
Proof. intros H. now injection H. Qed.

Ltac peel H :=
  repeat (rewrite rstrip_char_sextet in H by byte_arith);
  repeat match type of H with
         | String _ _ = String _ _ =>
             let Hc := fresh "Hc" in
             apply string_cons_inj in H as [Hc H];
             apply sextet_inj in Hc; [| byte_arith | byte_arith]
         end.

Lemma token_encoding_inj (n : nat) (l l' : list Z) :
  (length l <= n)%nat -> length l = length l' ->
  Forall is_byte l -> Forall is_byte l' ->
  Py.rstrip_char "=" (Base64.urlsafe_b64encode l)
  = Py.rstrip_char "=" (Base64.urlsafe_b64encode l') ->
  l = l'.
Proof.
  revert l l'. induction n as [|n IH]; intros l l' Hn Hlen Hl Hl' Heq.
  - destruct l; [| simpl in Hn; lia]. destruct l'; [reflexivity | discriminate].
  - destruct l as [|a [|b [|c rest]]];
      destruct l' as [|a' [|b' [|c' rest']]]; try discriminate Hlen.
    + reflexivity.
    + apply Forall_cons in Hl as [Ha _]. apply Forall_cons in Hl' as [Ha' _].
      cbn [Base64.urlsafe_b64encode] in Heq. peel Heq.
      f_equal. byte_arith.
    + apply Forall_cons in Hl as [Ha Hl]. apply Forall_cons in Hl as [Hb _].
      apply Forall_cons in Hl' as [Ha' Hl']. apply Forall_cons in Hl' as [Hb' _].
      cbn [Base64.urlsafe_b64encode] in Heq. peel Heq.
      assert (a = a' /\ b = b') as [-> ->] by byte_arith. reflexivity.
    + apply Forall_cons in Hl as [Ha Hl]. apply Forall_cons in Hl as [Hb Hl].
      apply Forall_cons in Hl as [Hc Hl].
      apply Forall_cons in Hl' as [Ha' Hl']. apply Forall_cons in Hl' as [Hb' Hl'].
      apply Forall_cons in Hl' as [Hc' Hl'].
      cbn [Base64.urlsafe_b64encode] in Heq. peel Heq.
      assert (a = a' /\ b = b' /\ c = c') as (-> & -> & ->) by byte_arith.
      do 3 f_equal. apply IH; try assumption.
      * simpl in Hn. lia.
      * simpl in Hlen. lia.
Qed.

Lemma be_bytes_length (n : nat) (x : Z) : length (SHA256.be_bytes n x) = n.
Proof.
  revert x. induction n as [|n IH]; intros x; simpl; [reflexivity |].
  rewrite length_app, IH. simpl. lia.
Qed.

Lemma be_bytes_byte (n : nat) (x : Z) : Forall is_byte (SHA256.be_bytes n x).
Proof.
  revert x. induction n as [|n IH]; intros x; simpl; [constructor |].
  apply Forall_app. split; [apply IH |]. repeat constructor; byte_arith.
Qed.

Lemma round_length (st : list Z) (k w : Z) :
  length st = 8%nat -> length (SHA256.round st k w) = 8%nat.
Proof.
  intros H. do 8 (destruct st as [|? st]; [discriminate H |]).
  destruct st; [reflexivity | discriminate H].
Qed.

Lemma rounds_length (ks win st : list Z) :
  length st = 8%nat -> length (SHA256.rounds ks win st) = 8%nat.
Proof.
  revert win st. induction ks as [|k ks IH]; intros win st H; simpl; [exact H |].
  apply IH. now apply round_length.
Qed.

Lemma compress_length (h block : list Z) :
  length h = 8%nat -> length (SHA256.compress h block) = 8%nat.
Proof.
  intros H. unfold SHA256.compress.
  rewrite length_zip_with, rounds_length, H by exact H. reflexivity.
Qed.

Lemma process_length (fuel : nat) (ws h : list Z) :
  length h = 8%nat -> length (SHA256.process fuel ws h) = 8%nat.
Proof.
  revert ws h. induction fuel as [|fuel IH]; intros ws h H; simpl; [exact H |].
  destruct ws; [exact H |]. apply IH. now apply compress_length.
Qed.

(** A digest is 32 bytes, whatever the message. *)
Lemma digest_length (msg : list Z) : length (SHA256.digest msg) = 32%nat.
Proof.
  unfold SHA256.digest.
  pose proof (process_length (length (SHA256.to_words (SHA256.pad msg)))
                (SHA256.to_words (SHA256.pad msg)) SHA256.H0 eq_refl) as H.
  revert H. generalize (SHA256.process (length (SHA256.to_words (SHA256.pad msg)))
                          (SHA256.to_words (SHA256.pad msg)) SHA256.H0).
  intros hs H. do 8 (destruct hs as [|? hs]; [discriminate H |]).
  destruct hs; [| discriminate H]. cbn [map concat].
  rewrite !length_app, !be_bytes_length. reflexivity.
Qed.

Lemma digest_bytes (msg : list Z) : Forall is_byte (SHA256.digest msg).
Proof.
  unfold SHA256.digest. apply Forall_concat, Forall_map, Forall_forall.
  intros x _. apply be_bytes_byte.
Qed.

End EncodingFacts.

Section ScopingFacts.
Variable E : env.

(** Two tokens are equal exactly when the truncated digests of their
    texts are. *)
Lemma generate_token_eq_iff (e c a e' c' a' : string) :
  Handlers.generate_token E e c a = Handlers.generate_token E e' c' a'
  <-> firstn 16 (SHA256.digest
                   (encode (e +:+ "|" +:+ c +:+ "|" +:+ a +:+ "|" +:+ SECRET_KEY E)))
      = firstn 16 (SHA256.digest
                     (encode (e' +:+ "|" +:+ c' +:+ "|" +:+ a' +:+ "|" +:+ SECRET_KEY E))).
Proof.
  unfold Handlers.generate_token. split; [| now intros ->].
  apply (token_encoding_inj 16).
  - rewrite length_take, digest_length. lia.
  - now rewrite !length_take, !digest_length.
  - apply Forall_take, digest_bytes.
  - apply Forall_take, digest_bytes.
Qed.

(** The texts hashed for the two actions differ, for every e-mail, city
    and secret. *)
Lemma action_texts_differ (e c : string) :
  e +:+ "|" +:+ c +:+ "|" +:+ "confirm" +:+ "|" +:+ SECRET_KEY E
  <> e +:+ "|" +:+ c +:+ "|" +:+ "unsubscribe" +:+ "|" +:+ SECRET_KEY E.
Proof.
  intros H. do 3 apply String.app_inj in H. discriminate H.
Qed.

(** Action scoping for one e-mail and city amounts to the two truncated
    digests being different. *)
Lemma action_scoping_iff (e c : string) :
  Handlers.verify_token E e c (Handlers.generate_token E e c "confirm") "unsubscribe"
  = false
  <-> firstn 16 (SHA256.digest
                   (encode (e +:+ "|" +:+ c +:+ "|" +:+ "confirm" +:+ "|" +:+ SECRET_KEY E)))
      <> firstn 16 (SHA256.digest
                      (encode (e +:+ "|" +:+ c +:+ "|" +:+ "unsubscribe" +:+ "|" +:+ SECRET_KEY E))).
Proof.
  unfold Handlers.verify_token. rewrite String.eqb_neq.
  now rewrite generate_token_eq_iff.
Qed.

End ScopingFacts.

(** ** Confirming and unsubscribing *)

(** The e-mail and city as both handlers normalise them:
    [s.lower().strip()]. *)
Definition normalize (s : string) : string := Unicode.strip (Unicode.lower s).

(** The addresses registered for a city. *)
Definition entries (w : world) (city : string) : list string :=
  default [] (registry w !! city).

(** The world after [save_subscribers]. *)
Definition saved (subscribers : gmap string (list string)) (w : world) : world :=
  World (state_json w) (Some subscribers) (trace w ++ [EvSaveSubscribers subscribers]).

Section HandlerFacts.
Variable E : env.

Lemma load_subscribers_registry (w : world) :
  Handlers.load_subscribers w = (Ret (registry w), w).
Proof. unfold Handlers.load_subscribers, registry. now destruct (subscribers_json w). Qed.

(** The four ways [confirm_subscription] ends. *)
Lemma confirm_subscription_cases (email city token : string) (w : world) :
  let e := normalize email in
  let c := normalize city in
  Handlers.confirm_subscription E email city token w
  = if negb (Py.in_list c CITIES) then (Ret (false, "Invalid city"), w)
    else if negb (Handlers.verify_token E e c token "confirm")
    then (Ret (false, "Invalid or expired confirmation link"), w)
    else if Py.in_list e (entries w c)
    then (Ret (true, "You're already subscribed"), w)
    else (Ret (true, "You're subscribed! You'll only hear from us when prices hit bottom."),
          saved (<[c := entries w c ++ [e]]> (registry w)) w).
Proof.
  intros e c. unfold Handlers.confirm_subscription. fold (normalize email) (normalize city).
  fold e c. destruct (negb (Py.in_list c CITIES)); [reflexivity |].
  destruct (negb (Handlers.verify_token E e c token "confirm")); [reflexivity |].
  unfold bind. rewrite load_subscribers_registry. unfold entries.
  destruct (Py.in_list e (default [] (registry w !! c))); [reflexivity |].
  unfold Handlers.save_subscribers, ret, saved.
  destruct (registry w !! c) as [l|] eqn:Hl.
  - rewrite Hl. reflexivity.
  - rewrite lookup_insert_eq, insert_insert_eq. reflexivity.
Qed.

(** The four ways [unsubscribe] ends. *)
Lemma unsubscribe_cases (email city token : string) (w : world) :
  let e := normalize email in
  let c := normalize city in
  Handlers.unsubscribe E email city token w
  = if negb (Py.in_list c CITIES) then (Ret (false, "Invalid city"), w)
    else if negb (Handlers.verify_token E e c token "unsubscribe")
    then (Ret (false, "Invalid unsubscribe link"), w)
    else if Py.in_list e (entries w c)
    then (Ret (true, "You've been unsubscribed"),
          saved (<[c := Py.remove e (entries w c)]> (registry w)) w)
    else (Ret (true, "You weren't subscribed"), w).
Proof.
  intros e c. unfold Handlers.unsubscribe. fold (normalize email) (normalize city).
  fold e c. destruct (negb (Py.in_list c CITIES)); [reflexivity |].
  destruct (negb (Handlers.verify_token E e c token "unsubscribe")); [reflexivity |].
  unfold bind. rewrite load_subscribers_registry. unfold entries.
  destruct (registry w !! c) as [l|] eqn:Hl; cbn [from_option id]; [| reflexivity].
  destruct (Py.in_list e l); reflexivity.
Qed.

End HandlerFacts.

(** Closes a goal asking for a refusal with some non-empty message. *)
Ltac refused := eexists; split; [| reflexivity]; discriminate.

(** C6: whatever text the e-mail, the city and the token are: when the
    city, lower-cased and trimmed as the handlers do with [str.lower] and
    [str.strip], is outside the known set, or the token does not verify
    for the normalised e-mail and city under the handler's own action,
    [confirm_subscription] and [unsubscribe] return failure with a
    non-empty message and leave the world as it was: no file is written,
    the registry is not touched. *)
Theorem failure_leaves_registry (E : env) (email city token : string) (w : world) :
  (Py.in_list (normalize city) CITIES = false
   \/ Handlers.verify_token E (normalize email) (normalize city) token "confirm" = false ->
   exists msg, msg <> ""
     /\ Handlers.confirm_subscription E email city token w = (Ret (false, msg), w))
  /\ (Py.in_list (normalize city) CITIES = false
      \/ Handlers.verify_token E (normalize email) (normalize city) token "unsubscribe" = false ->
      exists msg, msg <> ""
        /\ Handlers.unsubscribe E email city token w = (Ret (false, msg), w)).
Proof.
  split; intros H;
    [rewrite confirm_subscription_cases | rewrite unsubscribe_cases];
    (destruct (Py.in_list (normalize city) CITIES); cbn [negb];
     [destruct H as [H | H]; [discriminate |]; rewrite H; cbn [negb] |]);
    refused.
Qed.

(** How often an address is registered for a city. *)
Definition occurrences (w : world) (city email : string) : nat :=
  count_occ string_dec (entries w city) email.

Section RegistryFacts.

Lemma in_list_count (x : string) (l : list string) :
  Py.in_list x l = true <-> 0 < count_occ string_dec l x.
Proof. rewrite in_list_spec, list_elem_of_In. apply count_occ_In. Qed.

Lemma not_in_list_count (x : string) (l : list string) :
  Py.in_list x l = false <-> count_occ string_dec l x = 0.
Proof.
  rewrite <- not_true_iff_false, in_list_count. lia.
Qed.

Lemma entries_saved_same (r : gmap string (list string)) (w : world)
    (c : string) (l : list string) :
  entries (saved (<[c := l]> r) w) c = l.
Proof. unfold entries, registry, saved. cbn. now rewrite lookup_insert_eq. Qed.

Lemma entries_saved_other (w : world) (c c' : string) (l : list string) :
  c <> c' -> entries (saved (<[c := l]> (registry w)) w) c' = entries w c'.
Proof.
  intros Hne. unfold entries at 1, registry at 1, saved. cbn.
  now rewrite lookup_insert_ne.
Qed.

End RegistryFacts.

(** C7: for a city that is known once normalised and a token that is
    the confirm token of the normalised e-mail and city, starting from a
    registry in which the address is registered at most once for that
    city, two confirmations in succession both succeed, the second with
    "You're already subscribed" and without changing anything, and leave
    the address registered exactly once there; and no address of any city
    that was registered at most once is registered twice afterwards. *)
Theorem confirm_twice_one_entry (E : env) (email city token : string) (w : world) :
  Py.in_list (normalize city) CITIES = true ->
  Handlers.verify_token E (normalize email) (normalize city) token "confirm" = true ->
  occurrences w (normalize city) (normalize email) <= 1 ->
  exists msg w1,
    Handlers.confirm_subscription E email city token w = (Ret (true, msg), w1)
    /\ Handlers.confirm_subscription E email city token w1
       = (Ret (true, "You're already subscribed"), w1)
    /\ occurrences w1 (normalize city) (normalize email) = 1
    /\ (forall c' e', occurrences w c' e' <= 1 -> occurrences w1 c' e' <= 1).
Proof.
  intros Hcity Htoken Honce.
  rewrite !confirm_subscription_cases. cbv zeta.
  rewrite Hcity, Htoken. cbn [negb].
  set (e := normalize email) in *. set (c := normalize city) in *.
  destruct (Py.in_list e (entries w c)) eqn:Hin.
  - exists "You're already subscribed", w.
    rewrite confirm_subscription_cases. cbv zeta. fold e c.
    rewrite Hcity, Htoken, Hin. cbn [negb].
    repeat split; [| auto].
    apply in_list_count in Hin. unfold occurrences in *. lia.
  - eexists _, _. split; [reflexivity |].
    set (w1 := saved _ w).
    assert (entries w1 c = entries w c ++ [e]) as Hent
      by apply entries_saved_same.
    assert (occurrences w1 c e = 1) as Hone.
    { unfold occurrences. rewrite Hent, count_occ_app.
      apply not_in_list_count in Hin. rewrite Hin. cbn.
      destruct (string_dec e e); [reflexivity | congruence]. }
    rewrite confirm_subscription_cases. cbv zeta. fold e c.
    rewrite Hcity, Htoken. cbn [negb].
    assert (Py.in_list e (entries w1 c) = true) as ->
      by (apply in_list_count; unfold occurrences in Hone; lia).
    repeat split; [exact Hone |].
    intros c' e' H'. destruct (decide (c = c')) as [<- | Hne].
    + destruct (decide (e = e')) as [<- | Hne']; [lia |].
      unfold occurrences in *. rewrite Hent, count_occ_app. cbn.
      destruct (string_dec e e'); [congruence | lia].
    + unfold occurrences in *. subst w1. now rewrite entries_saved_other.
Qed.

(** C8: for a city that is known once normalised and a token that is
    the unsubscribe token of the normalised e-mail and city, when the
    normalised address is not registered for the city, [unsubscribe]
    returns success with "You weren't subscribed" and the world is as it
    was: nothing is saved. *)
Theorem unsubscribe_absent_is_noop (E : env) (email city token : string) (w : world) :
  Py.in_list (normalize city) CITIES = true ->
  Handlers.verify_token E (normalize email) (normalize city) token "unsubscribe" = true ->
  Py.in_list (normalize email) (entries w (normalize city)) = false ->
  Handlers.unsubscribe E email city token w = (Ret (true, "You weren't subscribed"), w).
Proof.
  intros Hcity Htoken Habsent.
  rewrite unsubscribe_cases. cbv zeta.
  now rewrite Hcity, Htoken, Habsent.
Qed.

(** ** Normalised addresses *)

(** An address is normalised when [str.lower] and [str.strip] leave it as
    it is: it holds no capital letter of any script and no whitespace,
    ASCII or not, at either end. *)
Definition normalized (e : string) : Prop :=
  Unicode.lower e = e /\ Unicode.strip e = e.

#[global] Instance normalized_dec (e : string) : Decision (normalized e).
Proof. unfold normalized. apply _. Defined.

(** Every address the registry holds is normalised. *)
Definition registry_normalized (w : world) : Prop :=
  map_Forall (fun _ l => Forall normalized l) (registry w).

#[global] Instance registry_normalized_dec (w : world) : Decision (registry_normalized w).
Proof. unfold registry_normalized. apply _. Defined.

Section StripFacts.







Lemma normalize_normalized (s : string) : normalized (normalize s).
Proof.
  unfold normalized, normalize. split.
  - apply unicode_lower_strip_lower.
  - apply unicode_strip_idem.
Qed.

Lemma remove_subset (x y : string) (l : list string) : y ∈ Py.remove x l -> y ∈ l.
Proof.
  induction l as [|z l IH]; simpl; [auto |].
  destruct (String.eqb z x).
  - intros H. now right.
  - intros H. apply elem_of_cons in H as [-> | H]; [left | right; auto].
Qed.

End StripFacts.

(** The link [signup.py] mails: it embeds the arguments it is given and
    the confirm token derived from them. *)
Definition confirm_url (E : env) (email city : string) : string :=
  SITE_URL E +:+ "/confirm.html?email=" +:+ email +:+ "&city=" +:+ city
  +:+ "&token=" +:+ Signup.generate_token E email city "confirm".

Section ActionFacts.
Variable E : env.

(** A signup writes no file; it calls [send_email] at most once, for the
    normalised address, with a token for the normalised pair. *)
Lemma process_signup_effect (email city : string) (w : world) :
  let w' := snd (Signup.process_signup E email city w) in
  state_json w' = state_json w
  /\ subscribers_json w' = subscribers_json w
  /\ (trace w' = trace w
      \/ exists phase,
          trace w' = trace w
                     ++ [EvSendEmail (normalize email)
                           (Confirmation (normalize city)
                              (confirm_url E (normalize email) (normalize city))
                              phase)]).
Proof.
  unfold Signup.process_signup. fold (normalize email) (normalize city).
  set (e := normalize email). set (c := normalize city).
  destruct (negb (Signup.is_valid_email e)); [cbn; auto |].
  destruct (negb (Py.in_list c CITIES)); [cbn; auto |].
  unfold bind, Signup.load_subscribers, Signup.send_confirmation_email, bind,
    Signup.load_state, Signup.send_email, ret.
  fold (confirm_url E e c).
  destruct (subscribers_json w) as [subs|] eqn:Hsubs;
    (destruct (Py.in_list e _); [cbn; auto |]);
    destruct (state_json w) as [st|] eqn:Hst;
    destruct (String.eqb (RESEND_API_KEY E) ""); try destruct (resend E (trace w));
    cbn; rewrite ?Hsubs, ?Hst; repeat split; right; eexists; reflexivity.
Qed.

Lemma confirm_preserves (email city token : string) (w : world) :
  registry_normalized w ->
  registry_normalized (snd (Handlers.confirm_subscription E email city token w)).
Proof.
  intros Hw. rewrite confirm_subscription_cases. cbv zeta.
  destruct (negb _); [exact Hw |].
  destruct (negb _); [exact Hw |].
  destruct (Py.in_list _ _); [exact Hw |].
  unfold registry_normalized, registry, saved. cbn.
  apply map_Forall_insert_2; [| exact Hw].
  apply Forall_app. split.
  - unfold entries. destruct (registry w !! normalize city) as [l|] eqn:Hl; cbn.
    + exact (Hw _ _ Hl).
    + constructor.
  - repeat constructor; apply normalize_normalized.
Qed.

Lemma unsubscribe_preserves (email city token : string) (w : world) :
  registry_normalized w ->
  registry_normalized (snd (Handlers.unsubscribe E email city token w)).
Proof.
  intros Hw. rewrite unsubscribe_cases. cbv zeta.
  destruct (negb _); [exact Hw |].
  destruct (negb _); [exact Hw |].
  destruct (Py.in_list _ _); [| exact Hw].
  unfold registry_normalized, registry, saved. cbn.
  apply map_Forall_insert_2; [| exact Hw].
  apply Forall_forall. intros x Hx. apply remove_subset in Hx.
  unfold entries in Hx.
  destruct (registry w !! normalize city) as [l|] eqn:Hl; cbn in Hx.
  + pose proof (Hw _ _ Hl) as Hall. rewrite Forall_forall in Hall. now apply Hall.
  + now apply elem_of_nil in Hx.
Qed.

Lemma signup_preserves (email city : string) (w : world) :
  registry_normalized w ->
  registry_normalized (snd (Signup.process_signup E email city w)).
Proof.
  intros Hw. destruct (process_signup_effect email city w) as (_ & Hsubs & _).
  unfold registry_normalized, registry in *. now rewrite Hsubs.
Qed.

Lemma perform_preserves (a : action) (w : world) :
  registry_normalized w -> registry_normalized (snd (perform E a w)).
Proof.
  destruct a; simpl;
    [apply signup_preserves | apply confirm_preserves | apply unsubscribe_preserves].
Qed.

End ActionFacts.

(** C9: the address the handlers and the signup work with is the given
    one lower-cased and trimmed with [str.lower] and [str.strip], and for
    any text given, ASCII or not, lower-casing or trimming it again
    changes nothing.  A confirmation either leaves the world alone or
    appends that normalised address, which the membership test on the same
    normalised address found absent, to its city's list; a signup writes
    no file and calls [send_email] at most once, with a link whose token
    is the confirm token of the normalised address and city.  So from a
    registry of normalised addresses, the registry after each action of
    any sequence of signups, confirmations and unsubscriptions holds
    normalised addresses only. *)
Theorem registry_stays_normalized (E : env) :
  (forall s, normalized (normalize s))
  /\ (forall email city token w,
        let w' := snd (Handlers.confirm_subscription E email city token w) in
        w' = w
        \/ (Py.in_list (normalize email) (entries w (normalize city)) = false
            /\ w' = saved (<[normalize city := entries w (normalize city) ++ [normalize email]]>
                             (registry w)) w))
  /\ (forall email city w,
        let w' := snd (Signup.process_signup E email city w) in
        subscribers_json w' = subscribers_json w
        /\ (trace w' = trace w
            \/ exists phase,
                trace w' = trace w
                           ++ [EvSendEmail (normalize email)
                                 (Confirmation (normalize city)
                                    (confirm_url E (normalize email) (normalize city))
                                    phase)]))
  /\ (forall actions w,
        registry_normalized w ->
        Forall registry_normalized (worlds_after E actions w)).
Proof.
  split; [apply normalize_normalized |]. split; [| split].
  - intros email city token w. rewrite confirm_subscription_cases. cbv zeta.
    destruct (negb _); [now left |].
    destruct (negb _); [now left |].
    destruct (Py.in_list _ _) eqn:Hin; [now left |].
    right. split; reflexivity.
  - intros email city w.
    destruct (process_signup_effect E email city w) as (_ & Hsubs & Htr).
    split; assumption.
  - intros actions. induction actions as [|a actions IH]; intros w Hw; simpl.
    + constructor.
    + constructor; [now apply perform_preserves |].
      apply IH. now apply perform_preserves.
Qed.

(** ** The registry holds an address at most once per city *)

Definition no_duplicates (w : world) : Prop :=
  forall city email, occurrences w city email <= 1.

Section NoDuplicates.
Variable E : env.

Lemma remove_count (x y : string) (l : list string) :
  count_occ string_dec (Py.remove x l) y <= count_occ string_dec l y.
Proof.
  induction l as [|z l IH]; simpl; [lia |].
  destruct (String.eqb z x); simpl; destruct (string_dec z y); lia.
Qed.

Lemma confirm_no_duplicates (email city token : string) (w : world) :
  no_duplicates w ->
  no_duplicates (snd (Handlers.confirm_subscription E email city token w)).
Proof.
  intros Hw. rewrite confirm_subscription_cases. cbv zeta.
  destruct (negb _); [exact Hw |].
  destruct (negb _); [exact Hw |].
  destruct (Py.in_list _ _) eqn:Hin; [exact Hw |].
  cbn [snd]. intros c' e'. unfold occurrences.
  destruct (decide (normalize city = c')) as [<- | Hne].
  - rewrite entries_saved_same, count_occ_app. cbn.
    apply not_in_list_count in Hin. specialize (Hw (normalize city) e').
    unfold occurrences in Hw.
    destruct (string_dec (normalize email) e') as [<- | _]; lia.
  - rewrite entries_saved_other by exact Hne. apply Hw.
Qed.

Lemma unsubscribe_no_duplicates (email city token : string) (w : world) :
  no_duplicates w ->
  no_duplicates (snd (Handlers.unsubscribe E email city token w)).
Proof.
  intros Hw. rewrite unsubscribe_cases. cbv zeta.
  destruct (negb _); [exact Hw |].
  destruct (negb _); [exact Hw |].
  destruct (Py.in_list _ _); [| exact Hw].
  cbn [snd]. intros c' e'. unfold occurrences.
  destruct (decide (normalize city = c')) as [<- | Hne].
  - rewrite entries_saved_same.
    pose proof (remove_count (normalize email) e' (entries w (normalize city))).
    specialize (Hw (normalize city) e'). unfold occurrences in Hw. lia.
  - rewrite entries_saved_other by exact Hne. apply Hw.
Qed.

Lemma perform_no_duplicates (a : action) (w : world) :
  no_duplicates w -> no_duplicates (snd (perform E a w)).
Proof.
  destruct a as [email city | email city token | email city token]; simpl.
  - intros Hw c e. unfold occurrences, entries, registry.
    destruct (process_signup_effect E email city w) as (_ & -> & _). apply Hw.
  - apply confirm_no_duplicates.
  - apply unsubscribe_no_duplicates.
Qed.

(** From a deployment with no [subscribers.json] yet, no sequence of
    actions registers an address twice for a city. *)
Lemma reachable_no_duplicates (actions : list action)
    (state : option (gmap string string)) (tr : list event) :
  Forall no_duplicates (worlds_after E actions (World state None tr)).
Proof.
  assert (no_duplicates (World state None tr)) as H0.
  { intros city email. unfold occurrences, entries, registry. cbn [subscribers_json].
    destruct ((for_all_cities [] : gmap string (list string)) !! city) as [l|] eqn:Hl;
      [| cbn; lia].
    unfold for_all_cities in Hl.
    apply elem_of_list_to_map_2 in Hl. apply list_elem_of_In, in_map_iff in Hl.
    destruct Hl as (c & [= _ <-] & _). cbn. lia. }
  revert H0. generalize (World state None tr).
  induction actions as [|a actions IH]; intros w Hw; simpl; constructor.
  - now apply perform_no_duplicates.
  - apply IH. now apply perform_no_duplicates.
Qed.

End NoDuplicates.

(** ** Instances *)

(** Letter case does not matter to the classifier, here on a tip with a
    BUY phrase. *)
Lemma classify_phase_amended_witness :
  Main.classify_phase "NOW IS A Good Time to fill up"
  = Main.classify_phase "now is a good time to fill up".
Proof.
  apply (proj2 (proj2 (proj2 (proj2 (proj2
           (classify_phase_amended "now is a good time to fill up")))))).
  reflexivity.
Defined.

(** A confirmation with a tampered token is refused and changes nothing. *)
Lemma failure_leaves_registry_witness :
  exists msg, msg <> ""
    /\ Handlers.confirm_subscription one_alert_env "User@Example.com " "Sydney"
         "bs63tDz4cwo5xIPg2S4dMR" one_alert_world
       = (Ret (false, msg), one_alert_world).
Proof.
  apply (proj1 (failure_leaves_registry one_alert_env "User@Example.com " "Sydney"
                  "bs63tDz4cwo5xIPg2S4dMR" one_alert_world)).
  right. vm_compute. reflexivity.
Defined.

(** A new address confirmed twice, with the token issued for it. *)
Lemma confirm_twice_one_entry_witness :
  exists msg w1,
    Handlers.confirm_subscription one_alert_env " New@Example.COM" "Sydney"
      "bs63tDz4cwo5xIPg2S4dMQ" one_alert_world = (Ret (true, msg), w1)
    /\ Handlers.confirm_subscription one_alert_env " New@Example.COM" "Sydney"
         "bs63tDz4cwo5xIPg2S4dMQ" w1
       = (Ret (true, "You're already subscribed"), w1)
    /\ occurrences w1 (normalize "Sydney") (normalize " New@Example.COM") = 1
    /\ (forall c' e', occurrences one_alert_world c' e' <= 1 -> occurrences w1 c' e' <= 1).
Proof.
  apply (confirm_twice_one_entry one_alert_env " New@Example.COM" "Sydney"
           "bs63tDz4cwo5xIPg2S4dMQ" one_alert_world).
  - vm_compute. reflexivity.
  - vm_compute. reflexivity.
  - vm_compute. lia.
Defined.

(** An address that never subscribed to Perth unsubscribes from it. *)
Lemma unsubscribe_absent_is_noop_witness :
  Handlers.unsubscribe one_alert_env "nobody@example.com" "PERTH"
    "Va2CJgX9I420tdUeTU48wQ" one_alert_world
  = (Ret (true, "You weren't subscribed"), one_alert_world).
Proof.
  apply (unsubscribe_absent_is_noop one_alert_env "nobody@example.com" "PERTH"
           "Va2CJgX9I420tdUeTU48wQ" one_alert_world).
  - vm_compute. reflexivity.
  - vm_compute. reflexivity.
  - vm_compute. reflexivity.
Defined.

(** A signup, a confirmation, an unsubscription of the first subscriber
    and a refused confirmation, from a normalised registry. *)
Lemma registry_stays_normalized_witness :
  Forall registry_normalized
    (worlds_after one_alert_env
       [Signup " New@Example.COM" "Sydney";
        Confirm " New@Example.COM" "Sydney" "bs63tDz4cwo5xIPg2S4dMQ";
        Unsubscribe "USER@example.com" "sydney" "ZNpF36T1aWomN8u7aUSFRA";
        Confirm "x@example.com" "sydney" "bs63tDz4cwo5xIPg2S4dMQ"]
       one_alert_world).
Proof.
  apply (proj2 (proj2 (proj2 (registry_stays_normalized one_alert_env)))).
  apply (bool_decide_unpack _). vm_compute. exact I.
Defined.

(** What that sequence leaves in the registry. *)
Example registry_after_actions :
  map (fun w => entries w "sydney")
    (worlds_after one_alert_env
       [Signup " New@Example.COM" "Sydney";
        Confirm " New@Example.COM" "Sydney" "bs63tDz4cwo5xIPg2S4dMQ";
        Unsubscribe "USER@example.com" "sydney" "ZNpF36T1aWomN8u7aUSFRA";
        Confirm "x@example.com" "sydney" "bs63tDz4cwo5xIPg2S4dMQ"]
       one_alert_world)
  = [["user@example.com"];
     ["user@example.com"; "new@example.com"];
     ["new@example.com"];
     ["new@example.com"]].
Proof. vm_compute. reflexivity. Qed.

(** The city is matched after normalisation: with the token issued for
    the normalised pair, a city given in another case or with spaces
    around it is accepted. *)
Example confirm_accepts_unnormalised_city :
  fst (Handlers.confirm_subscription one_alert_env " New@Example.COM" " SYDNEY "
         "bs63tDz4cwo5xIPg2S4dMQ" one_alert_world)
  = Ret (true, "You're subscribed! You'll only hear from us when prices hit bottom.").
Proof. vm_compute. reflexivity. Qed.

(** A registry that already holds an address twice keeps holding it twice
    through confirmations: the handler only guards its own insertions. *)
Example confirm_keeps_duplicates :
  let w := World None (Some {[ "sydney" := ["new@example.com"; "new@example.com"] ]}) [] in
  snd (Handlers.confirm_subscription one_alert_env "new@example.com" "sydney"
         "bs63tDz4cwo5xIPg2S4dMQ" w) = w.
Proof. vm_compute. reflexivity. Qed.

(** Action scoping on a sample: the confirm token of a pair is not its
    unsubscribe token, and each fails under the other action. *)
Example action_scoping_sample :
  Handlers.generate_token one_alert_env "user@example.com" "sydney" "confirm"
  = "e64qvPPnhyWvJtcSyEcuRw"
  /\ Handlers.generate_token one_alert_env "user@example.com" "sydney" "unsubscribe"
     = "ZNpF36T1aWomN8u7aUSFRA"
  /\ Handlers.verify_token one_alert_env "user@example.com" "sydney"
       "e64qvPPnhyWvJtcSyEcuRw" "unsubscribe" = false
  /\ Handlers.verify_token one_alert_env "user@example.com" "sydney"
       "ZNpF36T1aWomN8u7aUSFRA" "confirm" = false.
Proof. vm_compute. auto. Qed.

(** A signup with a malformed address is refused before any e-mail is
    attempted. *)
Example signup_invalid_email :
  Signup.process_signup one_alert_env "not-an-email" "sydney" one_alert_world
  = (Ret (false, "Invalid email address"), one_alert_world).
Proof. vm_compute. reflexivity. Qed.

(** A signup of a new address mails one confirmation link, carrying the
    confirm token of the normalised pair. *)
Example signup_sends_confirmation :
  trace (snd (Signup.process_signup one_alert_env " New@Example.COM" "Sydney"
                one_alert_world))
  = [EvSendEmail "new@example.com"
       (Confirmation "sydney"
          "https://fuel.example/confirm.html?email=new@example.com&city=sydney&token=bs63tDz4cwo5xIPg2S4dMQ"
          "WAIT")].
Proof. vm_compute. reflexivity. Qed.

(** Normalisation outside ASCII: a no-break space (U+00A0) at the end is
    trimmed, U+00C9 becomes U+00E9, the Kelvin sign U+212A becomes [k],
    and a capital sigma that ends a word becomes the final small sigma. *)
Example normalize_beyond_ascii :
  normalize ("New@Example.com" +:+ Unicode.utf8 160) = "new@example.com"
  /\ normalize (Unicode.utf8 201 +:+ "@x.com") = Unicode.utf8 233 +:+ "@x.com"
  /\ normalize ("mi" +:+ Unicode.utf8 8490 +:+ "e@example.com") = "mike@example.com"
  /\ normalize (Unicode.utf8 913 +:+ Unicode.utf8 931 +:+ " ")
     = Unicode.utf8 945 +:+ Unicode.utf8 962.
Proof. vm_compute. auto. Qed.

(** So an address that ends in a no-break space is confirmed with the
    token of the trimmed address, and it is the trimmed address that is
    registered; and an address written with the Kelvin sign signs up as
    the one written with [k]. *)
Example confirm_trims_no_break_space :
  Handlers.confirm_subscription one_alert_env
    ("New@Example.com" +:+ Unicode.utf8 160) "Sydney"
    "bs63tDz4cwo5xIPg2S4dMQ" one_alert_world
  = (Ret (true, "You're subscribed! You'll only hear from us when prices hit bottom."),
     saved {[ "sydney" := ["user@example.com"; "new@example.com"] ]} one_alert_world).
Proof. vm_compute. reflexivity. Qed.

Example signup_lowers_kelvin_sign :
  trace (snd (Signup.process_signup one_alert_env
                ("mi" +:+ Unicode.utf8 8490 +:+ "e@example.com") "sydney"
                one_alert_world))
  = [EvSendEmail "mike@example.com"
       (Confirmation "sydney"
          (confirm_url one_alert_env "mike@example.com" "sydney") "WAIT")].
Proof. vm_compute. reflexivity. Qed.

(** * Further properties *)

(** ** The registry under confirmations and unsubscriptions *)

Section RemoveFacts.

Lemma remove_count_same (x : string) (l : list string) :
  Py.in_list x l = true ->
  count_occ string_dec (Py.remove x l) x + 1 = count_occ string_dec l x.
Proof.
  induction l as [|z l IH]; simpl; [discriminate |].
  rewrite (String.eqb_sym x z).
  destruct (String.eqb z x) eqn:Hzx; simpl.
  - intros _. apply String.eqb_eq in Hzx. subst z.
    destruct (string_dec x x); [lia | congruence].
  - intros Hin. apply String.eqb_neq in Hzx.
    destruct (string_dec z x); [congruence |]. now apply IH.
Qed.

Lemma remove_count_other (x y : string) (l : list string) :
  x <> y -> count_occ string_dec (Py.remove x l) y = count_occ string_dec l y.
Proof.
  intros Hne. induction l as [|z l IH]; simpl; [reflexivity |].
  destruct (String.eqb z x) eqn:Hzx; simpl.
  - apply String.eqb_eq in Hzx. subst z.
    destruct (string_dec x y); [congruence | reflexivity].
  - destruct (string_dec z y); now rewrite IH.
Qed.

Lemma remove_app_last (x : string) (l : list string) :
  Py.in_list x l = false -> Py.remove x (l ++ [x]) = l.
Proof.
  induction l as [|z l IH]; simpl.
  - intros _. now rewrite String.eqb_refl.
  - rewrite (String.eqb_sym x z). destruct (String.eqb z x); simpl; [discriminate |].
    intros H. now rewrite IH.
Qed.

Lemma in_list_app_last (x : string) (l : list string) :
  Py.in_list x (l ++ [x]) = true.
Proof.
  apply in_list_spec, elem_of_app. right. now apply list_elem_of_singleton.
Qed.

Lemma registry_saved (r : gmap string (list string)) (w : world) :
  registry (saved r w) = r.
Proof. reflexivity. Qed.

End RemoveFacts.

(** X1: for a known city and a valid unsubscribe token, when the
    normalised address is registered for the city, [unsubscribe] succeeds
    with "You've been unsubscribed", writes [subscribers.json] once, and
    removes exactly one occurrence of that address from that city's list;
    every other address and every other city keeps its count, and
    [state.json] is not touched. *)
Theorem unsubscribe_removes_one (E : env) (email city token : string) (w : world) :
  Py.in_list (normalize city) CITIES = true ->
  Handlers.verify_token E (normalize email) (normalize city) token "unsubscribe" = true ->
  Py.in_list (normalize email) (entries w (normalize city)) = true ->
  exists w1,
    Handlers.unsubscribe E email city token w
    = (Ret (true, "You've been unsubscribed"), w1)
    /\ trace w1 = trace w ++ [EvSaveSubscribers (registry w1)]
    /\ state_json w1 = state_json w
    /\ occurrences w1 (normalize city) (normalize email) + 1
       = occurrences w (normalize city) (normalize email)
    /\ (forall c' e', (c', e') <> (normalize city, normalize email) ->
          occurrences w1 c' e' = occurrences w c' e').
Proof.
  intros Hcity Htoken Hin.
  rewrite unsubscribe_cases. cbv zeta. rewrite Hcity, Htoken, Hin. cbn [negb].
  eexists. split; [reflexivity |].
  split; [reflexivity |]. split; [reflexivity |].
  unfold occurrences. split.
  - rewrite entries_saved_same. now apply remove_count_same.
  - intros c' e' Hne. destruct (decide (normalize city = c')) as [<- | Hc].
    + rewrite entries_saved_same. apply remove_count_other. congruence.
    + now rewrite entries_saved_other.
Qed.

(** X2: confirming a new address and then unsubscribing it, each with its
    valid token, gives back the lists the registry started with, for
    every city; both calls succeed. *)
Theorem confirm_then_unsubscribe (E : env) (email city t_confirm t_unsubscribe : string)
    (w : world) :
  Py.in_list (normalize city) CITIES = true ->
  Handlers.verify_token E (normalize email) (normalize city) t_confirm "confirm" = true ->
  Handlers.verify_token E (normalize email) (normalize city) t_unsubscribe "unsubscribe" = true ->
  Py.in_list (normalize email) (entries w (normalize city)) = false ->
  exists w1 w2,
    Handlers.confirm_subscription E email city t_confirm w
    = (Ret (true, "You're subscribed! You'll only hear from us when prices hit bottom."), w1)
    /\ Handlers.unsubscribe E email city t_unsubscribe w1
       = (Ret (true, "You've been unsubscribed"), w2)
    /\ (forall c', entries w2 c' = entries w c').
Proof.
  intros Hcity Hconfirm Hunsub Habsent.
  rewrite confirm_subscription_cases. cbv zeta.
  rewrite Hcity, Hconfirm, Habsent. cbn [negb].
  eexists _, _. split; [reflexivity |].
  rewrite unsubscribe_cases. cbv zeta. rewrite Hcity, Hunsub. cbn [negb].
  rewrite entries_saved_same, in_list_app_last.
  split; [reflexivity |].
  intros c'. rewrite remove_app_last by exact Habsent.
  rewrite registry_saved.
  destruct (decide (normalize city = c')) as [<- | Hc].
  - apply entries_saved_same.
  - unfold entries at 1, registry at 1, saved. cbn [subscribers_json].
    rewrite !lookup_insert_ne by exact Hc. reflexivity.
Qed.

(** X3: no sequence of signups, confirmations and unsubscriptions
    registers an address twice for a city, from any registry that holds
    each address at most once per city. *)
Theorem no_duplicates_invariant (E : env) (actions : list action) (w : world) :
  no_duplicates w -> Forall no_duplicates (worlds_after E actions w).
Proof.
  revert w. induction actions as [|a actions IH]; intros w Hw; simpl; constructor.
  - now apply perform_no_duplicates.
  - apply IH. now apply perform_no_duplicates.
Qed.

Section UnknownCity.
Variable E : env.

Lemma perform_unknown_city (a : action) (w : world) (c : string) :
  Py.in_list c CITIES = false ->
  registry (snd (perform E a w)) !! c = registry w !! c.
Proof.
  intros Hc. destruct a as [email city | email city token | email city token]; simpl.
  - unfold registry. destruct (process_signup_effect E email city w) as (_ & -> & _).
    reflexivity.
  - rewrite confirm_subscription_cases. cbv zeta.
    destruct (Py.in_list (normalize city) CITIES) eqn:Hk; cbn [negb]; [| reflexivity].
    destruct (negb _); [reflexivity |].
    destruct (Py.in_list _ (entries _ _)); [reflexivity |].
    cbn [snd]. rewrite registry_saved. apply lookup_insert_ne. congruence.
  - rewrite unsubscribe_cases. cbv zeta.
    destruct (Py.in_list (normalize city) CITIES) eqn:Hk; cbn [negb]; [| reflexivity].
    destruct (negb _); [reflexivity |].
    destruct (Py.in_list _ (entries _ _)); [| reflexivity].
    cbn [snd]. rewrite registry_saved. apply lookup_insert_ne. congruence.
Qed.

End UnknownCity.

(** X4: a city outside the known five is never given an entry and an
    entry it has in the file is never changed, whatever actions are
    performed. *)
Theorem unknown_city_untouched (E : env) (actions : list action) (w : world) (c : string) :
  Py.in_list c CITIES = false ->
  Forall (fun w' => registry w' !! c = registry w !! c) (worlds_after E actions w).
Proof.
  intros Hc. generalize (eq_refl (registry w !! c)).
  generalize (registry w !! c) at 2 3 as r. revert w.
  induction actions as [|a actions IH]; intros w r Hw; simpl; constructor.
  - now rewrite perform_unknown_city.
  - apply IH. now rewrite perform_unknown_city.
Qed.

(** The kind of an event. *)
Inductive kind := WritesState | WritesSubscribers | SendsEmail.

Definition kind_of (e : event) : kind :=
  match e with
  | EvSaveState _ => WritesState
  | EvSaveSubscribers _ => WritesSubscribers
  | EvSendEmail _ _ => SendsEmail
  end.

Section Writers.
Variable E : env.

Lemma handlers_effect (email city token : string) (w : world) :
  forall w', w' = snd (Handlers.confirm_subscription E email city token w)
             \/ w' = snd (Handlers.unsubscribe E email city token w) ->
  state_json w' = state_json w
  /\ exists evs, trace w' = trace w ++ evs
       /\ Forall (fun e => kind_of e = WritesSubscribers) evs.
Proof.
  assert (forall r, state_json (saved r w) = state_json w
            /\ exists evs, trace (saved r w) = trace w ++ evs
                 /\ Forall (fun e => kind_of e = WritesSubscribers) evs) as Hsaved.
  { intros r. split; [reflexivity |]. eexists. split; [reflexivity |].
    repeat constructor. }
  assert (state_json w = state_json w
          /\ exists evs, trace w = trace w ++ evs
               /\ Forall (fun e => kind_of e = WritesSubscribers) evs) as Hsame.
  { split; [reflexivity |]. exists []. split; [now rewrite app_nil_r | constructor]. }
  intros w' [-> | ->].
  - rewrite confirm_subscription_cases. cbv zeta.
    destruct (negb _); [exact Hsame |]. destruct (negb _); [exact Hsame |].
    destruct (Py.in_list _ _); [exact Hsame | apply Hsaved].
  - rewrite unsubscribe_cases. cbv zeta.
    destruct (negb _); [exact Hsame |]. destruct (negb _); [exact Hsame |].
    destruct (Py.in_list _ _); [apply Hsaved | exact Hsame].
Qed.

Lemma main_effect (w : world) :
  subscribers_json (snd (Main.main E w)) = subscribers_json w
  /\ exists evs, trace (snd (Main.main E w)) = trace w ++ evs
       /\ Forall (fun e => kind_of e <> WritesSubscribers) evs.
Proof.
  unfold Main.main. destruct (accc_page E) as [html|].
  2: { split; [reflexivity |]. exists []. split; [now rewrite app_nil_r | constructor]. }
  set (tips := Main.tips_of E html).
  unfold bind. rewrite load_state_previous.
  destruct (Main.classify_cities tips (previous_state_of w))
    as [current_state transitions].
  unfold Main.save_state.
  set (w1 := World (Some current_state) (subscribers_json w)
               (trace w ++ [EvSaveState current_state])).
  assert (forall w2, only_sends w1 w2 ->
            subscribers_json w2 = subscribers_json w
            /\ exists evs, trace w2 = trace w ++ evs
                 /\ Forall (fun e => kind_of e <> WritesSubscribers) evs) as Hafter.
  { intros w2 (_ & Hsubs & sends & Htr & Hsends). split; [exact Hsubs |].
    exists (EvSaveState current_state :: sends). split.
    - rewrite Htr. subst w1. cbn [trace]. now rewrite <- app_assoc.
    - constructor; [discriminate |].
      eapply Forall_impl; [exact Hsends |]. intros [] He; try contradiction; discriminate. }
  destruct transitions as [|city transitions].
  - apply Hafter, only_sends_refl.
  - pose proof (dispatch_only_sends E tips (city :: transitions) w1) as Hd.
    destruct (Main.dispatch E tips (city :: transitions) w1) as [[[]|] w2];
      cbn [snd] in *; now apply Hafter.
Qed.

End Writers.

(** X5: each file has one writer.  A signup, a confirmation or an
    unsubscription never writes [state.json]; the two handlers send no
    e-mail, all they add to the trace is writes of [subscribers.json]; and
    a scheduled run never writes [subscribers.json]. *)
Theorem each_file_has_one_writer (E : env) (w : world) :
  (forall a, state_json (snd (perform E a w)) = state_json w
             /\ exists evs, trace (snd (perform E a w)) = trace w ++ evs
                  /\ Forall (fun e => kind_of e <> WritesState) evs)
  /\ (forall email city token w',
        w' = snd (Handlers.confirm_subscription E email city token w)
        \/ w' = snd (Handlers.unsubscribe E email city token w) ->
        exists evs, trace w' = trace w ++ evs
          /\ Forall (fun e => kind_of e = WritesSubscribers) evs)
  /\ subscribers_json (snd (Main.main E w)) = subscribers_json w
  /\ exists evs, trace (snd (Main.main E w)) = trace w ++ evs
       /\ Forall (fun e => kind_of e <> WritesSubscribers) evs.
Proof.
  split; [| split; [| apply main_effect]].
  - intros [email city | email city token | email city token]; simpl.
    + destruct (process_signup_effect E email city w) as (Hst & _ & Htr).
      split; [exact Hst |]. destruct Htr as [Htr | [phase Htr]].
      * exists []. split; [now rewrite app_nil_r | constructor].
      * eexists. split; [exact Htr |]. repeat constructor. discriminate.
    + destruct (handlers_effect E email city token w _ (or_introl eq_refl))
        as (Hst & evs & Htr & Hk).
      split; [exact Hst |]. exists evs. split; [exact Htr |].
      eapply Forall_impl; [exact Hk |]. intros e ->. discriminate.
    + destruct (handlers_effect E email city token w _ (or_intror eq_refl))
        as (Hst & evs & Htr & Hk).
      split; [exact Hst |]. exists evs. split; [exact Htr |].
      eapply Forall_impl; [exact Hk |]. intros e ->. discriminate.
  - intros email city token w' Hw'.
    now destruct (handlers_effect E email city token w w' Hw') as (_ & H).
Qed.

(** ** Signup, and the tokens that are mailed *)

(** The world after a call of [send_email]: the call is recorded whether
    the e-mail is posted to the mail service or, in a dry run without an
    API key, only printed. *)
Definition mailed (to_email : string) (m : mail) (w : world) : world :=
  World (state_json w) (subscribers_json w) (trace w ++ [EvSendEmail to_email m]).

(** The phase quoted in a confirmation e-mail. *)
Definition quoted_phase (w : world) (city : string) : string :=
  match state_json w with
  | Some state => default "UNKNOWN" (state !! city)
  | None => "UNKNOWN"
  end.

Section SignupFacts.
Variable E : env.

(** The ways [process_signup] ends. *)
Lemma process_signup_cases (email city : string) (w : world) :
  let e := normalize email in
  let c := normalize city in
  let w' := mailed e (Confirmation c (confirm_url E e c) (quoted_phase w c)) w in
  Signup.process_signup E email city w
  = if negb (Signup.is_valid_email e) then (Ret (false, "Invalid email address"), w)
    else if negb (Py.in_list c CITIES)
    then (Ret (false, "Invalid city. Choose from: " +:+ join ", " CITIES), w)
    else if Py.in_list e (entries w c)
    then (Ret (false, "This email is already subscribed"), w)
    else if String.eqb (RESEND_API_KEY E) ""
    then (Ret (true, "Check your inbox to confirm"), w')
    else match resend E (trace w) with
         | Accepted => (Ret (true, "Check your inbox to confirm"), w')
         | Rejected => (Ret (false, "Failed to send confirmation email"), w')
         | Failed => (Raise, w')
         end.
Proof.
  intros e c w'. unfold Signup.process_signup.
  fold (normalize email) (normalize city). fold e c.
  destruct (negb (Signup.is_valid_email e)); [reflexivity |].
  destruct (negb (Py.in_list c CITIES)); [reflexivity |].
  unfold bind, Signup.load_subscribers, Signup.send_confirmation_email, bind,
    Signup.load_state, Signup.send_email, ret.
  fold (confirm_url E e c). subst w'. unfold mailed, quoted_phase, entries, registry.
  destruct w as [[st|] [subs|] tr]; cbn [state_json subscribers_json trace];
    (destruct (Py.in_list e _); [reflexivity |]);
    cbn [state_json subscribers_json trace];
    (destruct (String.eqb (RESEND_API_KEY E) ""); [reflexivity |]);
    destruct (resend E tr); reflexivity.
Qed.

Lemma known_city_normalized (city : string) :
  Py.in_list city CITIES = true -> normalize city = city.
Proof.
  intros H. apply in_list_spec in H. unfold CITIES in H.
  repeat (apply elem_of_cons in H as [-> | H]; [reflexivity |]).
  now apply elem_of_nil in H.
Qed.

Lemma normalized_normalize (e : string) : normalized e -> normalize e = e.
Proof. intros [Hl Hs]. unfold normalize. now rewrite Hl, Hs. Qed.

Lemma normalize_idem (s : string) : normalize (normalize s) = normalize s.
Proof. apply normalized_normalize, normalize_normalized. Qed.

End SignupFacts.

(** X6: a signup with an address that, lower-cased and trimmed, fails
    validation, with a city that, lower-cased and trimmed, is not known,
    or with an address already registered for the city is refused with a
    message, and nothing happens: [send_email] is not called and the world
    is as it was. *)
Theorem signup_refusal_has_no_effect (E : env) (email city : string) (w : world) :
  Signup.is_valid_email (normalize email) = false
  \/ Py.in_list (normalize city) CITIES = false
  \/ Py.in_list (normalize email) (entries w (normalize city)) = true ->
  exists msg, msg <> ""
    /\ Signup.process_signup E email city w = (Ret (false, msg), w).
Proof.
  intros H. rewrite process_signup_cases. cbv zeta.
  destruct (Signup.is_valid_email (normalize email)); cbn [negb]; [| refused].
  destruct (Py.in_list (normalize city) CITIES); cbn [negb]; [| refused].
  destruct H as [H | [H | H]]; try discriminate. rewrite H. refused.
Qed.

(** X7: the token a signup mails confirms that signup.  When a signup
    succeeds, the address was valid, the city known and the address not
    yet registered; [send_email] was called exactly once, for the
    normalised address, with a link made of the normalised address, the
    normalised city and the confirm token of that pair; and
    [confirm_subscription], given that token with any spelling of the
    address and the city that normalises to the same pair (the ones typed
    at the signup, or the ones that stand in the link), registers the
    address, as long as the registry has not changed meanwhile.  The link
    is built without URL escaping: what a browser and [parse_qs] make of
    its query string is not part of this statement. *)
Theorem signup_then_confirm (E : env) (email city msg : string) (w w1 : world) :
  Signup.process_signup E email city w = (Ret (true, msg), w1) ->
  let e := normalize email in
  let c := normalize city in
  let token := Signup.generate_token E e c "confirm" in
  Signup.is_valid_email e = true
  /\ Py.in_list c CITIES = true
  /\ Py.in_list e (entries w c) = false
  /\ w1 = mailed e (Confirmation c (confirm_url E e c) (quoted_phase w c)) w
  /\ confirm_url E e c
     = SITE_URL E +:+ "/confirm.html?email=" +:+ e +:+ "&city=" +:+ c
       +:+ "&token=" +:+ token
  /\ normalize e = e
  /\ normalize c = c
  /\ forall email' city',
      normalize email' = e -> normalize city' = c ->
      exists w2,
        Handlers.confirm_subscription E email' city' token w1
        = (Ret (true, "You're subscribed! You'll only hear from us when prices hit bottom."), w2)
        /\ entries w2 c = entries w c ++ [e].
Proof.
  intros Hsignup e c token. rewrite process_signup_cases in Hsignup.
  cbv zeta in Hsignup. fold e c in Hsignup.
  destruct (Signup.is_valid_email e); cbn [negb] in Hsignup; [| discriminate].
  destruct (Py.in_list c CITIES) eqn:Hcity; cbn [negb] in Hsignup; [| discriminate].
  destruct (Py.in_list e (entries w c)) eqn:Habsent; [discriminate |].
  assert (w1 = mailed e (Confirmation c (confirm_url E e c) (quoted_phase w c)) w) as ->.
  { destruct (String.eqb (RESEND_API_KEY E) ""); [congruence |].
    destruct (resend E (trace w)); congruence. }
  do 5 (split; [reflexivity |]).
  split; [apply normalize_idem |]. split; [apply normalize_idem |].
  intros email' city' He Hc.
  rewrite confirm_subscription_cases. cbv zeta. rewrite He, Hc, Hcity. cbn [negb].
  assert (Handlers.verify_token E e c token "confirm" = true) as ->
    by apply String.eqb_refl.
  cbn [negb].
  assert (forall c', entries (mailed e (Confirmation c (confirm_url E e c)
                                          (quoted_phase w c)) w) c'
                     = entries w c') as Hent by reflexivity.
  rewrite Hent, Habsent.
  eexists. split; [reflexivity |]. apply entries_saved_same.
Qed.

(** X8: the token in an alert unsubscribes the address it was issued
    for.  [send_buy_alert] calls [send_email] once, for the subscriber,
    with a link made of the address and the city it is given, as the
    registry holds them, and the unsubscribe token of that pair; and for
    a known city and a normalised address, [unsubscribe], given that
    address, city and token, removes the address whenever it is
    registered.  The link is built without URL escaping: what a browser
    and [parse_qs] make of its query string is not part of this
    statement. *)
Theorem alert_link_unsubscribes (E : env) (email city tip : string) (w w' : world) :
  Py.in_list city CITIES = true ->
  normalized email ->
  Py.in_list email (entries w' city) = true ->
  let token := Main.generate_token E email city "unsubscribe" in
  trace (snd (Main.send_buy_alert E email city tip w))
  = trace w ++ [EvSendEmail email
                  (BuyAlert city (SITE_URL E +:+ "/unsubscribe.html?email=" +:+ email
                                  +:+ "&city=" +:+ city +:+ "&token=" +:+ token))]
  /\ Handlers.unsubscribe E email city token w'
     = (Ret (true, "You've been unsubscribed"),
        saved (<[city := Py.remove email (entries w' city)]> (registry w')) w').
Proof.
  intros Hcity Hnorm Hin token. split.
  - unfold Main.send_buy_alert, Main.send_email. fold token.
    destruct (String.eqb _ _); [reflexivity |].
    destruct (resend E (trace w)); reflexivity.
  - rewrite unsubscribe_cases. cbv zeta.
    rewrite (known_city_normalized city Hcity), (normalized_normalize email Hnorm).
    rewrite Hcity, Hin. cbn [negb].
    assert (Handlers.verify_token E email city token "unsubscribe" = true) as ->
      by apply String.eqb_refl.
    reflexivity.
Qed.

(** ** The scheduled run *)

(** The call of [send_email] that [send_buy_alert] makes for one subscriber
    of a city. *)
Definition alert_of (E : env) (email city : string) : event :=
  EvSendEmail email
    (BuyAlert city
       (SITE_URL E +:+ "/unsubscribe.html?email=" +:+ email +:+ "&city=" +:+ city
        +:+ "&token=" +:+ Main.generate_token E email city "unsubscribe")).

(** A city went from WAIT to BUY: [state.json] has it as WAIT and its tip
    is now classified BUY. *)
Definition wait_to_buy (tips : gmap string string) (w : world) (city : string) : bool :=
  String.eqb (default "UNKNOWN" (previous_state_of w !! city)) "WAIT"
  && String.eqb (Main.classify_phase (default "" (tips !! city))) "BUY".

(** The alerts due for a list of cities: for each city, in order, one to
    each address registered for it, in order. *)
Definition planned_alerts (E : env) (w : world) (cities : list string) : list event :=
  concat (map (fun city => map (fun email => alert_of E email city) (entries w city))
            cities).

(** The alerts for one city among some events. *)
Definition alerts_for (city : string) (evs : list event) : list event :=
  List.filter
    (fun ev => match ev with
               | EvSendEmail _ (BuyAlert c _) => String.eqb c city
               | _ => false
               end) evs.

(** A world with more events in its trace. *)
Definition extended (w : world) (evs : list event) : world :=
  World (state_json w) (subscribers_json w) (trace w ++ evs).

(** No call of the mail service raises: there is no API key (dry run), or
    the service always answers. *)
Definition never_raises (E : env) : Prop :=
  RESEND_API_KEY E = "" \/ forall tr, resend E tr <> Failed.

(** A statement that emits [evs] and returns, or raises after emitting
    some of them. *)
Definition emits (evs : list event) (m : M unit) (w : world) : Prop :=
  m w = (Ret tt, extended w evs)
  \/ exists done, done `prefix_of` evs /\ m w = (Raise, extended w done).

Section PlanFacts.
Variable E : env.

Lemma extended_nil (w : world) : extended w [] = w.
Proof. destruct w. unfold extended. cbn. now rewrite app_nil_r. Qed.

Lemma extended_app (w : world) (a b : list event) :
  extended (extended w a) b = extended w (a ++ b).
Proof. unfold extended. cbn. now rewrite <- app_assoc. Qed.

Lemma concat_singletons {A B} (f : A -> B) (l : list A) :
  concat (map (fun x => [f x]) l) = map f l.
Proof. induction l as [|x l IH]; simpl; [reflexivity | now rewrite IH]. Qed.

Lemma for_each_emits {A} (evs : A -> list event) (body : A -> M unit) (l : list A) :
  (forall x w, emits (evs x) (body x) w) ->
  forall w, emits (concat (map evs l)) (for_each l body) w.
Proof.
  unfold emits. intros Hbody. induction l as [|x l IH]; intros w; simpl.
  - left. unfold ret. now rewrite extended_nil.
  - unfold bind. destruct (Hbody x w) as [Hx | (done & Hpre & Hx)]; rewrite Hx.
    + destruct (IH (extended w (evs x))) as [Hl | (done & Hpre & Hl)]; rewrite Hl.
      * left. now rewrite extended_app.
      * right. exists (evs x ++ done). split; [now apply prefix_app |].
        now rewrite extended_app.
    + right. exists done. split; [| reflexivity].
      now apply prefix_app_r.
Qed.

Lemma for_each_returns {A} (evs : A -> list event) (body : A -> M unit) (l : list A) :
  (forall x w, body x w = (Ret tt, extended w (evs x))) ->
  forall w, for_each l body w = (Ret tt, extended w (concat (map evs l))).
Proof.
  intros Hbody. induction l as [|x l IH]; intros w; simpl.
  - unfold ret. now rewrite extended_nil.
  - unfold bind. rewrite Hbody, IH. now rewrite extended_app.
Qed.

Lemma send_buy_alert_result (email city tip : string) (w : world) :
  exists r, Main.send_buy_alert E email city tip w
            = (r, extended w [alert_of E email city])
            /\ (never_raises E -> r <> Raise).
Proof.
  unfold Main.send_buy_alert, Main.send_email, never_raises.
  fold (alert_of E email city). fold (extended w [alert_of E email city]).
  destruct (String.eqb (RESEND_API_KEY E) "") eqn:Hkey.
  - eexists. split; [reflexivity | discriminate].
  - apply String.eqb_neq in Hkey.
    destruct (resend E (trace w)) eqn:Hr; eexists; (split; [reflexivity |]);
      try discriminate.
    intros [Hk | Hn]; [congruence | now apply Hn in Hr].
Qed.

Lemma dispatch_unfold (tips : gmap string string) (transitions : list string) (w : world) :
  Main.dispatch E tips transitions w
  = for_each transitions
      (fun city => for_each (entries w city)
         (fun email => do! Main.send_buy_alert E email city (default "" (tips !! city))
                       in ret tt)) w.
Proof.
  unfold Main.dispatch. unfold bind at 1.
  assert (Main.load_subscribers w = (Ret (registry w), w)) as ->.
  { unfold Main.load_subscribers, registry. now destruct (subscribers_json w). }
  reflexivity.
Qed.

Lemma dispatch_emits (tips : gmap string string) (transitions : list string) (w : world) :
  emits (planned_alerts E w transitions) (Main.dispatch E tips transitions) w
  /\ (never_raises E ->
      Main.dispatch E tips transitions w
      = (Ret tt, extended w (planned_alerts E w transitions))).
Proof.
  unfold emits. rewrite !dispatch_unfold. unfold planned_alerts. split.
  - apply (for_each_emits (fun city => map (fun email => alert_of E email city)
                                         (entries w city))).
    intros city w1.
    pose proof (for_each_emits (fun email => [alert_of E email city])
                  (fun email => do! Main.send_buy_alert E email city
                                      (default "" (tips !! city)) in ret tt)
                  (entries w city)) as Hin.
    rewrite concat_singletons in Hin. apply Hin. clear Hin.
    intros email w2. unfold emits, bind.
    destruct (send_buy_alert_result email city (default "" (tips !! city)) w2)
      as ([b|] & -> & _).
    + now left.
    + right. exists [alert_of E email city]. split; reflexivity.
  - intros Hnever.
    apply (for_each_returns (fun city => map (fun email => alert_of E email city)
                                           (entries w city))).
    intros city w1.
    pose proof (for_each_returns (fun email => [alert_of E email city])
                  (fun email => do! Main.send_buy_alert E email city
                                      (default "" (tips !! city)) in ret tt)
                  (entries w city)) as Hin.
    rewrite concat_singletons in Hin. apply Hin. clear Hin.
    intros email w2. unfold bind.
    destruct (send_buy_alert_result email city (default "" (tips !! city)) w2)
      as ([b|] & -> & Hr); [reflexivity |].
    now destruct (Hr Hnever).
Qed.

(** [main] after a successful fetch, step by step. *)
Lemma main_fetched (html : string) (w : world) :
  accc_page E = Some html ->
  let tips := Main.tips_of E html in
  let new_state := fst (Main.classify_cities tips (previous_state_of w)) in
  let transitions := snd (Main.classify_cities tips (previous_state_of w)) in
  let w1 := World (Some new_state) (subscribers_json w)
              (trace w ++ [EvSaveState new_state]) in
  Main.main E w
  = match transitions with
    | [] => (Ret 0%Z, w1)
    | _ => match Main.dispatch E tips transitions w1 with
           | (Ret _, w2) => (Ret 0%Z, w2)
           | (Raise, w2) => (Raise, w2)
           end
    end.
Proof.
  intros Hpage. cbv zeta. unfold Main.main. rewrite Hpage.
  unfold bind at 1. rewrite load_state_previous.
  destruct (Main.classify_cities _ _) as [current_state transitions].
  cbn [fst snd]. unfold bind, Main.save_state, ret.
  destruct transitions; reflexivity.
Qed.

End PlanFacts.

Section RunTheorems.
Variable E : env.

Lemma no_transitions (tips previous_state : gmap string string) :
  (forall city, city ∈ CITIES ->
     Main.shouldAlert (default "UNKNOWN" (previous_state !! city))
       (Main.classify_phase (default "" (tips !! city))) = false) ->
  snd (Main.classify_cities tips previous_state) = [].
Proof.
  intros Hno.
  destruct (snd (Main.classify_cities tips previous_state)) as [|city l] eqn:Htr;
    [reflexivity |].
  assert (city ∈ snd (Main.classify_cities tips previous_state)) as Hin
    by (rewrite Htr; left).
  apply transitions_spec in Hin as [Hc Ha]. unfold alerts, phase_of in Ha.
  rewrite (Hno city Hc) in Ha. discriminate.
Qed.

Lemma new_state_independent (tips p1 p2 : gmap string string) :
  fst (Main.classify_cities tips p1) = fst (Main.classify_cities tips p2).
Proof.
  unfold Main.classify_cities. now rewrite !classify_cities_fold.
Qed.

Lemma shouldAlert_same (p : string) : Main.shouldAlert p p = false.
Proof.
  unfold Main.shouldAlert. destruct (String.eqb p "WAIT") eqn:H; [| reflexivity].
  apply String.eqb_eq in H. now subst.
Qed.


End RunTheorems.

Section PlanCount.
Variable E : env.

Lemma alerts_for_same (w : world) (city : string) (l : list string) :
  alerts_for city (map (fun email => alert_of E email city) l)
  = map (fun email => alert_of E email city) l.
Proof.
  induction l as [|email l IH]; [reflexivity |].
  cbn. rewrite String.eqb_refl. f_equal. exact IH.
Qed.

Lemma alerts_for_other (w : world) (city city' : string) (l : list string) :
  city' <> city ->
  alerts_for city (map (fun email => alert_of E email city') l) = [].
Proof.
  intros Hne. induction l as [|email l IH]; [reflexivity |].
  cbn. apply String.eqb_neq in Hne. rewrite Hne. exact IH.
Qed.

Lemma alerts_for_plan (w : world) (city : string) (cities : list string) :
  NoDup cities ->
  alerts_for city (planned_alerts E w cities)
  = if Py.in_list city cities
    then map (fun email => alert_of E email city) (entries w city)
    else [].
Proof.
  unfold planned_alerts, alerts_for.
  induction 1 as [|city' cities Hnew Hnodup IH]; [reflexivity |].
  cbn [map concat]. rewrite List.filter_app.
  fold (alerts_for city (map (fun email => alert_of E email city') (entries w city'))).
  rewrite IH.
  change (Py.in_list city (city' :: cities))
    with (String.eqb city city' || Py.in_list city cities).
  destruct (String.eqb_spec city city') as [<- | Hne]; cbn [orb].
  - rewrite (alerts_for_same w).
    assert (Py.in_list city cities = false) as ->; [| apply app_nil_r].
    apply not_true_iff_false. intros Hin. apply Hnew. now apply in_list_spec in Hin.
  - rewrite (alerts_for_other w) by congruence. reflexivity.
Qed.

Lemma transitions_filter (tips : gmap string string) (w : world) :
  snd (Main.classify_cities tips (previous_state_of w))
  = List.filter (wait_to_buy tips w) CITIES.
Proof.
  unfold Main.classify_cities. rewrite classify_cities_fold. reflexivity.
Qed.

Lemma cities_distinct : NoDup CITIES.
Proof. apply (bool_decide_unpack _). vm_compute. exact I. Qed.

Lemma filter_distinct (f : string -> bool) (l : list string) :
  NoDup l -> NoDup (List.filter f l).
Proof.
  induction 1 as [|x l Hnew Hnodup IH]; simpl; [constructor |].
  destruct (f x); [| exact IH]. constructor; [| exact IH].
  rewrite list_elem_of_In, filter_In. intros [Hin _].
  apply Hnew. now apply list_elem_of_In.
Qed.

End PlanCount.

(** X9: after a successful fetch a run calls [send_email] for the alerts
    due, in order, and for nothing else: for each known city whose phase
    went from WAIT to BUY, taken once and in the order of [CITIES], one
    alert to each address registered for it, in the order of the registry,
    each with that address's unsubscribe link; for any other city, none.
    (Without an API key [send_email] only prints what it would send.)  A
    send the mail service refuses does not stop the run; the run returns 0
    with the whole plan done, unless a send raises, and then it ends there
    with the alerts up to that one attempted and the others not.  Before
    the first of them the run has written the new state, which gives each
    known city the phase its tip is classified as. *)
Theorem alerts_follow_plan (E : env) (html : string) (w : world) :
  accc_page E = Some html ->
  let tips := Main.tips_of E html in
  let plan := planned_alerts E w (List.filter (wait_to_buy tips w) CITIES) in
  (forall city,
     alerts_for city plan
     = if Py.in_list city CITIES && wait_to_buy tips w city
       then map (fun email => alert_of E email city) (entries w city)
       else [])
  /\ exists new_state,
      (forall city,
         new_state !! city
         = if Py.in_list city CITIES
           then Some (Main.classify_phase (default "" (tips !! city)))
           else None)
      /\ let w1 := World (Some new_state) (subscribers_json w)
                     (trace w ++ [EvSaveState new_state]) in
         (Main.main E w = (Ret 0%Z, extended w1 plan)
          \/ exists done, done `prefix_of` plan
               /\ Main.main E w = (Raise, extended w1 done))
         /\ (never_raises E -> Main.main E w = (Ret 0%Z, extended w1 plan)).
Proof.
  intros Hpage tips plan. split.
  - intros city. subst plan. rewrite alerts_for_plan.
    + destruct (Py.in_list city (List.filter (wait_to_buy tips w) CITIES)) eqn:Hin.
      * apply in_list_spec, list_elem_of_In, filter_In in Hin as [Hc Hw].
        apply list_elem_of_In, in_list_spec in Hc. now rewrite Hc, Hw.
      * destruct (Py.in_list city CITIES) eqn:Hc; [| reflexivity].
        destruct (wait_to_buy tips w city) eqn:Hw; [| reflexivity].
        apply not_true_iff_false in Hin. exfalso. apply Hin.
        apply in_list_spec, list_elem_of_In, filter_In. split; [| exact Hw].
        now apply list_elem_of_In, in_list_spec.
    + apply filter_distinct, cities_distinct.
  - exists (fst (Main.classify_cities tips (previous_state_of w))).
    split; [intros city; apply current_state_spec |].
    cbv zeta. rewrite (main_fetched E html w Hpage). fold tips.
    set (new_state := fst (Main.classify_cities tips (previous_state_of w))).
    set (w1 := World (Some new_state) (subscribers_json w)
                 (trace w ++ [EvSaveState new_state])).
    rewrite transitions_filter.
    destruct (dispatch_emits E tips (List.filter (wait_to_buy tips w) CITIES) w1)
      as [Hemits Hall].
    unfold emits in Hemits.
    change (planned_alerts E w1 (List.filter (wait_to_buy tips w) CITIES))
      with plan in Hemits, Hall.
    subst plan.
    destruct (List.filter (wait_to_buy tips w) CITIES) as [|city l].
    + change (planned_alerts E w []) with (@nil event). rewrite extended_nil.
      split; [now left | reflexivity].
    + split.
      * destruct Hemits as [-> | (done & Hpre & ->)]; [now left |].
        right. now exists done.
      * intros Hnever. now rewrite (Hall Hnever).
Qed.

(** X10: a run with no [state.json] yet never alerts: every city's
    previous phase counts as UNKNOWN, so whatever the tips say the run
    only writes the new state and returns 0. *)
Theorem first_run_never_alerts (E : env) (html : string) (w : world) :
  accc_page E = Some html ->
  state_json w = None ->
  let new_state := fst (Main.classify_cities (Main.tips_of E html) (previous_state_of w)) in
  Main.main E w
  = (Ret 0%Z, World (Some new_state) (subscribers_json w)
                (trace w ++ [EvSaveState new_state])).
Proof.
  intros Hpage Hnone new_state.
  rewrite (main_fetched E html w Hpage). cbv zeta.
  rewrite no_transitions; [reflexivity |].
  intros city _. unfold previous_state_of. rewrite Hnone.
  destruct ((for_all_cities "UNKNOWN" : gmap string string) !! city) as [p|] eqn:Hp;
    [| reflexivity].
  unfold for_all_cities in Hp. apply elem_of_list_to_map_2 in Hp.
  apply list_elem_of_In, in_map_iff in Hp. destruct Hp as (c & [= _ <-] & _).
  reflexivity.
Qed.

(** X11: an alert is sent once per opportunity.  Whatever a run over a
    fetched page did, the next run over the same page finds every city in
    the phase it is classified as, so it alerts nobody: it only writes
    the same state again and returns 0. *)
Theorem second_run_never_alerts (E : env) (html : string) (w : world) :
  accc_page E = Some html ->
  let new_state := fst (Main.classify_cities (Main.tips_of E html) (previous_state_of w)) in
  let w' := snd (Main.main E w) in
  state_json w' = Some new_state
  /\ Main.main E w'
     = (Ret 0%Z, World (Some new_state) (subscribers_json w')
                   (trace w' ++ [EvSaveState new_state])).
Proof.
  intros Hpage new_state w'.
  assert (state_json w' = Some new_state) as Hst.
  { subst w'. rewrite (main_fetched E html w Hpage). cbv zeta. fold new_state.
    destruct (snd (Main.classify_cities _ _)) as [|city l]; [reflexivity |].
    pose proof (dispatch_only_sends E (Main.tips_of E html) (city :: l)
                  (World (Some new_state) (subscribers_json w)
                     (trace w ++ [EvSaveState new_state]))) as (Hs & _).
    destruct (Main.dispatch _ _ _ _) as [[[]|] w2]; exact Hs. }
  split; [exact Hst |].
  rewrite (main_fetched E html w' Hpage). cbv zeta.
  rewrite (new_state_independent (Main.tips_of E html) (previous_state_of w')
             (previous_state_of w)).
  fold new_state. rewrite no_transitions; [reflexivity |].
  intros city Hc. unfold previous_state_of. rewrite Hst. subst new_state.
  rewrite current_state_spec.
  apply in_list_spec in Hc. rewrite Hc. cbn [from_option id].
  apply shouldAlert_same.
Qed.


(** ** The address grammar *)

(** The strings a regular expression denotes. *)
Inductive matches : Re.re -> string -> Prop :=
| MEps : matches Re.Eps ""
| MCls p c : p c = true -> matches (Re.Cls p) (String c "")
| MSeq r s a b : matches r a -> matches s b -> matches (Re.Seq r s) (a +:+ b)
| MAltL r s a : matches r a -> matches (Re.Alt r s) a
| MAltR r s a : matches s a -> matches (Re.Alt r s) a
| MStar0 r : matches (Re.Star r) ""
| MStarS r a b : matches r a -> matches (Re.Star r) b -> matches (Re.Star r) (a +:+ b).

(** [all(p(c) for c in s)] *)
Fixpoint all_chars (p : ascii -> bool) (s : string) : bool :=
  match s with
  | EmptyString => true
  | String c s' => p c && all_chars p s'
  end.

Section RegexFacts.

Lemma append_empty (a b : string) : a +:+ b = "" -> a = "" /\ b = "".
Proof. destruct a; simpl; [auto | discriminate]. Qed.

Lemma matches_void_inv (x : string) : ~ matches Re.Void x.
Proof. intros H. inversion H. Qed.

Lemma matches_eps_inv (x : string) : matches Re.Eps x -> x = "".
Proof. intros H. now inversion H. Qed.

Lemma matches_cls_inv (p : ascii -> bool) (x : string) :
  matches (Re.Cls p) x -> exists c, x = String c "" /\ p c = true.
Proof. intros H. inversion H; subst. eauto. Qed.

Lemma matches_seq_inv (r s : Re.re) (x : string) :
  matches (Re.Seq r s) x -> exists a b, x = a +:+ b /\ matches r a /\ matches s b.
Proof. intros H. inversion H; subst. eauto. Qed.

Lemma matches_alt_inv (r s : Re.re) (x : string) :
  matches (Re.Alt r s) x -> matches r x \/ matches s x.
Proof. intros H. inversion H; subst; auto. Qed.

Lemma nullable_spec (r : Re.re) : Re.nullable r = true <-> matches r "".
Proof.
  induction r as [| | p | r IHr s IHs | r IHr s IHs | r IHr]; simpl.
  - split; [discriminate | intros H; now apply matches_void_inv in H].
  - split; [constructor | reflexivity].
  - split; [discriminate |]. intros H.
    apply matches_cls_inv in H as (c & H & _). discriminate.
  - rewrite andb_true_iff, IHr, IHs. split.
    + intros [Hr Hs]. apply (MSeq _ _ "" "" Hr Hs).
    + intros H. apply matches_seq_inv in H as (a & b & Heq & Ha & Hb).
      symmetry in Heq. apply append_empty in Heq as [-> ->]. auto.
  - rewrite orb_true_iff, IHr, IHs. split.
    + intros [H | H]; [now apply MAltL | now apply MAltR].
    + apply matches_alt_inv.
  - split; [constructor | reflexivity].
Qed.

Lemma seq_spec (r s : Re.re) (x : string) :
  matches (Re.seq r s) x <-> matches (Re.Seq r s) x.
Proof.
  assert (matches (Re.Seq r s) x -> r <> Re.Void /\ s <> Re.Void) as Hvoid.
  { intros H. apply matches_seq_inv in H as (a & b & _ & Ha & Hb).
    split; intros ->; eapply matches_void_inv; eauto. }
  assert (matches (Re.Seq Re.Eps s) x <-> matches s x) as Heps.
  { split.
    - intros H. apply matches_seq_inv in H as (a & b & -> & Ha & Hb).
      apply matches_eps_inv in Ha. now subst.
    - intros H. apply (MSeq _ _ "" x); [constructor | exact H]. }
  destruct r; destruct s; simpl; try reflexivity; try exact (iff_sym Heps);
    (split; [intros H; now apply matches_void_inv in H |
             intros H; apply Hvoid in H as [? ?]; congruence]).
Qed.

Lemma alt_spec (r s : Re.re) (x : string) :
  matches (Re.alt r s) x <-> matches (Re.Alt r s) x.
Proof.
  assert (matches r x -> matches (Re.Alt r s) x) as Hl by apply MAltL.
  assert (matches s x -> matches (Re.Alt r s) x) as Hr by apply MAltR.
  assert (matches (Re.Alt r s) x -> r = Re.Void -> matches s x) as Hvl.
  { intros H ->. apply matches_alt_inv in H as [H | H];
      [now apply matches_void_inv in H | exact H]. }
  assert (matches (Re.Alt r s) x -> s = Re.Void -> matches r x) as Hvr.
  { intros H ->. apply matches_alt_inv in H as [H | H];
      [exact H | now apply matches_void_inv in H]. }
  destruct r; destruct s; simpl; try reflexivity;
    (split; [intros H; auto | intros H; auto]).
Qed.

Lemma star_cons (r : Re.re) (c : ascii) (x : string) :
  matches (Re.Star r) (String c x) ->
  exists a b, x = a +:+ b /\ matches r (String c a) /\ matches (Re.Star r) b.
Proof.
  intros H. remember (Re.Star r) as sr eqn:Hsr. remember (String c x) as cx eqn:Hcx.
  revert x Hcx. induction H as [| | | | | |r' a b Ha _ Hb IHb]; intros x Hcx;
    try discriminate.
  injection Hsr as ->. destruct a as [|c' a]; simpl in Hcx.
  - now apply IHb.
  - injection Hcx as -> <-. now exists a, b.
Qed.

Lemma deriv_spec (c : ascii) (r : Re.re) (x : string) :
  matches (Re.deriv c r) x <-> matches r (String c x).
Proof.
  revert x. induction r as [| | p | r IHr s IHs | r IHr s IHs | r IHr]; intros x; simpl.
  - split; intros H; now apply matches_void_inv in H.
  - split; intros H; [now apply matches_void_inv in H |].
    apply matches_eps_inv in H. discriminate.
  - destruct (p c) eqn:Hp; split; intros H.
    + apply matches_eps_inv in H. subst. now constructor.
    + apply matches_cls_inv in H as (c' & [= -> ->] & _). constructor.
    + now apply matches_void_inv in H.
    + apply matches_cls_inv in H as (c' & [= -> ->] & H). congruence.
  - assert (matches (Re.Seq (Re.deriv c r) s) x
            <-> exists a b, x = a +:+ b /\ matches r (String c a) /\ matches s b) as Hhead.
    { split.
      - intros H. apply matches_seq_inv in H as (a & b & -> & Ha & Hb).
        exists a, b. split; [reflexivity |]. split; [now apply IHr | exact Hb].
      - intros (a & b & -> & Ha & Hb). constructor; [now apply IHr | exact Hb]. }
    assert (matches (Re.Seq r s) (String c x)
            <-> (matches r "" /\ matches s (String c x))
                \/ exists a b, x = a +:+ b /\ matches r (String c a) /\ matches s b)
      as Hsplit.
    { split.
      - intros H. apply matches_seq_inv in H as (a & b & Heq & Ha & Hb).
        destruct a as [|c' a]; simpl in Heq.
        + subst b. now left.
        + injection Heq as -> ->. right. now exists a, b.
      - intros [[Ha Hb] | (a & b & -> & Ha & Hb)].
        + apply (MSeq _ _ "" (String c x) Ha Hb).
        + apply (MSeq _ _ (String c a) b Ha Hb). }
    rewrite Hsplit. destruct (Re.nullable r) eqn:Hnull.
    + rewrite alt_spec. split.
      * intros H. apply matches_alt_inv in H as [H | H].
        -- right. now apply Hhead, seq_spec.
        -- left. split; [now apply nullable_spec | now apply IHs].
      * intros [[_ H] | H].
        -- apply MAltR. now apply IHs.
        -- apply MAltL, seq_spec. now apply Hhead.
    + rewrite seq_spec, Hhead. split; [now right |].
      intros [[H _] | H]; [| exact H].
      apply nullable_spec in H. congruence.
  - rewrite alt_spec. split; intros H; apply matches_alt_inv in H as [H | H].
    + apply MAltL. now apply IHr.
    + apply MAltR. now apply IHs.
    + apply MAltL. now apply IHr.
    + apply MAltR. now apply IHs.
  - rewrite seq_spec. split.
    + intros H. apply matches_seq_inv in H as (a & b & -> & Ha & Hb).
      apply IHr in Ha. apply (MStarS _ (String c a) b Ha Hb).
    + intros H. apply star_cons in H as (a & b & -> & Ha & Hb).
      constructor; [now apply IHr | exact Hb].
Qed.

(** The matcher decides the language. *)
Lemma fullmatch_spec (r : Re.re) (s : string) :
  Re.fullmatch r s = true <-> matches r s.
Proof.
  revert r. induction s as [|c s IH]; intros r; simpl.
  - apply nullable_spec.
  - rewrite IH. apply deriv_spec.
Qed.

End RegexFacts.

(** The character classes of the address pattern. *)
Definition local_char (c : ascii) : bool :=
  Signup.isalpha c || Signup.isdigit c || Signup.one_of "._%+-" c.

Definition domain_char (c : ascii) : bool :=
  Signup.isalpha c || Signup.isdigit c || Signup.one_of ".-" c.

Definition newline : string := String "010" "".

Section ShapeFacts.

Lemma all_chars_app (p : ascii -> bool) (a b : string) :
  all_chars p (a +:+ b) = all_chars p a && all_chars p b.
Proof.
  induction a as [|c a IH]; simpl; [reflexivity |]. now rewrite IH, andb_assoc.
Qed.

Lemma all_chars_impl (p q : ascii -> bool) (s : string) :
  (forall c, p c = true -> q c = true) -> all_chars p s = true -> all_chars q s = true.
Proof.
  intros Hpq. induction s as [|c s IH]; simpl; [reflexivity |].
  rewrite !andb_true_iff. intros [Hc Hs]. auto.
Qed.

Lemma length_append (a b : string) :
  String.length (a +:+ b) = String.length a + String.length b.
Proof. induction a as [|c a IH]; simpl; [reflexivity | now rewrite IH]. Qed.

Lemma star_cls (p : ascii -> bool) (s : string) :
  matches (Re.Star (Re.Cls p)) s <-> all_chars p s = true.
Proof.
  split.
  - intros H. remember (Re.Star (Re.Cls p)) as r eqn:Hr.
    induction H as [| | | | | |r' a b Ha _ Hb IHb]; try discriminate; [reflexivity |].
    injection Hr as ->. apply matches_cls_inv in Ha as (c & -> & Hc).
    simpl. now rewrite Hc, IHb.
  - induction s as [|c s IH]; simpl; [constructor |].
    rewrite andb_true_iff. intros [Hc Hs].
    apply (MStarS _ (String c "") s); [now constructor | now apply IH].
Qed.

Lemma plus_cls (p : ascii -> bool) (s : string) :
  matches (Re.Plus (Re.Cls p)) s <-> s <> "" /\ all_chars p s = true.
Proof.
  unfold Re.Plus. split.
  - intros H. apply matches_seq_inv in H as (a & b & -> & Ha & Hb).
    apply matches_cls_inv in Ha as (c & -> & Hc). apply star_cls in Hb.
    simpl. rewrite Hc, Hb. split; [discriminate | reflexivity].
  - intros [Hne Hall]. destruct s as [|c s]; [congruence |].
    simpl in Hall. apply andb_true_iff in Hall as [Hc Hs].
    apply (MSeq _ _ (String c "") s); [now constructor | now apply star_cls].
Qed.

Lemma chr_spec (c : ascii) (s : string) :
  matches (Re.Chr c) s <-> s = String c "".
Proof.
  unfold Re.Chr. split.
  - intros H. apply matches_cls_inv in H as (c' & -> & Hc).
    apply Ascii.eqb_eq in Hc. now subst.
  - intros ->. constructor. apply Ascii.eqb_refl.
Qed.

(** What the anchored pattern of [is_valid_email] accepts. *)
Lemma pattern_spec (s : string) :
  Re.match_anchored Signup.pattern s = true
  <-> exists local domain tld tail,
        s = local +:+ "@" +:+ domain +:+ "." +:+ tld +:+ tail
        /\ (tail = "" \/ tail = newline)
        /\ local <> "" /\ all_chars local_char local = true
        /\ domain <> "" /\ all_chars domain_char domain = true
        /\ 2 <= String.length tld /\ all_chars Signup.isalpha tld = true.
Proof.
  unfold Re.match_anchored. rewrite fullmatch_spec. unfold Signup.pattern.
  fold local_char domain_char. split.
  - intros H.
    apply matches_seq_inv in H as (body & tail & -> & H & Htail).
    apply matches_seq_inv in H as (local & r1 & -> & Hlocal & H).
    apply matches_seq_inv in H as (at_ & r2 & -> & Hat & H).
    apply matches_seq_inv in H as (domain & r3 & -> & Hdomain & H).
    apply matches_seq_inv in H as (dot & r4 & -> & Hdot & H).
    apply matches_seq_inv in H as (t1 & t2 & -> & Ht1 & Ht2).
    apply chr_spec in Hat, Hdot. subst at_ dot.
    apply plus_cls in Hlocal as [Hl1 Hl2]. apply plus_cls in Hdomain as [Hd1 Hd2].
    apply matches_cls_inv in Ht1 as (c & -> & Hc). apply plus_cls in Ht2 as [Ht1 Ht2].
    exists local, domain, (String c t2), tail.
    split; [now rewrite !append_assoc |].
    split.
    { apply matches_alt_inv in Htail as [Htail | Htail].
      - left. now apply matches_eps_inv.
      - right. now apply chr_spec. }
    repeat split; try assumption.
    + destruct t2; [congruence | simpl; lia].
    + simpl. now rewrite Hc, Ht2.
  - intros (local & domain & tld & tail & -> & Htail & Hl1 & Hl2 & Hd1 & Hd2 & Ht1 & Ht2).
    destruct tld as [|c [|c' t]]; simpl in Ht1; try lia.
    simpl in Ht2. apply andb_true_iff in Ht2 as [Hc Ht2].
    replace (local +:+ "@" +:+ domain +:+ "." +:+ String c (String c' t) +:+ tail)
      with ((local +:+ "@" +:+ domain +:+ "." +:+ String c "" +:+ String c' t) +:+ tail)
      by now rewrite !append_assoc.
    constructor.
    + constructor; [now apply plus_cls |].
      constructor; [now apply chr_spec |].
      constructor; [now apply plus_cls |].
      constructor; [now apply chr_spec |].
      constructor; [now constructor |].
      apply plus_cls. split; [discriminate | exact Ht2].
    + destruct Htail as [-> | ->]; [apply MAltL; constructor | apply MAltR; now apply chr_spec].
Qed.

End ShapeFacts.

(** X13: [is_valid_email] accepts exactly the texts of at most 254
    characters made of a non-empty local part of letters, digits and
    [._%+-], an [@], a non-empty domain of letters, digits, dots and
    hyphens, a dot, and a final label of at least two letters, optionally
    followed by one newline (which [$] lets through). *)
Theorem valid_email_shape (email : string) :
  Signup.is_valid_email email = true
  <-> String.length email <= 254
      /\ exists local domain tld tail,
           email = local +:+ "@" +:+ domain +:+ "." +:+ tld +:+ tail
           /\ (tail = "" \/ tail = newline)
           /\ local <> "" /\ all_chars local_char local = true
           /\ domain <> "" /\ all_chars domain_char domain = true
           /\ 2 <= String.length tld /\ all_chars Signup.isalpha tld = true.
Proof.
  unfold Signup.is_valid_email. rewrite <- pattern_spec.
  destruct (Re.match_anchored Signup.pattern email); cbn [negb].
  - destruct (254 <? String.length email) eqn:Hlen.
    + apply Nat.ltb_lt in Hlen. split; [discriminate | lia].
    + apply Nat.ltb_ge in Hlen. split; [auto | reflexivity].
  - split; [discriminate | intros [_ H]; discriminate].
Qed.

(** ** Tokens of well-formed grants *)

(** The text has no separator character. *)
Definition no_bar (s : string) : bool :=
  all_chars (fun c => negb (Ascii.eqb c "|")) s.

Section GrantFacts.

Lemma split_at_bar (a a' r r' : string) :
  no_bar a = true -> no_bar a' = true ->
  a +:+ "|" +:+ r = a' +:+ "|" +:+ r' -> a = a' /\ r = r'.
Proof.
  unfold no_bar. revert a'. induction a as [|c a IH]; intros [|c' a']; simpl.
  - intros _ _ H. now injection H.
  - rewrite andb_true_iff, negb_true_iff. intros _ [Hc _] H.
    injection H as <- _. discriminate.
  - rewrite andb_true_iff, negb_true_iff. intros [Hc _] _ H.
    injection H as -> _. discriminate.
  - rewrite !andb_true_iff. intros [_ Ha] [_ Ha'] H. injection H as -> H.
    destruct (IH a' Ha Ha' H) as [-> ->]. auto.
Qed.

Lemma local_char_no_bar (c : ascii) :
  local_char c = true -> negb (Ascii.eqb c "|") = true.
Proof. destruct c as [[] [] [] [] [] [] [] []]; vm_compute; congruence. Qed.

Lemma domain_char_no_bar (c : ascii) :
  domain_char c = true -> negb (Ascii.eqb c "|") = true.
Proof. destruct c as [[] [] [] [] [] [] [] []]; vm_compute; congruence. Qed.

Lemma isalpha_no_bar (c : ascii) :
  Signup.isalpha c = true -> negb (Ascii.eqb c "|") = true.
Proof. destruct c as [[] [] [] [] [] [] [] []]; vm_compute; congruence. Qed.

Lemma pattern_no_bar (s : string) :
  Re.match_anchored Signup.pattern s = true -> no_bar s = true.
Proof.
  intros H. apply pattern_spec in H
    as (local & domain & tld & tail & -> & Htail & _ & Hl & _ & Hd & _ & Ht).
  unfold no_bar. rewrite !all_chars_app.
  rewrite (all_chars_impl _ _ local local_char_no_bar Hl).
  rewrite (all_chars_impl _ _ domain domain_char_no_bar Hd).
  rewrite (all_chars_impl _ _ tld isalpha_no_bar Ht).
  destruct Htail as [-> | ->]; reflexivity.
Qed.

Lemma valid_email_no_bar (email : string) :
  Signup.is_valid_email email = true -> no_bar email = true.
Proof.
  unfold Signup.is_valid_email. intros H. apply pattern_no_bar.
  now destruct (Re.match_anchored Signup.pattern email).
Qed.

Lemma known_city_no_bar (city : string) :
  Py.in_list city CITIES = true -> no_bar city = true.
Proof.
  intros H. apply in_list_spec in H. unfold CITIES in H.
  repeat (apply elem_of_cons in H as [-> | H]; [reflexivity |]).
  now apply elem_of_nil in H.
Qed.

End GrantFacts.

(** X14: for addresses that pass [is_valid_email], known cities and the
    two actions, the text that is hashed determines the grant: two grants
    with the same text have the same address, city and action.  Tokens of
    different such grants can only coincide by a collision of the
    truncated hash, never by the separator ambiguity. *)
Theorem grant_text_injective (E : env) (e c a e' c' a' : string) :
  Signup.is_valid_email e = true -> Signup.is_valid_email e' = true ->
  Py.in_list c CITIES = true -> Py.in_list c' CITIES = true ->
  Py.in_list a ["confirm"; "unsubscribe"] = true ->
  Py.in_list a' ["confirm"; "unsubscribe"] = true ->
  e +:+ "|" +:+ c +:+ "|" +:+ a +:+ "|" +:+ SECRET_KEY E
  = e' +:+ "|" +:+ c' +:+ "|" +:+ a' +:+ "|" +:+ SECRET_KEY E ->
  e = e' /\ c = c' /\ a = a'.
Proof.
  intros He He' Hc Hc' Ha Ha' Heq.
  apply split_at_bar in Heq as [-> Heq]; try now apply valid_email_no_bar.
  apply split_at_bar in Heq as [-> Heq]; try now apply known_city_no_bar.
  assert (forall x, Py.in_list x ["confirm"; "unsubscribe"] = true -> no_bar x = true)
    as Hact.
  { intros x Hx. apply in_list_spec in Hx.
    repeat (apply elem_of_cons in Hx as [-> | Hx]; [reflexivity |]).
    now apply elem_of_nil in Hx. }
  apply split_at_bar in Heq as [-> _]; auto.
Qed.

Section TokenShape.
Local Open Scope Z_scope.

Lemma sextet_url_safe (v : Z) :
  0 <= v < 64 -> Signup.one_of Base64.alphabet (Base64.sextet v) = true.
Proof.
  intros Hv. rewrite <- (Z2Nat.id v) by lia.
  assert (Z.to_nat v < 64)%nat as Hn by lia. revert Hn.
  generalize (Z.to_nat v) as n. intros n Hn.
  do 64 (destruct n as [|n]; [vm_compute; reflexivity |]). lia.
Qed.

(** The encoding of sixteen bytes, stripped of its padding. *)
Lemma encode_sixteen (l : list Z) :
  length l = 16%nat -> Forall is_byte l ->
  let t := Py.rstrip_char "=" (Base64.urlsafe_b64encode l) in
  String.length t = 22%nat /\ all_chars (Signup.one_of Base64.alphabet) t = true.
Proof.
  intros Hlen Hl.
  do 16 (destruct l as [|? l]; [discriminate Hlen |]).
  destruct l; [| discriminate Hlen].
  repeat match goal with
         | H : Forall is_byte (_ :: _) |- _ => apply Forall_cons in H as [? H]
         end.
  cbn [Base64.urlsafe_b64encode]. cbv zeta.
  rewrite !rstrip_char_sextet
    by (unfold is_byte in *; Z.div_mod_to_equations; lia).
  change (Py.rstrip_char "=" "==") with "".
  split; [reflexivity |].
  cbn [all_chars].
  rewrite !sextet_url_safe by (unfold is_byte in *; Z.div_mod_to_equations; lia).
  reflexivity.
Qed.

End TokenShape.

Lemma token_shape (E : env) (email city action : string) :
  String.length (Handlers.generate_token E email city action) = 22
  /\ all_chars (Signup.one_of Base64.alphabet)
       (Handlers.generate_token E email city action) = true.
Proof.
  unfold Handlers.generate_token. apply encode_sixteen.
  - rewrite length_take, digest_length. reflexivity.
  - apply Forall_take, digest_bytes.
Qed.

(** X15: every token, for any e-mail, city, action and secret, is 22
    characters long and made of letters, digits, [-] and [_] only: it
    carries no [=] padding and needs no escaping in a link; and the three
    modules issue the same one. *)
Theorem token_is_url_safe (E : env) (email city action : string) :
  String.length (Handlers.generate_token E email city action) = 22
  /\ all_chars (Signup.one_of Base64.alphabet)
       (Handlers.generate_token E email city action) = true
  /\ Main.generate_token E email city action = Handlers.generate_token E email city action
  /\ Signup.generate_token E email city action = Handlers.generate_token E email city action.
Proof.
  destruct (token_shape E email city action) as [Hlen Hall].
  split; [exact Hlen | split; [exact Hall | split; reflexivity]].
Qed.

(** ** The HTTP entry points and the command line *)

Section EntryFacts.
Variable E : env.

Lemma short_token_never_verifies (email city token action : string) :
  String.length token <> 22 ->
  Handlers.verify_token E email city token action = false.
Proof.
  intros Hlen. unfold Handlers.verify_token. apply String.eqb_neq. intros ->.
  now destruct (token_shape E email city action) as [H _].
Qed.

(** A request without a usable city or token is refused by both
    operations, and nothing changes. *)
Lemma refused_without_city_or_token (email city token : string) (w : world) :
  city = "" \/ token = "" ->
  (exists msg, msg <> ""
     /\ Handlers.confirm_subscription E email city token w = (Ret (false, msg), w))
  /\ (exists msg, msg <> ""
        /\ Handlers.unsubscribe E email city token w = (Ret (false, msg), w)).
Proof.
  intros H. rewrite confirm_subscription_cases, unsubscribe_cases. cbv zeta.
  destruct (Py.in_list (normalize city) CITIES) eqn:Hcity; cbn [negb];
    [| split; refused].
  destruct H as [-> | ->]; [discriminate Hcity |].
  rewrite !short_token_never_verifies by discriminate. cbn [negb].
  split; refused.
Qed.

End EntryFacts.

(** X16: what [handler] answers.  An answer with status 400 never comes
    with a change of the world, and is given only when one of the four
    parameters is missing or empty or the action is neither "confirm" nor
    "unsubscribe"; every other answer has status 200 and is the page
    around the message of the one call of [confirm_subscription] or
    [unsubscribe] made with the first values of the parameters, whether
    that call succeeded or refused. *)
Theorem handler_answers (E : env) (params : gmap string (list string))
    (w w' : world) (r : Handlers.http_response) :
  Handlers.handler E params w = (Ret r, w') ->
  exists action email city token,
    Handlers.first_value params "action" = Some action
    /\ Handlers.first_value params "email" = Some email
    /\ Handlers.first_value params "city" = Some city
    /\ Handlers.first_value params "token" = Some token
    /\ ((Handlers.statusCode r = 400%Z /\ w' = w
         /\ (action = "" \/ email = "" \/ city = "" \/ token = ""
             \/ (action <> "confirm" /\ action <> "unsubscribe")))
        \/ (Handlers.statusCode r = 200%Z
            /\ action <> "" /\ email <> "" /\ city <> "" /\ token <> ""
            /\ exists ok msg,
                 Handlers.response_body r = Handlers.Page msg
                 /\ ((action = "confirm"
                      /\ Handlers.confirm_subscription E email city token w
                         = (Ret (ok, msg), w'))
                     \/ (action = "unsubscribe"
                         /\ Handlers.unsubscribe E email city token w
                            = (Ret (ok, msg), w'))))).
Proof.
  unfold Handlers.handler, bind, Handlers.get_first, ret. intros H.
  destruct (Handlers.first_value params "action") as [action|]; [| discriminate].
  destruct (Handlers.first_value params "email") as [email|]; [| discriminate].
  destruct (Handlers.first_value params "city") as [city|]; [| discriminate].
  destruct (Handlers.first_value params "token") as [token|]; [| discriminate].
  exists action, email, city, token. repeat (split; [reflexivity |]).
  cbn [forallb] in H. rewrite andb_true_r in H.
  destruct (String.eqb action "") eqn:Ha; destruct (String.eqb email "") eqn:He;
    destruct (String.eqb city "") eqn:Hc; destruct (String.eqb token "") eqn:Ht;
    cbn [negb andb] in H;
    try (injection H as <- <-; left;
         repeat match goal with
                | Hx : String.eqb _ "" = true |- _ => apply String.eqb_eq in Hx
                end;
         split; [reflexivity | split; [reflexivity | auto 8]]).
  cbn [negb andb] in H.
  apply String.eqb_neq in Ha, He, Hc, Ht.
  destruct (String.eqb action "confirm") eqn:Hconfirm.
  { apply String.eqb_eq in Hconfirm.
    destruct (Handlers.confirm_subscription E email city token w)
      as [[[ok msg]|] w1]; [| discriminate].
    injection H as <- <-. right. repeat (split; [assumption || reflexivity |]).
    exists ok, msg. split; [reflexivity |]. now left. }
  destruct (String.eqb action "unsubscribe") eqn:Hunsub.
  { apply String.eqb_eq in Hunsub.
    destruct (Handlers.unsubscribe E email city token w)
      as [[[ok msg]|] w1]; [| discriminate].
    injection H as <- <-. right. repeat (split; [assumption || reflexivity |]).
    exists ok, msg. split; [reflexivity |]. now right. }
  apply String.eqb_neq in Hconfirm, Hunsub.
  injection H as <- <-. left. auto 8.
Qed.

(** X17: a token that is not 22 characters long never verifies, whatever
    the e-mail, city, action and secret; so the routes of the Flask
    application, which pass missing parameters on as empty strings, answer
    a request without a city or without a token with a refusal page and
    change nothing. *)
Theorem routes_refuse_without_city_or_token (E : env) (args : gmap string string)
    (w : world) :
  (forall email city token action,
     String.length token <> 22 ->
     Handlers.verify_token E email city token action = false)
  /\ (default "" (args !! "city") = "" \/ default "" (args !! "token") = "" ->
      (exists msg, msg <> ""
         /\ Handlers.confirm_route E args w
            = (Ret (Handlers.Response 200 (Handlers.Page msg)), w))
      /\ (exists msg, msg <> ""
            /\ Handlers.unsubscribe_route E args w
               = (Ret (Handlers.Response 200 (Handlers.Page msg)), w))).
Proof.
  split; [apply short_token_never_verifies |].
  intros H. unfold Handlers.confirm_route, Handlers.unsubscribe_route, bind, ret.
  destruct (refused_without_city_or_token E (default "" (args !! "email"))
              (default "" (args !! "city")) (default "" (args !! "token")) w H)
    as [(m1 & Hm1 & ->) (m2 & Hm2 & ->)].
  split; [exists m1 | exists m2]; split; auto.
Qed.

(** X18: the command line exits with 0 exactly when it is given an
    e-mail and a city, the address, lower-cased and trimmed, passes
    validation, the city, lower-cased and trimmed, is known, the address
    is not registered for it yet, and the one call of [send_email] it then
    makes for the confirmation succeeds: the mail service accepts it, or
    there is no API key and the e-mail is only printed (a dry run).  The
    world then differs by the record of that call.  With any other number
    of arguments it exits with 1 and does nothing. *)
Theorem cli_exit_code (E : env) (argv : list string) (w w' : world) :
  (length argv <> 3 -> Signup.main E argv w = (Ret 1%Z, w))
  /\ (Signup.main E argv w = (Ret 0%Z, w')
      <-> exists prog email city,
            argv = [prog; email; city]
            /\ Signup.is_valid_email (normalize email) = true
            /\ Py.in_list (normalize city) CITIES = true
            /\ Py.in_list (normalize email) (entries w (normalize city)) = false
            /\ (RESEND_API_KEY E = "" \/ resend E (trace w) = Accepted)
            /\ w' = mailed (normalize email)
                      (Confirmation (normalize city)
                         (confirm_url E (normalize email) (normalize city))
                         (quoted_phase w (normalize city))) w).
Proof.
  split.
  - intros Hlen. destruct argv as [|a [|b [|c [|d l]]]]; try reflexivity.
    now contradiction Hlen.
  - destruct argv as [|prog [|email [|city [|d l]]]];
      try (split; [discriminate | intros (? & ? & ? & [=] & _)]).
    unfold Signup.main, bind, ret. rewrite process_signup_cases. cbv zeta.
    destruct (Signup.is_valid_email (normalize email)) eqn:Hv; cbn [negb];
      [| split; [discriminate | intros (? & ? & ? & [= <- <- <-] & ? & _); congruence]].
    destruct (Py.in_list (normalize city) CITIES) eqn:Hc; cbn [negb];
      [| split; [discriminate | intros (? & ? & ? & [= <- <- <-] & _ & ? & _); congruence]].
    destruct (Py.in_list (normalize email) (entries w (normalize city))) eqn:Hin;
      [split; [discriminate | intros (? & ? & ? & [= <- <- <-] & _ & _ & ? & _); congruence] |].
    destruct (String.eqb (RESEND_API_KEY E) "") eqn:Hkey.
    + apply String.eqb_eq in Hkey. split.
      * intros [= <-]. exists prog, email, city. repeat split; auto.
      * intros (? & ? & ? & [= <- <- <-] & _ & _ & _ & _ & ->). reflexivity.
    + apply String.eqb_neq in Hkey.
      destruct (resend E (trace w)) eqn:Hr; split;
        try discriminate;
        try (intros (? & ? & ? & [= <- <- <-] & _ & _ & _ & [Hk | Ha] & _); congruence).
      * intros [= <-]. exists prog, email, city. repeat split; auto.
      * intros (? & ? & ? & [= <- <- <-] & _ & _ & _ & _ & ->). reflexivity.
Qed.

(** ** The regex scraper *)

(** The page of [test_extraction_regex] in [test_parser.py]. *)
Definition html_snippet : string :=
"
    <h2>Petrol prices in Sydney</h2>
    <p><strong>Buying tip</strong> (updated on Friday):</p>
    <ul>
    <li>prices appear to be around the <strong>lowest</strong> point of the cycle</li>
    <li>now is a good time for motorists to <strong>buy</strong> petrol.</li>
    </ul>
    <p>This chart shows daily average regular unleaded petrol prices in Sydney over the past 45 days.</p>
    ".

Example extract_snippet :
  Main.extract_tip "sydney" html_snippet
  = "prices appear to be around the lowest point of the cycle now is a good time for motorists to buy petrol."
  /\ Main.classify_phase (Main.extract_tip "sydney" html_snippet) = "BUY"
  /\ Main.extract_tip "perth" html_snippet = "".
Proof. vm_compute. auto. Qed.

Example extract_edge_cases :
  Main.extract_tip "sydney" "Petrol prices in Sydney Buying tip: This<b>chart x Source: y"
  = "This chart x"
  /\ Main.extract_tip "sydney" "PETROL PRICES IN SYDNEY buying tip:<<b>> a <> b  <i  c" = "> a <> b <i c"
  /\ Main.extract_tip "sydney" "Petrol prices in Sydney: Buying tip" = "".
Proof. vm_compute. auto. Qed.



Section ScraperFacts.



(** *** Whitespace *)







(** *** Tags *)













(** *** ASCII text stays ASCII text *)







End ScraperFacts.



(** ** A run, then a signup *)

Lemma main_saves_new_state (E : env) (html : string) (w : world) :
  accc_page E = Some html ->
  state_json (snd (Main.main E w))
  = Some (fst (Main.classify_cities (Main.tips_of E html) (previous_state_of w))).
Proof.
  intros Hpage. rewrite (main_fetched E html w Hpage). cbv zeta.
  destruct (snd (Main.classify_cities _ _)) as [|city l]; [reflexivity |].
  pose proof (dispatch_only_sends E (Main.tips_of E html) (city :: l)
                (World (Some (fst (Main.classify_cities (Main.tips_of E html)
                                     (previous_state_of w))))
                   (subscribers_json w)
                   (trace w ++ [EvSaveState (fst (Main.classify_cities
                                                    (Main.tips_of E html)
                                                    (previous_state_of w)))])))
    as (Hs & _).
  destruct (Main.dispatch _ _ _ _) as [[[]|] w2]; exact Hs.
Qed.

(** X22: the confirmation e-mail quotes the phase of the last run.  After
    a run over a fetched page, a signup that succeeds calls [send_email]
    exactly once, with a confirmation whose phase for the city is the one
    the run classified that city's tip as. *)
Theorem signup_quotes_last_run (E : env) (html email city msg : string)
    (w w2 : world) :
  accc_page E = Some html ->
  let w1 := snd (Main.main E w) in
  Signup.process_signup E email city w1 = (Ret (true, msg), w2) ->
  trace w2
  = trace w1
    ++ [EvSendEmail (normalize email)
          (Confirmation (normalize city)
             (confirm_url E (normalize email) (normalize city))
             (Main.classify_phase
                (default "" (Main.tips_of E html !! normalize city))))].
Proof.
  intros Hpage w1 Hsignup. rewrite process_signup_cases in Hsignup.
  cbv zeta in Hsignup.
  destruct (Signup.is_valid_email (normalize email)); cbn [negb] in Hsignup;
    [| discriminate].
  destruct (Py.in_list (normalize city) CITIES) eqn:Hcity; cbn [negb] in Hsignup;
    [| discriminate].
  destruct (Py.in_list (normalize email) (entries w1 (normalize city)));
    [discriminate |].
  assert (quoted_phase w1 (normalize city)
          = Main.classify_phase (default "" (Main.tips_of E html !! normalize city)))
    as Hphase.
  { unfold quoted_phase. subst w1. rewrite (main_saves_new_state E html w Hpage).
    rewrite current_state_spec, Hcity. reflexivity. }
  rewrite Hphase in Hsignup.
  destruct (String.eqb (RESEND_API_KEY E) ""); [now injection Hsignup as _ <- |].
  destruct (resend E (trace w1)); try discriminate. now injection Hsignup as _ <-.
Qed.

(** The tips of [test_parser.py] and the results it expects. *)
Example sample_tips_classified :
  map Main.classify_phase
    ["prices appear to be around the lowest point of the cycle now is a good time for motorists to buy petrol";
     "while the price cycle is around a high point we encourage motorists to use fuel price apps and websites to find lower priced retailers";
     "prices are decreasing and may decrease further motorists looking to buy petrol can shop around for the lowest prices"]
  = ["BUY"; "WAIT"; "WAIT"].
Proof. reflexivity. Qed.

(** ** Instances of the further properties *)

(** Two subscribers in Sydney and one in Perth, nothing run yet. *)
Definition two_city_world : world :=
  World None
    (Some {[ "sydney" := ["user@example.com"; "new@example.com"];
             "perth" := ["user@example.com"] ]})
    [].

Lemma unsubscribe_removes_one_witness :
  exists w1,
    Handlers.unsubscribe one_alert_env "USER@example.com" " sydney"
      "ZNpF36T1aWomN8u7aUSFRA" two_city_world
    = (Ret (true, "You've been unsubscribed"), w1)
    /\ trace w1 = trace two_city_world ++ [EvSaveSubscribers (registry w1)]
    /\ state_json w1 = state_json two_city_world
    /\ occurrences w1 (normalize " sydney") (normalize "USER@example.com") + 1
       = occurrences two_city_world (normalize " sydney") (normalize "USER@example.com")
    /\ (forall c' e', (c', e') <> (normalize " sydney", normalize "USER@example.com") ->
          occurrences w1 c' e' = occurrences two_city_world c' e').
Proof.
  apply (unsubscribe_removes_one one_alert_env "USER@example.com" " sydney"
           "ZNpF36T1aWomN8u7aUSFRA" two_city_world); vm_compute; reflexivity.
Defined.

Lemma confirm_then_unsubscribe_witness :
  exists w1 w2,
    Handlers.confirm_subscription one_alert_env "new@example.com" "sydney"
      "bs63tDz4cwo5xIPg2S4dMQ" one_alert_world
    = (Ret (true, "You're subscribed! You'll only hear from us when prices hit bottom."), w1)
    /\ Handlers.unsubscribe one_alert_env "new@example.com" "sydney"
         (Handlers.generate_token one_alert_env "new@example.com" "sydney" "unsubscribe") w1
       = (Ret (true, "You've been unsubscribed"), w2)
    /\ (forall c', entries w2 c' = entries one_alert_world c').
Proof.
  apply (confirm_then_unsubscribe one_alert_env "new@example.com" "sydney"
           "bs63tDz4cwo5xIPg2S4dMQ"
           (Handlers.generate_token one_alert_env "new@example.com" "sydney" "unsubscribe")
           one_alert_world); vm_compute; reflexivity.
Defined.

Lemma no_duplicates_invariant_witness :
  Forall no_duplicates
    (worlds_after one_alert_env
       [Signup "new@example.com" "sydney";
        Confirm "new@example.com" "sydney" "bs63tDz4cwo5xIPg2S4dMQ";
        Confirm "new@example.com" "sydney" "bs63tDz4cwo5xIPg2S4dMQ"]
       (World None (Some ∅) [])).
Proof.
  apply (no_duplicates_invariant one_alert_env).
  intros city email. vm_compute. lia.
Defined.

Lemma unknown_city_untouched_witness :
  Forall (fun w' => registry w' !! "hobart" = registry one_alert_world !! "hobart")
    (worlds_after one_alert_env
       [Confirm "new@example.com" "hobart" "bs63tDz4cwo5xIPg2S4dMQ";
        Confirm "new@example.com" "sydney" "bs63tDz4cwo5xIPg2S4dMQ"]
       one_alert_world).
Proof.
  apply (unknown_city_untouched one_alert_env). vm_compute. reflexivity.
Defined.

Lemma signup_refusal_has_no_effect_witness :
  exists msg, msg <> ""
    /\ Signup.process_signup one_alert_env "User@Example.com" "sydney" one_alert_world
       = (Ret (false, msg), one_alert_world).
Proof.
  apply (signup_refusal_has_no_effect one_alert_env "User@Example.com" "sydney"
           one_alert_world).
  right. right. vm_compute. reflexivity.
Defined.

Lemma signup_then_confirm_witness :
  let e := normalize " New@Example.COM" in
  let c := normalize "Sydney" in
  let token := Signup.generate_token one_alert_env e c "confirm" in
  Signup.is_valid_email e = true
  /\ Py.in_list c CITIES = true
  /\ Py.in_list e (entries one_alert_world c) = false
  /\ snd (Signup.process_signup one_alert_env " New@Example.COM" "Sydney" one_alert_world)
     = mailed e (Confirmation c (confirm_url one_alert_env e c)
                   (quoted_phase one_alert_world c)) one_alert_world
  /\ confirm_url one_alert_env e c
     = SITE_URL one_alert_env +:+ "/confirm.html?email=" +:+ e +:+ "&city=" +:+ c
       +:+ "&token=" +:+ token
  /\ normalize e = e
  /\ normalize c = c
  /\ forall email' city',
      normalize email' = e -> normalize city' = c ->
      exists w2,
        Handlers.confirm_subscription one_alert_env email' city' token
          (snd (Signup.process_signup one_alert_env " New@Example.COM" "Sydney"
                  one_alert_world))
        = (Ret (true, "You're subscribed! You'll only hear from us when prices hit bottom."), w2)
        /\ entries w2 c = entries one_alert_world c ++ [e].
Proof.
  apply (signup_then_confirm one_alert_env " New@Example.COM" "Sydney"
           "Check your inbox to confirm" one_alert_world
           (snd (Signup.process_signup one_alert_env " New@Example.COM" "Sydney"
                   one_alert_world))).
  vm_compute. reflexivity.
Defined.

Lemma alert_link_unsubscribes_witness :
  let token := Main.generate_token one_alert_env "user@example.com" "sydney" "unsubscribe" in
  trace (snd (Main.send_buy_alert one_alert_env "user@example.com" "sydney" "tip"
                one_alert_world))
  = trace one_alert_world
    ++ [EvSendEmail "user@example.com"
          (BuyAlert "sydney"
             (SITE_URL one_alert_env +:+ "/unsubscribe.html?email=" +:+ "user@example.com"
              +:+ "&city=" +:+ "sydney" +:+ "&token=" +:+ token))]
  /\ Handlers.unsubscribe one_alert_env "user@example.com" "sydney" token two_city_world
     = (Ret (true, "You've been unsubscribed"),
        saved (<["sydney" := Py.remove "user@example.com" (entries two_city_world "sydney")]>
                 (registry two_city_world)) two_city_world).
Proof.
  apply (alert_link_unsubscribes one_alert_env "user@example.com" "sydney" "tip"
           one_alert_world two_city_world).
  - vm_compute. reflexivity.
  - split; vm_compute; reflexivity.
  - vm_compute. reflexivity.
Defined.

(** The run of [one_alert_env] from [two_city_world] after Sydney was WAIT:
    both Sydney subscribers are mailed, in order. *)
Definition waiting_world : world :=
  World (Some {[ "sydney" := "WAIT"; "perth" := "WAIT" ]})
        (subscribers_json two_city_world) [].

Lemma alerts_follow_plan_witness :
  let tips := Main.tips_of one_alert_env "<html>" in
  let plan :=
    planned_alerts one_alert_env waiting_world
      (List.filter (wait_to_buy tips waiting_world) CITIES) in
  (forall city,
     alerts_for city plan
     = if Py.in_list city CITIES && wait_to_buy tips waiting_world city
       then map (fun email => alert_of one_alert_env email city)
              (entries waiting_world city)
       else [])
  /\ exists new_state,
      (forall city,
         new_state !! city
         = if Py.in_list city CITIES
           then Some (Main.classify_phase (default "" (tips !! city)))
           else None)
      /\ let w1 := World (Some new_state) (subscribers_json waiting_world)
                     (trace waiting_world ++ [EvSaveState new_state]) in
         (Main.main one_alert_env waiting_world = (Ret 0%Z, extended w1 plan)
          \/ exists done, done `prefix_of` plan
               /\ Main.main one_alert_env waiting_world = (Raise, extended w1 done))
         /\ (never_raises one_alert_env ->
             Main.main one_alert_env waiting_world = (Ret 0%Z, extended w1 plan)).
Proof.
  apply (alerts_follow_plan one_alert_env "<html>" waiting_world). reflexivity.
Defined.

(** The plan of that run, and the run. *)
Example planned_alerts_sample :
  planned_alerts one_alert_env waiting_world
    (List.filter (wait_to_buy (Main.tips_of one_alert_env "<html>") waiting_world) CITIES)
  = [alert_of one_alert_env "user@example.com" "sydney";
     alert_of one_alert_env "new@example.com" "sydney"]
  /\ trace (snd (Main.main one_alert_env waiting_world))
     = [EvSaveState (fst (Main.classify_cities (Main.tips_of one_alert_env "<html>")
                            (previous_state_of waiting_world)));
        alert_of one_alert_env "user@example.com" "sydney";
        alert_of one_alert_env "new@example.com" "sydney"].
Proof. split; vm_compute; reflexivity. Qed.

Lemma first_run_never_alerts_witness :
  let new_state :=
    fst (Main.classify_cities (Main.tips_of one_alert_env "<html>")
           (previous_state_of two_city_world)) in
  Main.main one_alert_env two_city_world
  = (Ret 0%Z, World (Some new_state) (subscribers_json two_city_world)
                (trace two_city_world ++ [EvSaveState new_state])).
Proof.
  apply (first_run_never_alerts one_alert_env "<html>" two_city_world); reflexivity.
Defined.

Lemma second_run_never_alerts_witness :
  let new_state :=
    fst (Main.classify_cities (Main.tips_of one_alert_env "<html>")
           (previous_state_of waiting_world)) in
  let w' := snd (Main.main one_alert_env waiting_world) in
  state_json w' = Some new_state
  /\ Main.main one_alert_env w'
     = (Ret 0%Z, World (Some new_state) (subscribers_json w')
                   (trace w' ++ [EvSaveState new_state])).
Proof.
  apply (second_run_never_alerts one_alert_env "<html>" waiting_world). reflexivity.
Defined.

Lemma grant_text_injective_witness :
  "user@example.com" = "user@example.com" /\ "sydney" = "sydney" /\ "confirm" = "confirm".
Proof.
  apply (grant_text_injective one_alert_env "user@example.com" "sydney" "confirm"
           "user@example.com" "sydney" "confirm"); vm_compute; reflexivity.
Defined.

(** A confirmation request with a tampered token: answered 200, with the
    refusal as its page. *)
Definition tampered_request : gmap string (list string) :=
  {[ "action" := ["confirm"]; "email" := ["new@example.com"];
     "city" := ["sydney"]; "token" := ["bs63tDz4cwo5xIPg2S4dMR"] ]}.

Definition refusal_page : Handlers.http_response :=
  Handlers.Response 200 (Handlers.Page "Invalid or expired confirmation link").

Lemma handler_answers_witness :
  exists action email city token,
    Handlers.first_value tampered_request "action" = Some action
    /\ Handlers.first_value tampered_request "email" = Some email
    /\ Handlers.first_value tampered_request "city" = Some city
    /\ Handlers.first_value tampered_request "token" = Some token
    /\ ((Handlers.statusCode refusal_page = 400%Z /\ one_alert_world = one_alert_world
         /\ (action = "" \/ email = "" \/ city = "" \/ token = ""
             \/ (action <> "confirm" /\ action <> "unsubscribe")))
        \/ (Handlers.statusCode refusal_page = 200%Z
            /\ action <> "" /\ email <> "" /\ city <> "" /\ token <> ""
            /\ exists ok msg,
                 Handlers.response_body refusal_page = Handlers.Page msg
                 /\ ((action = "confirm"
                      /\ Handlers.confirm_subscription one_alert_env email city token
                           one_alert_world
                         = (Ret (ok, msg), one_alert_world))
                     \/ (action = "unsubscribe"
                         /\ Handlers.unsubscribe one_alert_env email city token
                              one_alert_world
                            = (Ret (ok, msg), one_alert_world))))).
Proof.
  apply (handler_answers one_alert_env tampered_request one_alert_world one_alert_world
           refusal_page).
  vm_compute. reflexivity.
Defined.

Lemma signup_quotes_last_run_witness :
  let w1 := snd (Main.main one_alert_env waiting_world) in
  trace (snd (Signup.process_signup one_alert_env "third@example.com" "perth" w1))
  = trace w1
    ++ [EvSendEmail (normalize "third@example.com")
          (Confirmation (normalize "perth")
             (confirm_url one_alert_env (normalize "third@example.com") (normalize "perth"))
             (Main.classify_phase
                (default "" (Main.tips_of one_alert_env "<html>" !! normalize "perth"))))].
Proof.
  apply (signup_quotes_last_run one_alert_env "<html>" "third@example.com" "perth"
           "Check your inbox to confirm" waiting_world
           (snd (Signup.process_signup one_alert_env "third@example.com" "perth"
                   (snd (Main.main one_alert_env waiting_world))))).
  - reflexivity.
  - vm_compute. reflexivity.
Defined.


